(** * pycel.lib.lookup: the lookup and reference functions

    A shallow embedding of [src/pycel/lib/lookup.py] (the match engine
    [_match], [vlookup], [hlookup], [lookup], [address], [indirect] and
    [offset]) together with the properties stated about them.

    Python values are modelled by the inductive [value]; a Python
    exception is an explicit outcome [Raise] of the small error monad [py].
    Numbers are integers ([Z]); floating point cell values are outside the
    model. *)

From Stdlib Require Import ZArith String Ascii List Bool Lia Arith.
From Stdlib Require Import Sorted.
From Equations Require Import Equations.
Import ListNotations.

Local Open Scope Z_scope.

(* ===================================================================== *)
(** ** Values, errors and exceptions *)
(* ===================================================================== *)

(** Modelled from the spec: the error sentinels of [pycel.excelutil]
    ([ERROR_CODES] and the constants [NA_ERROR], [REF_ERROR] and
    [VALUE_ERROR]), a finite closed set of distinguished values. *)
Inductive error_code : Type :=
| NA_ERROR      (* "#N/A"    value unavailable  *)
| REF_ERROR     (* "#REF!"   invalid reference  *)
| VALUE_ERROR   (* "#VALUE!" invalid value      *)
| DIV0          (* "#DIV/0!" division by zero   *)
| NAME_ERROR    (* "#NAME?"  name unresolved    *)
| NULL_ERROR.   (* "#NULL!"  null intersection  *)

(** A cell value as the functions receive it.  [VText] holds the strings
    that are not error strings; an error string is a [VErr]. *)
Inductive value : Type :=
| VNone
| VNum (n : Z)
| VText (s : string)
| VBool (b : bool)
| VErr (e : error_code).

(** [value is None] *)
Definition is_None (v : value) : bool :=
  match v with VNone => true | _ => false end.

(** [value in ERROR_CODES] *)
Definition in_ERROR_CODES (v : value) : bool :=
  match v with VErr _ => true | _ => false end.

Inductive exn : Type := IndexError | ValueError | TypeError.

Inductive py (A : Type) : Type :=
| Ret (a : A)
| Raise (e : exn).
Arguments Ret {A} a.
Arguments Raise {A} e.

Definition bind {A B : Type} (m : py A) (k : A -> py B) : py B :=
  match m with
  | Ret a => k a
  | Raise e => Raise e
  end.

Declare Scope py_scope.
Delimit Scope py_scope with py.
Notation "x <- m ;; k" := (bind m (fun x => k))
  (at level 61, m at next level, right associativity) : py_scope.
Local Open Scope py_scope.

(** [a[i]] on a Python list, for an index that is not negative. *)
Definition getitem {A : Type} (a : list A) (i : nat) : py A :=
  match nth_error a i with
  | Some x => Ret x
  | None => Raise IndexError
  end.

(** [a[i]] for a signed index: a negative index counts from the end. *)
Definition getitemZ {A : Type} (a : list A) (i : Z) : py A :=
  if i <? 0
  then (if i + Z.of_nat (length a) <? 0 then Raise IndexError
        else getitem a (Z.to_nat (i + Z.of_nat (length a))))
  else getitem a (Z.to_nat i).

(** An argument that is either a scalar or a two-dimensional array (a tuple
    of rows), as the argument normalization hands it over. *)
Inductive arg : Type :=
| Scalar (v : value)
| Array (rows : list (list value)).

(** Modelled from the spec: [list_like] of [pycel.excelutil], which tells
    an array-shaped argument from a scalar. *)
Definition list_like (a : arg) : bool :=
  match a with Array _ => true | Scalar _ => false end.

(** The rows of an argument used as a sequence ([len], indexing,
    iteration); a scalar has none. *)
Definition rows_of (a : arg) : py (list (list value)) :=
  match a with Array rows => Ret rows | Scalar _ => Raise TypeError end.

(* ===================================================================== *)
(** ** The typed comparator [ExcelCmp] *)
(* ===================================================================== *)

(** [ExcelCmp] and [build_wildcard_re] live in [pycel.excelutil]; [_match]
    uses them through this interface only:
    - [cmp_type v] is [ExcelCmp(v).cmp_type];
    - [cmp_lt a b] is [ExcelCmp(a) < b], and [cmp_eq a b] is
      [ExcelCmp(a) == b] (the right operand wrapped or not);
    - [build_wildcard_re t] is [build_wildcard_re(ExcelCmp(t).value)], the
      predicate it returns being applied to [ExcelCmp(v).value]. *)
Class ExcelCmp : Type := {
  cmp_type : value -> Z;
  cmp_lt : value -> value -> bool;
  cmp_eq : value -> value -> bool;
  build_wildcard_re : value -> option (value -> bool)
}.

(* ===================================================================== *)
(** ** The match engine [_match] *)
(* ===================================================================== *)

Section Lookup.

Context {cmp : ExcelCmp}.

(** [while lo < len(lookup_array) and lookup_array[lo] is None: lo += 1] *)
Equations? scan_lo (a : list value) (lo : nat) : nat
  by wf (length a - lo)%nat lt :=
  scan_lo a lo with lt_dec lo (length a) := {
    | left _ with nth_error a lo := {
        | Some VNone => scan_lo a (S lo)
        | _ => lo }
    | right _ => lo }.
Proof. lia. Qed.

(** [while hi > 0 and lookup_array[hi - 1] is None: hi -= 1] *)
Fixpoint scan_hi (a : list value) (hi : nat) : nat :=
  match hi with
  | O => O
  | S h => match nth_error a h with
           | Some VNone => scan_hi a h
           | _ => hi
           end
  end.

(** [bisect.bisect_right(a, x, lo, hi)], comparing with [x < a[mid]]. *)
Equations? bisect_right (a : list value) (x : value) (lo hi : nat) : py nat
  by wf (hi - lo)%nat lt :=
  bisect_right a x lo hi with lt_dec lo hi := {
    | left _ with nth_error a ((lo + hi) / 2) := {
        | Some v with cmp_lt x v := {
            | true => bisect_right a x lo ((lo + hi) / 2)
            | false => bisect_right a x (S ((lo + hi) / 2)) hi }
        | None => Raise IndexError }
    | right _ => Ret lo }.
Proof.
  all: change (fst (Nat.divmod (lo + hi) 1 0 1)) with ((lo + hi) / 2)%nat;
       pose proof (Nat.div_mod_eq (lo + hi) 2) as Hd;
       pose proof (Nat.mod_upper_bound (lo + hi) 2 ltac:(lia)); lia.
Qed.

(** [while result and lookup_value.cmp_type !=
           ExcelCmp(lookup_array[result - 1]).cmp_type: result -= 1] *)
Fixpoint walk_back (t : value) (a : list value) (result : nat) : py nat :=
  match result with
  | O => Ret O
  | S r =>
      v <- getitem a r ;;
      if cmp_type t =? cmp_type v then Ret result else walk_back t a r
  end.

(** The position the ascending search settles on, before the final test. *)
Definition located (t : value) (a : list value) : py nat :=
  result <- bisect_right a t (scan_lo a 0) (scan_hi a (length a)) ;;
  walk_back t a result.

(** The branch [match_type == 1]. *)
Definition match_ascending (t : value) (a : list value) : py value :=
  let lo := scan_lo a 0 in
  let hi := scan_hi a (length a) in
  result <- bisect_right a t lo hi ;;
  result <- walk_back t a result ;;
  match result with
  | O => Ret (VErr NA_ERROR)
  | S r =>
      v <- getitem a r ;;
      if is_None v then Ret (VErr NA_ERROR)
      else Ret (VNum (Z.of_nat result))
  end.

(** The three closures [compare(idx, val)].  Each returns whether the loop
    breaks, and the new content of the one-cell list [result]. *)
Definition compare_exact (t : value) (idx : nat) (val : value)
    (result : value) : bool * value :=
  if cmp_eq val t then (true, VNum (Z.of_nat idx)) else (false, result).

Definition compare_wildcard (re_compare : value -> bool) (idx : nat)
    (val : value) (result : value) : bool * value :=
  if re_compare val then (true, VNum (Z.of_nat idx)) else (false, result).

Definition compare_descending (t : value) (idx : nat) (val : value)
    (result : value) : bool * value :=
  if cmp_lt val t then (true, result)
  else (cmp_eq val t, VNum (Z.of_nat idx)).

(** [for i, value in enumerate(lookup_array, 1): ...] from index [i] on. *)
Fixpoint match_scan (compare : nat -> value -> value -> bool * value)
    (t : value) (a : list value) (i : nat) (result : value) : value :=
  match a with
  | [] => result
  | v :: rest =>
      if in_ERROR_CODES v then match_scan compare t rest (S i) result
      else if cmp_type v =? cmp_type t then
        let (stop, result') := compare i v result in
        if stop then result' else match_scan compare t rest (S i) result'
      else match_scan compare t rest (S i) result
  end.

Definition _match (lookup_value : value) (lookup_array : list value)
    (match_type : Z) : py value :=
  if match_type =? 1 then match_ascending lookup_value lookup_array
  else
    let compare :=
      if match_type =? 0 then
        if cmp_type lookup_value =? 1 then
          match build_wildcard_re lookup_value with
          | Some re_compare => compare_wildcard re_compare
          | None => compare_exact lookup_value
          end
        else compare_exact lookup_value
      else compare_descending lookup_value in
    Ret (match_scan compare lookup_value lookup_array 1 (VErr NA_ERROR)).

(* ===================================================================== *)
(** ** The lookup functions *)
(* ===================================================================== *)

(** A comprehension [f(i) for i in rows] whose body can raise. *)
Fixpoint comprehension {A B : Type} (f : A -> py B) (rows : list A)
    : py (list B) :=
  match rows with
  | [] => Ret []
  | i :: rest =>
      x <- f i ;;
      xs <- comprehension f rest ;;
      Ret (x :: xs)
  end.

(** [bool(range_lookup)] passed as [match_type]: [True == 1], [False == 0]. *)
Definition match_type_of_bool (range_lookup : bool) : Z :=
  if range_lookup then 1 else 0.

Definition vlookup (lookup_value : value) (table_array : arg)
    (col_index_num : Z) (range_lookup : bool) : py value :=
  if negb (list_like table_array) then Ret (VErr NA_ERROR)
  else if col_index_num <=? 0 then Ret (VErr VALUE_ERROR)
  else
    table <- rows_of table_array ;;
    row0 <- getitem table 0 ;;
    if col_index_num >? Z.of_nat (length row0) then Ret (VErr REF_ERROR)
    else
      column <- comprehension (fun row => getitem row 0) table ;;
      result_idx <- _match lookup_value column
                      (match_type_of_bool range_lookup) ;;
      match result_idx with
      | VNum i =>
          row <- getitemZ table (i - 1) ;;
          getitemZ row (col_index_num - 1)
      | _ => Ret result_idx
      end.

Definition hlookup (lookup_value : value) (table_array : arg)
    (row_index_num : Z) (range_lookup : bool) : py value :=
  if negb (list_like table_array) then Ret (VErr NA_ERROR)
  else if row_index_num <=? 0 then Ret (VErr VALUE_ERROR)
  else
    table <- rows_of table_array ;;
    if row_index_num >? Z.of_nat (length table) then Ret (VErr REF_ERROR)
    else
      row0 <- getitem table 0 ;;
      result_idx <- _match lookup_value row0
                      (match_type_of_bool range_lookup) ;;
      match result_idx with
      | VNum i =>
          row <- getitemZ table (row_index_num - 1) ;;
          getitemZ row (i - 1)
      | _ => Ret result_idx
      end.

(** The block [if result_range is not None: ...] of [lookup]: [inl e] is an
    early [return e], [inr result] the result vector the function goes on
    with. *)
Definition lookup_result_vector (result : list value)
    (result_range : option arg) : py (value + list value) :=
  match result_range with
  | None => Ret (inr result)
  | Some result_range =>
      if negb (list_like result_range) then Ret (inl (VErr NA_ERROR))
      else
        rr <- rows_of result_range ;;
        let rr_height := length rr in
        rr0 <- getitem rr 0 ;;
        let rr_width := length rr0 in
        if (rr_width <? rr_height)%nat then
          if negb (rr_width =? 1)%nat then Ret (inl (VErr NA_ERROR))
          else
            col <- comprehension (fun i => getitem i 0) rr ;;
            Ret (inr col)
        else
          if negb (rr_height =? 1)%nat then Ret (inl (VErr NA_ERROR))
          else Ret (inr rr0)
  end.

Definition lookup (lookup_value : value) (lookup_array : arg)
    (result_range : option arg) : py value :=
  if negb (list_like lookup_array) then Ret (VErr NA_ERROR)
  else
    rows <- rows_of lookup_array ;;
    let height := length rows in
    row0 <- getitem rows 0 ;;
    let width := length row0 in
    mr <- (if (width <=? height)%nat then
             search <- comprehension (fun i => getitem i 0) rows ;;
             match_idx <- _match lookup_value search 1 ;;
             result <- comprehension (fun i => getitemZ i (-1)) rows ;;
             Ret (match_idx, result)
           else
             match_idx <- _match lookup_value row0 1 ;;
             result <- getitemZ rows (-1) ;;
             Ret (match_idx, result)) ;;
    let match_idx := fst mr in
    sel <- lookup_result_vector (snd mr) result_range ;;
    match sel with
    | inl early => Ret early
    | inr result =>
        match match_idx with
        | VNum i => getitemZ result (i - 1)
        | _ => Ret match_idx
        end
    end.

End Lookup.

(* ===================================================================== *)
(** ** A comparator after the specification *)
(* ===================================================================== *)

Module SpecCmp.

(** Modelled from the spec: the parts of the typed comparator, put
    together as the instance [spec_cmp] below. *)

(** The comparison classes: numbers and booleans form one class, text
    another, error sentinels a third; an absence marker is in a class of
    its own.  Text is class [1], the class [_match] tests for wildcards. *)
Definition class_of (v : value) : Z :=
  match v with
  | VNum _ | VBool _ => 0
  | VText _ => 1
  | VErr _ => 2
  | VNone => 3
  end.

(** Booleans are numerically coercible, [False < True]. *)
Definition numeric_key (v : value) : Z :=
  match v with
  | VNum n => n
  | VBool true => 1
  | _ => 0
  end.

Definition lower_char (c : ascii) : ascii :=
  let n := nat_of_ascii c in
  if ((65 <=? n) && (n <=? 90))%nat then ascii_of_nat (n + 32) else c.

Fixpoint lower (s : string) : string :=
  match s with
  | EmptyString => EmptyString
  | String c r => String (lower_char c) (lower r)
  end.

Definition error_rank (e : error_code) : Z :=
  match e with
  | NA_ERROR => 0 | REF_ERROR => 1 | VALUE_ERROR => 2
  | DIV0 => 3 | NAME_ERROR => 4 | NULL_ERROR => 5
  end.

(** Ordering inside a class; across classes nothing is less. *)
Definition less (a b : value) : bool :=
  match a, b with
  | (VNum _ | VBool _), (VNum _ | VBool _) => numeric_key a <? numeric_key b
  | VText x, VText y => String.ltb (lower x) (lower y)
  | VErr x, VErr y => error_rank x <? error_rank y
  | _, _ => false
  end.

(** Equality inside a class; across classes nothing is equal. *)
Definition equal (a b : value) : bool :=
  match a, b with
  | (VNum _ | VBool _), (VNum _ | VBool _) => numeric_key a =? numeric_key b
  | VText x, VText y => String.eqb (lower x) (lower y)
  | VErr x, VErr y => error_rank x =? error_rank y
  | VNone, VNone => true
  | _, _ => false
  end.

(** Wildcard patterns: [?] is any one character, [*] any run of
    characters, and [~] makes the character after it literal. *)
Inductive token : Type := Any | Star | Lit (c : ascii).

Fixpoint tokens (p : list ascii) : list token :=
  match p with
  | [] => []
  | c :: r =>
      if Ascii.eqb c "?" then Any :: tokens r
      else if Ascii.eqb c "*" then Star :: tokens r
      else if Ascii.eqb c "~" then
        match r with
        | d :: r' => Lit d :: tokens r'
        | [] => [Lit c]
        end
      else Lit c :: tokens r
  end.

Fixpoint glob (p : list token) : list ascii -> bool :=
  match p with
  | [] => fun s => match s with [] => true | _ => false end
  | Any :: p' => fun s => match s with _ :: s' => glob p' s' | [] => false end
  | Lit c :: p' =>
      fun s => match s with
               | d :: s' => Ascii.eqb c d && glob p' s'
               | [] => false
               end
  | Star :: p' =>
      fix star (s : list ascii) : bool :=
        glob p' s || match s with _ :: s' => star s' | [] => false end
  end.

Definition has_wildcard (p : list ascii) : bool :=
  existsb (fun c => Ascii.eqb c "?" || Ascii.eqb c "*") p.

Definition wildcard_re (t : value) : option (value -> bool) :=
  match t with
  | VText p =>
      let chars := list_ascii_of_string (lower p) in
      if has_wildcard chars then
        Some (fun v => match v with
                       | VText s =>
                           glob (tokens chars) (list_ascii_of_string (lower s))
                       | _ => false
                       end)
      else None
  | _ => None
  end.

End SpecCmp.

(** Modelled from the spec: [ExcelCmp] and [build_wildcard_re] of
    [pycel.excelutil].  The comparison classes, the ordering and equality inside a class, the rule
    that values of different classes are neither less nor equal, and the
    wildcard markers are those of the specification's typed comparator. *)
#[export] Instance spec_cmp : ExcelCmp := {
  cmp_type := SpecCmp.class_of;
  cmp_lt := SpecCmp.less;
  cmp_eq := SpecCmp.equal;
  build_wildcard_re := SpecCmp.wildcard_re
}.


(* ===================================================================== *)
(** ** Statements about the match engine *)
(* ===================================================================== *)

(** What the ascending search needs of a comparator: [<] is a strict order,
    and inside one comparison class it is total, so that being below an
    element carries over to every element that is not below that one. *)
Record ExcelCmpLaws (cmp : ExcelCmp) : Prop := {
  lt_irrefl : forall v, cmp_lt v v = false;
  lt_trans : forall x y z,
    cmp_lt x y = true -> cmp_lt y z = true -> cmp_lt x z = true;
  lt_not_gt_trans : forall x y z,
    cmp_type y = cmp_type z ->
    cmp_lt x y = true -> cmp_lt z y = false -> cmp_lt x z = true
}.

Section MatchStatements.

Context {cmp : ExcelCmp}.

(** [x] may stand before [y] in an ascending sequence: [y] is not below
    [x], and values of different comparison classes are strictly ordered. *)
Definition ascending_pair (x y : value) : Prop :=
  cmp_lt y x = false /\ (cmp_type x <> cmp_type y -> cmp_lt x y = true).

Definition sorted_ascending (s : list value) : Prop :=
  StronglySorted ascending_pair s.

(** [r] is the 1-based position of the last occurrence of the largest
    element of [a] that is less than or equal to [t]: the element there is
    neither above nor below [t], no element that is not above [t] is above
    it, and whatever follows it is an absence marker or is above [t]. *)
Definition last_largest_le (t : value) (a : list value) (r : nat) : Prop :=
  exists e,
    (1 <= r)%nat /\ nth_error a (r - 1) = Some e /\ e <> VNone /\
    cmp_lt t e = false /\ cmp_lt e t = false /\
    (forall v, In v a -> v <> VNone -> cmp_lt t v = false ->
               cmp_lt e v = false) /\
    (forall j v, (r <= j)%nat -> nth_error a j = Some v ->
                 v = VNone \/ cmp_lt t v = true).

(** [enumerate(a, i)] *)
Definition enumerate (i : nat) (a : list value) : list (nat * value) :=
  combine (seq i (length a)) a.

(** The elements that take part in a linear scan for [t]: those that are
    not error sentinels and are in the comparison class of [t]. *)
Definition participates (t : value) (iv : nat * value) : bool :=
  negb (in_ERROR_CODES (snd iv)) && (cmp_type (snd iv) =? cmp_type t).

Definition participants (t : value) (l : list (nat * value))
    : list (nat * value) :=
  filter (participates t) l.

(** The elements before the first one that satisfies [stop]. *)
Fixpoint before_first {A : Type} (stop : A -> bool) (l : list A) : list A :=
  match l with
  | [] => []
  | x :: r => if stop x then [] else x :: before_first stop r
  end.

(** The index of the last element of [l], or [d] where [l] is empty. *)
Definition last_index_or (d : value) (l : list (nat * value)) : value :=
  fold_left (fun _ iv => VNum (Z.of_nat (fst iv))) l d.

(** Descending mode as the claim words it: the index of the participating
    element just before the first participating element that is strictly
    less than [t]; not-found where there is none. *)
Definition descending_claimed (t : value) (a : list value) : value :=
  let ps := participants t (enumerate 1 a) in
  last_index_or (VErr NA_ERROR)
    (before_first (fun iv => cmp_lt (snd iv) t) ps).

(** Descending mode with the stop at an equal element: the scan ends at the
    first participating element that is strictly less than [t] or equal to
    [t]; an equal element that is not less is itself the result, otherwise
    the result is the last participating element before the end of the
    scan, or [d] (not-found) where there is none. *)
Definition descending_stop (t : value) (iv : nat * value) : bool :=
  cmp_lt (snd iv) t || cmp_eq (snd iv) t.

Definition descending_from (t : value) (l : list (nat * value)) (d : value)
    : value :=
  let ps := participants t l in
  match find (descending_stop t) ps with
  | Some (k, v) =>
      if cmp_lt v t
      then last_index_or d (before_first (descending_stop t) ps)
      else VNum (Z.of_nat k)
  | None => last_index_or d ps
  end.

Definition descending_amended (t : value) (a : list value) : value :=
  descending_from t (enumerate 1 a) (VErr NA_ERROR).

(** The projection the lookup functions end with. *)
Definition project (match_idx : value) (result : list value) : py value :=
  match match_idx with
  | VNum i => getitemZ result (i - 1)
  | _ => Ret match_idx
  end.

End MatchStatements.

(* ===================================================================== *)
(** ** Statements about the lookup functions *)
(* ===================================================================== *)

(** A rectangular array: at least one row, every row [w] cells wide. *)
Definition rectangular (rows : list (list value)) (w : nat) : Prop :=
  rows <> [] /\ Forall (fun r => length r = w) rows.

(** The first and the last column of an array. *)
Definition first_column (rows : list (list value)) : list value :=
  map (fun r => hd VNone r) rows.

Definition last_column (rows : list (list value)) : list value :=
  map (fun r => last r VNone) rows.

(** An explicit [result_range] that is a single row or a single column. *)
Definition single_row_or_column (rr : arg) : Prop :=
  match rr with
  | Scalar _ => False
  | Array rows => length rows = 1%nat \/ Forall (fun r => length r = 1%nat) rows
  end.

(** The arguments [lookup] is handed: a scalar, or a rectangular array
    that has at least one column. *)
Definition array_or_scalar (a : arg) : Prop :=
  match a with
  | Scalar _ => True
  | Array rows => exists w, rectangular rows w /\ (1 <= w)%nat
  end.

(* ===================================================================== *)
(** ** The address algebra *)
(* ===================================================================== *)

(** Modelled from the spec: the grid bounds [MAX_COL] and [MAX_ROW] of
    [pycel.excelutil]. *)
Definition MAX_COL : Z := 16384.
Definition MAX_ROW : Z := 1048576.

Definition chr (n : nat) : ascii := ascii_of_nat n.
Definition ord (c : ascii) : nat := nat_of_ascii c.

(** The digits of [str(n)] for an integer [n >= 0], most significant first,
    put before [acc]. *)
Equations? decimal_digits (n : nat) (acc : list ascii) : list ascii
  by wf n lt :=
  decimal_digits n acc with lt_dec n 10 := {
    | left _ => chr (48 + n) :: acc
    | right _ => decimal_digits (n / 10) (chr (48 + n mod 10) :: acc) }.
Proof.
  change (fst (Nat.divmod n 9 0 9)) with (n / 10)%nat.
  pose proof (Nat.div_mod_eq n 10). lia.
Qed.

(** [str(n)] for an integer. *)
Definition str_int (n : Z) : list ascii :=
  if n <? 0 then "-"%char :: decimal_digits (Z.to_nat (- n)) []
  else decimal_digits (Z.to_nat n) [].

(** [str([n])], a list that holds one integer. *)
Definition str_list1 (n : Z) : list ascii :=
  ("["%char :: str_int n) ++ ["]"%char].

(** The loop of [openpyxl.utils.get_column_letter]:
    [while col_idx > 0: col_idx, remainder = divmod(col_idx, 26); ...],
    the letters collected last being the leading ones. *)
Equations? column_letters (col_idx : nat) (letters : list ascii) : list ascii
  by wf col_idx lt :=
  column_letters col_idx letters with Nat.eq_dec col_idx 0 := {
    | left _ => letters
    | right _ with Nat.eq_dec (col_idx mod 26) 0 := {
        | left _ =>
            column_letters (col_idx / 26 - 1) (chr (26 + 64) :: letters)
        | right _ =>
            column_letters (col_idx / 26)
                           (chr (col_idx mod 26 + 64) :: letters) } }.
Proof.
  all: change (fst (Nat.divmod col_idx 25 0 25)) with (col_idx / 26)%nat;
       pose proof (Nat.div_mod_eq col_idx 26); lia.
Qed.

(** [get_column_letter(col_idx)]; it raises outside [1..18278]. *)
Definition get_column_letter (col_idx : Z) : py (list ascii) :=
  if (1 <=? col_idx) && (col_idx <=? 18278)
  then Ret (column_letters (Z.to_nat col_idx) [])
  else Raise ValueError.

(** ['$' if flag else ''] *)
Definition dollar (flag : bool) : list ascii :=
  if flag then ["$"%char] else [].

(** [abs_num in [1, 2]] and [abs_num in [1, 3]] *)
Definition abs_row_flag (abs_num : Z) : bool :=
  (abs_num =? 1) || (abs_num =? 2).

Definition abs_col_flag (abs_num : Z) : bool :=
  (abs_num =? 1) || (abs_num =? 3).

(** [style == 0]; an omitted [style] is [None]. *)
Definition style_is_zero (style : option Z) : bool :=
  match style with Some 0 => true | _ => false end.

Definition address (row_num column_num abs_num : Z) (style : option Z)
    (sheet_text : string) : py string :=
  let sheet_text :=
    match sheet_text with
    | EmptyString => sheet_text
    | _ => ("'" ++ sheet_text ++ "'!")%string
    end in
  if style_is_zero style then
    let r := if abs_row_flag abs_num then str_int row_num
             else str_list1 row_num in
    let c := if abs_col_flag abs_num then str_int column_num
             else str_list1 column_num in
    Ret (sheet_text
         ++ string_of_list_ascii ("R"%char :: r ++ "C"%char :: c))%string
  else
    let abs_row := dollar (abs_row_flag abs_num) in
    let abs_col := dollar (abs_col_flag abs_num) in
    letters <- get_column_letter column_num ;;
    Ret (sheet_text
         ++ string_of_list_ascii
              (abs_col ++ letters ++ abs_row ++ str_int row_num))%string.

(** Modelled from the spec: the addresses of [pycel.excelutil]
    ([AddressCell], a point, and [AddressRange], a span with an end), with
    an optional sheet, the empty string where there is none. *)
Inductive address_ref : Type :=
| Cell (sheet : string) (col_idx row : Z)
| Range (sheet : string) (col_idx row end_col end_row : Z).

(** What a reference function returns: an address or an error string. *)
Inductive reference_or_error : Type :=
| Ref (a : address_ref)
| RefError (e : error_code).

(** Modelled from the spec: the attributes [sheet], [col_idx], [row],
    [size] and [has_sheet] of an address; for a span, [col_idx] and [row]
    are those of its top-left corner. *)
Definition addr_sheet (a : address_ref) : string :=
  match a with Cell s _ _ => s | Range s _ _ _ _ => s end.

Definition addr_col_idx (a : address_ref) : Z :=
  match a with Cell _ c _ => c | Range _ c _ _ _ => c end.

Definition addr_row (a : address_ref) : Z :=
  match a with Cell _ _ r => r | Range _ _ r _ _ => r end.

(** [address.size.height] and [address.size.width] *)
Definition addr_height (a : address_ref) : Z :=
  match a with Cell _ _ _ => 1 | Range _ _ r _ er => er - r + 1 end.

Definition addr_width (a : address_ref) : Z :=
  match a with Cell _ _ _ => 1 | Range _ c _ ec _ => ec - c + 1 end.

Definition has_sheet (a : address_ref) : bool :=
  match addr_sheet a with EmptyString => false | _ => true end.

(** Modelled from the spec: [AddressRange.create(address, sheet=sheet)],
    which attaches a sheet to an address that has none. *)
Definition with_sheet (a : address_ref) (sheet : string) : address_ref :=
  if has_sheet a then a
  else match a with
       | Cell _ c r => Cell sheet c r
       | Range _ c r ec er => Range sheet c r ec er
       end.

(** *** Reading an address *)

Definition is_letter (c : ascii) : bool :=
  ((65 <=? ord c) && (ord c <=? 90))%nat.

Definition is_digit (c : ascii) : bool :=
  ((48 <=? ord c) && (ord c <=? 57))%nat.

(** The longest prefix of [s] whose characters satisfy [p], and the rest. *)
Fixpoint span (p : ascii -> bool) (s : list ascii)
    : list ascii * list ascii :=
  match s with
  | [] => ([], [])
  | c :: r =>
      if p c then let (taken, rest) := span p r in (c :: taken, rest)
      else ([], s)
  end.

Definition column_index (letters : list ascii) : nat :=
  fold_left (fun acc c => (acc * 26 + (ord c - 64))%nat) letters O.

Definition decimal_value (digits : list ascii) : nat :=
  fold_left (fun acc c => (acc * 10 + (ord c - 48))%nat) digits O.

Definition strip_dollar (s : list ascii) : list ascii :=
  match s with
  | c :: r => if Ascii.eqb c "$" then r else s
  | [] => s
  end.

(** A coordinate in A1 notation at the head of [s]: column letters and a
    row number, each with an optional [$] before it. *)
Definition parse_a1 (s : list ascii) : option (Z * Z * list ascii) :=
  let (letters, s1) := span is_letter (strip_dollar s) in
  let (digits, rest) := span is_digit (strip_dollar s1) in
  match letters, digits with
  | _ :: _, _ :: _ =>
      Some (Z.of_nat (column_index letters),
            Z.of_nat (decimal_value digits), rest)
  | _, _ => None
  end.

(** A coordinate in R1C1 notation at the head of [s], both parts absolute:
    [R<row>C<col>]. *)
Definition parse_r1c1 (s : list ascii) : option (Z * Z * list ascii) :=
  match s with
  | c :: s1 =>
      if Ascii.eqb c "R" then
        let (rdigits, s2) := span is_digit s1 in
        match rdigits, s2 with
        | _ :: _, c2 :: s3 =>
            if Ascii.eqb c2 "C" then
              let (cdigits, rest) := span is_digit s3 in
              match cdigits with
              | _ :: _ =>
                  Some (Z.of_nat (decimal_value cdigits),
                        Z.of_nat (decimal_value rdigits), rest)
              | [] => None
              end
            else None
        | _, _ => None
        end
      else None
  | [] => None
  end.

(** A point, or two points with a colon between them, and nothing after. *)
Definition parse_span (point : list ascii -> option (Z * Z * list ascii))
    (sheet : string) (s : list ascii) : option address_ref :=
  match point s with
  | Some (c, r, []) => Some (Cell sheet c r)
  | Some (c, r, sep :: s2) =>
      if Ascii.eqb sep ":" then
        match point s2 with
        | Some (ec, er, []) => Some (Range sheet c r ec er)
        | _ => None
        end
      else None
  | None => None
  end.

(** The text before the first [!], and the text after it. *)
Fixpoint split_bang (s : list ascii) : option (list ascii * list ascii) :=
  match s with
  | [] => None
  | c :: r =>
      if Ascii.eqb c "!" then Some ([], r)
      else match split_bang r with
           | Some (before, after) => Some (c :: before, after)
           | None => None
           end
  end.

Definition unquote (s : list ascii) : list ascii :=
  match s with
  | c :: r =>
      if Ascii.eqb c "'" then
        match rev r with
        | d :: m => if Ascii.eqb d "'" then rev m else s
        | [] => s
        end
      else s
  | [] => s
  end.

(** Modelled from the spec: [AddressRange.create(text)] of
    [pycel.excelutil] on a text: the text is read as an address in A1 or
    R1C1 notation, a sheet name before [!] being its sheet; a malformed
    text raises [ValueError].  Relative R1C1 parts and whole-row or
    whole-column spans are not read. *)
Definition AddressRange_create (text : string) : py address_ref :=
  let chars := list_ascii_of_string text in
  let (sheet, body) :=
    match split_bang chars with
    | Some (before, after) => (string_of_list_ascii (unquote before), after)
    | None => (EmptyString, chars)
    end in
  match parse_span parse_a1 sheet body with
  | Some a => Ret a
  | None =>
      match parse_span parse_r1c1 sheet body with
      | Some a => Ret a
      | None => Raise ValueError
      end
  end.

(** Modelled from the spec: [AddressCell.coordinate], the column letters
    and the row number of a point. *)
Definition coordinate (col_idx row : Z) : py (list ascii) :=
  letters <- get_column_letter col_idx ;;
  Ret (letters ++ str_int row).

(** *** The reference functions *)

Definition indirect (ref_text : string) (a1 : bool) (sheet : string)
    : py reference_or_error :=
  match AddressRange_create ref_text with
  | Raise ValueError => Ret (RefError REF_ERROR)
  | Raise e => Raise e
  | Ret address =>
      if (addr_row address >? MAX_ROW) || (addr_col_idx address >? MAX_COL)
      then Ret (RefError REF_ERROR)
      else if negb (has_sheet address)
      then Ret (Ref (with_sheet address sheet))
      else Ret (Ref address)
  end.

Definition offset (reference : address_ref) (row_inc col_inc : Z)
    (height width : option Z) : py reference_or_error :=
  let base_addr := reference in
  let height := match height with
                | None => addr_height base_addr
                | Some h => h
                end in
  let width := match width with
               | None => addr_width base_addr
               | Some w => w
               end in
  let new_row := addr_row base_addr + row_inc in
  let end_row := new_row + height - 1 in
  let new_col := addr_col_idx base_addr + col_inc in
  let end_col := new_col + width - 1 in
  if (new_row <=? 0) || (end_row >? MAX_ROW)
     || (new_col <=? 0) || (end_col >? MAX_COL)
  then Ret (RefError REF_ERROR)
  else
    let top_left := Cell (addr_sheet base_addr) new_col new_row in
    if (height =? width) && (width =? 1) then Ret (Ref top_left)
    else
      tl <- coordinate new_col new_row ;;
      br <- coordinate end_col end_row ;;
      a <- AddressRange_create
             (string_of_list_ascii (tl ++ ":"%char :: br)) ;;
      Ret (Ref (with_sheet a (addr_sheet top_left))).

(** *** Statements about the address algebra *)

(** A corner [(col, row)] lies on the grid. *)
Definition on_grid (col row : Z) : Prop :=
  1 <= col <= MAX_COL /\ 1 <= row <= MAX_ROW.

(** The extent [offset] works with: the argument, or the base's own. *)
Definition effective (given : option Z) (own : Z) : Z :=
  match given with Some x => x | None => own end.

(* ===================================================================== *)
(** ** The other functions of the module *)
(* ===================================================================== *)

(** [range(lo, hi)] over the integers, and [range(n)] over positions. *)
Definition zrange (lo hi : Z) : list Z :=
  map (fun i => lo + Z.of_nat i) (seq 0 (Z.to_nat (hi - lo))).

(** The truth value Python gives a cell value in a condition. *)
Definition truthy (v : value) : bool :=
  match v with
  | VNone => false
  | VNum n => negb (n =? 0)
  | VText s => match s with EmptyString => false | _ => true end
  | VBool b => b
  | VErr _ => true
  end.

(** [choose(index, *args)], the index already an integer. *)
Definition choose (index : Z) (args : list value) : py value :=
  if (index <? 1) || (Z.of_nat (length args) <? index)
     || match args with [] => true | _ => false end
  then Ret (VErr VALUE_ERROR)
  else getitemZ args (index - 1).

Definition columns (values : arg) : py Z :=
  if list_like values then
    vs <- rows_of values ;;
    v0 <- getitem vs 0 ;;
    Ret (Z.of_nat (length v0))
  else Ret 1.

Definition rows (values : arg) : py Z :=
  if list_like values then
    vs <- rows_of values ;;
    Ret (Z.of_nat (length vs))
  else Ret 1.

Section OtherLookups.

Context {cmp : ExcelCmp}.

(** [match(lookup_value, lookup_array, match_type)]; [match] is a keyword
    here, hence the underscore. *)
Definition match_ (lookup_value : value) (lookup_array : arg)
    (match_type : Z) : py value :=
  la <- rows_of lookup_array ;;
  searched <- (if (length la =? 1)%nat then getitem la 0
               else comprehension (fun row => getitem row 0) la) ;;
  _match lookup_value searched match_type.

End OtherLookups.

(** *** [index] on an array of values

    The arrays are tuples of tuples of cell values: the branch for arrays
    of addresses ([is_address]) and the branches for [np.ndarray] are not
    taken.  [row_num] and [col_num] are numbers or [None]. *)

(** An index that is given and is not zero: the test [if row_num]. *)
Definition given (n : option Z) : bool :=
  match n with Some z => negb (z =? 0) | None => false end.

Definition number (n : option Z) : Z :=
  match n with Some z => z | None => 0 end.

(** [array_data(row, col)] without a reference: [array[row][col]]. *)
Definition array_data (array : list (list value)) (row col : Z) : py value :=
  r <- getitemZ array row ;;
  getitemZ r col.

(** [try: ... except IndexError: return REF_ERROR] *)
Definition except_IndexError (body : py arg) : py arg :=
  match body with
  | Raise IndexError => Ret (Scalar (VErr REF_ERROR))
  | _ => body
  end.

Definition index (array : arg) (row_num col_num : option Z) : py arg :=
  if negb (list_like array) then
    match array with
    | Scalar v =>
        if in_ERROR_CODES v then Ret array
        else Ret (Scalar (VErr VALUE_ERROR))
    | Array _ => Ret (Scalar (VErr VALUE_ERROR))
    end
  else
    a <- rows_of array ;;
    a0 <- getitem a 0 ;;                 (* list_like(array[0]) *)
    _ <- getitem a0 0 ;;                 (* is_address(array[0][0]) *)
    except_IndexError
      (if given row_num && given col_num then
         if (number row_num <? 0) || (number col_num <? 0)
         then Ret (Scalar (VErr VALUE_ERROR))
         else
           v <- array_data a (number row_num - 1) (number col_num - 1) ;;
           Ret (Scalar v)
       else if given row_num then
         if number row_num <? 0 then Ret (Scalar (VErr VALUE_ERROR))
         else if (length a0 =? 1)%nat then
           v <- array_data a (number row_num - 1) 0 ;; Ret (Scalar v)
         else if (length a =? 1)%nat then
           v <- array_data a 0 (number row_num - 1) ;; Ret (Scalar v)
         else
           r <- comprehension
                  (fun col => array_data a (number row_num - 1) (Z.of_nat col))
                  (seq 0 (length a0)) ;;
           Ret (Array [r])
       else if given col_num then
         if number col_num <? 0 then Ret (Scalar (VErr VALUE_ERROR))
         else if (length a =? 1)%nat then
           v <- array_data a 0 (number col_num - 1) ;; Ret (Scalar v)
         else if (length a0 =? 1)%nat then
           v <- array_data a (number col_num - 1) 0 ;; Ret (Scalar v)
         else
           c <- comprehension
                  (fun row =>
                     v <- array_data a (Z.of_nat row) (number col_num - 1) ;;
                     Ret [v])
                  (seq 0 (length a)) ;;
           Ret (Array c)
       else Ret array).

(** *** [row] and [column] of a reference *)

(** What [row] and [column] return: a number, a [range] object, or a tuple
    of tuples of numbers. *)
Inductive numbers : Type :=
| Number (n : Z)
| PyRange (lo hi : Z)
| Numbers (cells : list (list Z)).

Definition column (ref : address_ref) : numbers :=
  match ref with
  | Range _ c _ ec _ =>
      if ec =? 0 then PyRange 1 (MAX_COL + 1)
      else Numbers [zrange c (ec + 1)]
  | Cell _ c _ => Number c
  end.

Definition row (ref : address_ref) : numbers :=
  match ref with
  | Range _ _ r _ er =>
      if er =? 0 then PyRange 1 (MAX_ROW + 1)
      else Numbers (map (fun c => [c]) (zrange r (er + 1)))
  | Cell _ _ r => Number r
  end.

(** *** [_xlws_filter] *)

(** [zip] of the unpacked [rows]: the columns of [rows], as long as the
    shortest row. *)
Fixpoint zip_cons {A : Type} (r : list A) (cols : list (list A))
    : list (list A) :=
  match r, cols with
  | x :: r', c :: cols' => (x :: c) :: zip_cons r' cols'
  | _, _ => []
  end.

Fixpoint zip_star {A : Type} (rows : list (list A)) : list (list A) :=
  match rows with
  | [] => []
  | r :: rest =>
      match rest with
      | [] => map (fun x => [x]) r
      | _ :: _ => zip_cons r (zip_star rest)
      end
  end.

(** A comprehension with a condition, [f(i) for i in l if cond(i)]. *)
Fixpoint comprehension_if {A B : Type} (cond : A -> py bool) (f : A -> py B)
    (l : list A) : py (list B) :=
  match l with
  | [] => Ret []
  | i :: rest =>
      c <- cond i ;;
      if c then
        x <- f i ;;
        xs <- comprehension_if cond f rest ;;
        Ret (x :: xs)
      else comprehension_if cond f rest
  end.

Definition _xlws_filter (values include if_empty : arg) : py arg :=
  match include with
  | Scalar flag =>                       (* not list_like(include) *)
      vector <- match values with
                | Scalar _ => Ret true   (* not isinstance(values, tuple) *)
                | Array vs =>
                    if (length vs =? 1)%nat then Ret true
                    else v0 <- getitem vs 0 ;; Ret (length v0 =? 1)%nat
                end ;;
      if vector then Ret (if truthy flag then values else if_empty)
      else Ret if_empty
  | Array inc =>
      vs <- rows_of values ;;
      v0 <- getitem vs 0 ;;
      i0 <- getitem inc 0 ;;
      res <- (if (length v0 =? length i0)%nat && negb (1 <? length inc)%nat
              then
                let transpose := zip_star vs in
                picked <- comprehension_if
                            (fun i => f <- getitem i0 i ;; Ret (truthy f))
                            (fun i => getitem transpose i)
                            (seq 0 (length transpose)) ;;
                Ret (Some (zip_star picked))
              else if (length vs =? length inc)%nat
                      && negb (1 <? length i0)%nat
              then
                picked <- comprehension_if
                            (fun i => r <- getitem inc i ;;
                                      f <- getitem r 0 ;;
                                      Ret (truthy f))
                            (fun i => getitem vs i)
                            (seq 0 (length vs)) ;;
                Ret (Some picked)
              else Ret None) ;;
      match res with
      | Some [] => Ret if_empty
      | Some r => Ret (Array r)
      | None => Ret (Scalar (VErr VALUE_ERROR))
      end
  end.

(* ===================================================================== *)
(** ** Statements about the rest of the module *)
(* ===================================================================== *)

Section MoreMatchStatements.

Context {cmp : ExcelCmp}.

(** The test of the exact mode: the wildcard predicate where the target is
    text that holds wildcards, equality with the target otherwise. *)
Definition exact_test (t : value) : value -> bool :=
  if cmp_type t =? 1 then
    match build_wildcard_re t with
    | Some re_compare => re_compare
    | None => fun v => cmp_eq v t
    end
  else fun v => cmp_eq v t.

(** An element the exact mode stops at. *)
Definition exact_hit (t v : value) : bool :=
  negb (in_ERROR_CODES v) && (cmp_type v =? cmp_type t) && exact_test t v.

(** An element that takes part in the descending scan. *)
Definition takes_part (t v : value) : bool :=
  negb (in_ERROR_CODES v) && (cmp_type v =? cmp_type t).

End MoreMatchStatements.

(** The vector [lookup] searches: the first column of an array at least as
    high as wide, the first row of a wider one. *)
Definition search_vector (rows : list (list value)) : list value :=
  if (length (hd [] rows) <=? length rows)%nat then first_column rows
  else hd [] rows.

(** The cells of a column vector, one row each. *)
Definition as_column {A : Type} (cells : list A) : list (list A) :=
  map (fun x => [x]) cells.

(** Keep the elements of [l] whose flag is set. *)
Fixpoint keep {A : Type} (flags : list bool) (l : list A) : list A :=
  match flags, l with
  | f :: flags', x :: l' => if f then x :: keep flags' l' else keep flags' l'
  | _, _ => []
  end.
(* ===================================================================== *)
(** ** The loops of the ascending search *)
(* ===================================================================== *)

Section AscendingLoops.

Context {cmp : ExcelCmp}.

Lemma scan_lo_spec (a : list value) (lo : nat) :
  (lo <= scan_lo a lo)%nat /\
  (forall i, (lo <= i < scan_lo a lo)%nat -> nth_error a i = Some VNone) /\
  nth_error a (scan_lo a lo) <> Some VNone /\
  ((lo <= length a)%nat -> (scan_lo a lo <= length a)%nat).
Proof.
  funelim (scan_lo a lo).
  - (* [lo] is past the end *)
    repeat split; intros; try lia.
    assert (nth_error a lo = None) as Hn by (apply nth_error_None; lia).
    congruence.
  - (* the element at [lo] is an absence marker *)
    destruct H as (Hle & Hnone & Hstop & Hlen).
    repeat split; intros; try lia; auto.
    destruct (Nat.eq_dec i lo) as [->|]; [assumption | apply Hnone; lia].
  - repeat split; intros; try lia; congruence.
  - repeat split; intros; try lia; congruence.
  - repeat split; intros; try lia; congruence.
  - repeat split; intros; try lia; congruence.
  - repeat split; intros; try lia; congruence.
Qed.

Lemma scan_hi_spec (a : list value) (hi : nat) :
  (scan_hi a hi <= hi)%nat /\
  (forall i, (scan_hi a hi <= i < hi)%nat -> nth_error a i = Some VNone) /\
  (forall h, scan_hi a hi = S h -> nth_error a h <> Some VNone).
Proof.
  induction hi as [|h IH]; cbn.
  - repeat split; intros; try lia; discriminate.
  - destruct (nth_error a h) as [[| | | |]|] eqn:E;
      try solve [repeat split; intros; try lia;
                 match goal with H : S _ = S _ |- _ =>
                   injection H as <-; congruence end].
    destruct IH as (Hle & Hnone & Hstop).
    repeat split; intros; try lia; auto.
    destruct (Nat.eq_dec i h) as [->|]; [assumption | apply Hnone; lia].
Qed.

(** The trimmed window of a sequence made of [n] absence markers, a core
    that neither starts nor ends with one, and [m] absence markers. *)
Lemma scan_lo_window (n m : nat) (core : list value) (v : value) :
  hd_error core = Some v -> v <> VNone ->
  scan_lo (repeat VNone n ++ core ++ repeat VNone m) 0 = n.
Proof.
  intros Hhd Hv. set (a := (repeat VNone n ++ core ++ repeat VNone m)%list).
  destruct (scan_lo_spec a 0) as (_ & Hnone & Hstop & _).
  assert (Hn : nth_error a n = Some v).
  { unfold a. rewrite nth_error_app2; rewrite repeat_length; [|lia].
    rewrite Nat.sub_diag. destruct core; cbn in *; congruence. }
  assert (Hpre : forall i, (i < n)%nat -> nth_error a i = Some VNone).
  { intros i Hi. unfold a. rewrite nth_error_app1 by (rewrite repeat_length; lia).
    apply nth_error_repeat. assumption. }
  destruct (Nat.lt_trichotomy (scan_lo a 0) n) as [Hlt | [Heq | Hgt]].
  - exfalso. apply Hstop. apply Hpre. assumption.
  - assumption.
  - exfalso. specialize (Hnone n ltac:(lia)). congruence.
Qed.

Lemma scan_hi_window (n m : nat) (core : list value) (v : value) :
  nth_error core (length core - 1) = Some v -> v <> VNone ->
  scan_hi (repeat VNone n ++ core ++ repeat VNone m)
          (length (repeat VNone n ++ core ++ repeat VNone m))
  = (n + length core)%nat.
Proof.
  intros Hlast Hv. set (a := (repeat VNone n ++ core ++ repeat VNone m)%list).
  assert (Hc : (0 < length core)%nat).
  { destruct core; cbn in *; [discriminate | lia]. }
  assert (Hlen : length a = (n + length core + m)%nat).
  { unfold a. rewrite !length_app, !repeat_length. lia. }
  destruct (scan_hi_spec a (length a)) as (Hle & Hnone & Hstop).
  assert (Hn : nth_error a (n + length core - 1) = Some v).
  { unfold a. rewrite nth_error_app2; rewrite repeat_length; [|lia].
    rewrite nth_error_app1 by lia.
    replace (n + length core - 1 - n)%nat with (length core - 1)%nat by lia.
    assumption. }
  assert (Hpost : forall i, (n + length core <= i < length a)%nat ->
                            nth_error a i = Some VNone).
  { intros i Hi. unfold a.
    rewrite nth_error_app2; rewrite repeat_length; [|lia].
    rewrite nth_error_app2 by lia.
    apply nth_error_repeat. lia. }
  destruct (Nat.lt_trichotomy (scan_hi a (length a)) (n + length core))
    as [Hlt | [Heq | Hgt]].
  - exfalso. specialize (Hnone (n + length core - 1)%nat ltac:(lia)). congruence.
  - assumption.
  - exfalso. destruct (scan_hi a (length a)) as [|h] eqn:E; [lia|].
    apply (Hstop h eq_refl). apply Hpost. lia.
Qed.

Lemma mid_bounds (lo hi : nat) :
  (lo < hi)%nat -> (lo <= (lo + hi) / 2 < hi)%nat.
Proof.
  intros H. pose proof (Nat.div_mod_eq (lo + hi) 2) as Hd.
  pose proof (Nat.mod_upper_bound (lo + hi) 2 ltac:(lia)). lia.
Qed.

(** The binary search returns, and its result lies in the window. *)
Lemma bisect_right_total (a : list value) (x : value) (lo hi : nat) :
  (hi <= length a)%nat ->
  exists r, bisect_right a x lo hi = Ret r /\
            (lo <= r)%nat /\ (r <= Nat.max lo hi)%nat.
Proof.
  funelim (bisect_right a x lo hi); intros Hlen.
  - exists lo. repeat split; lia.
  - exfalso. pose proof (mid_bounds lo hi l).
    apply nth_error_None in Heq. lia.
  - pose proof (mid_bounds lo hi l).
    destruct H as (r & Hr & Hb); [lia|]. exists r. split; [assumption | lia].
  - pose proof (mid_bounds lo hi l).
    destruct H as (r & Hr & Hb); [lia|]. exists r. split; [assumption | lia].
Qed.

(** Where [x < a[i]] is monotone over the window, the result splits the
    window: nothing to its left is above [x], everything from it on is. *)
Lemma bisect_right_partition (a : list value) (x : value) (lo hi r : nat) :
  (forall i j vi vj, (lo <= i)%nat -> (i <= j)%nat -> (j < hi)%nat ->
     nth_error a i = Some vi -> nth_error a j = Some vj ->
     cmp_lt x vi = true -> cmp_lt x vj = true) ->
  bisect_right a x lo hi = Ret r ->
  (forall i v, (lo <= i < r)%nat -> nth_error a i = Some v ->
               cmp_lt x v = false) /\
  (forall i v, (r <= i < hi)%nat -> nth_error a i = Some v ->
               cmp_lt x v = true).
Proof.
  funelim (bisect_right a x lo hi); intros Hmono Hret.
  - injection Hret as <-. split; intros; lia.
  - discriminate.
  - pose proof (mid_bounds lo hi l) as Hm.
    destruct (H r) as (Hleft & Hright); [|assumption|].
    { intros i j vi vj ? ? ?. apply Hmono; lia. }
    split; [assumption|].
    intros i w Hi Hw.
    destruct (Nat.lt_ge_cases i ((lo + hi) / 2)) as [Hlt | Hge].
    + apply (Hright i); [lia | assumption].
    + apply (Hmono ((lo + hi) / 2)%nat i v w); try lia; assumption.
  - pose proof (mid_bounds lo hi l) as Hm.
    destruct (H r) as (Hleft & Hright); [|assumption|].
    { intros i j vi vj ? ? ?. apply Hmono; lia. }
    split; [|assumption].
    intros i w Hi Hw.
    destruct (Nat.lt_ge_cases ((lo + hi) / 2) i) as [Hlt | Hge].
    + apply (Hleft i); [lia | assumption].
    + destruct (cmp_lt x w) eqn:E; [|reflexivity].
      rewrite <- Heq. symmetry.
      apply (Hmono i ((lo + hi) / 2)%nat w v); try lia; assumption.
Qed.

Lemma walk_back_total (t : value) (a : list value) (result : nat) :
  (result <= length a)%nat ->
  exists r, walk_back t a result = Ret r /\ (r <= result)%nat /\
    (forall k, r = S k ->
       exists v, nth_error a k = Some v /\ cmp_type t = cmp_type v).
Proof.
  induction result as [|k IH]; intros Hlen; cbn.
  - exists O. repeat split; [lia | discriminate].
  - unfold getitem. destruct (nth_error a k) as [v|] eqn:E.
    + cbn. destruct (cmp_type t =? cmp_type v) eqn:Ec.
      * exists (S k). repeat split; [lia|].
        intros k' Hk. injection Hk as <-. exists v. split; [assumption | lia].
      * destruct IH as (r & Hr & Hle & Hcls); [lia|].
        exists r. repeat split; [assumption | lia | assumption].
    + apply nth_error_None in E. lia.
Qed.

(** No walk-back where the located element is in the target's class. *)
Lemma walk_back_same_class (t v : value) (a : list value) (k : nat) :
  nth_error a k = Some v -> cmp_type t = cmp_type v ->
  walk_back t a (S k) = Ret (S k).
Proof.
  intros Hk Hc. cbn. unfold getitem. rewrite Hk. cbn.
  rewrite Hc, Z.eqb_refl. reflexivity.
Qed.

Lemma located_total (t : value) (a : list value) :
  exists r, located t a = Ret r /\ (r <= length a)%nat /\
    (forall k, r = S k ->
       exists v, nth_error a k = Some v /\ cmp_type t = cmp_type v).
Proof.
  unfold located.
  destruct (scan_lo_spec a 0) as (_ & _ & _ & Hlo).
  destruct (scan_hi_spec a (length a)) as (Hhi & _).
  destruct (bisect_right_total a t (scan_lo a 0) (scan_hi a (length a)) Hhi)
    as (r0 & -> & _ & Hr0). cbn.
  destruct (walk_back_total t a r0) as (r & -> & Hle & Hcls); [lia|].
  exists r. repeat split; [lia | assumption].
Qed.

Lemma match_ascending_located (t : value) (a : list value) :
  match_ascending t a =
    (result <- located t a ;;
     match result with
     | O => Ret (VErr NA_ERROR)
     | S r =>
         v <- getitem a r ;;
         if is_None v then Ret (VErr NA_ERROR)
         else Ret (VNum (Z.of_nat result))
     end).
Proof.
  unfold match_ascending, located.
  destruct (bisect_right a t (scan_lo a 0) (scan_hi a (length a)));
    reflexivity.
Qed.

Lemma match_type_ascending (t : value) (a : list value) :
  _match t a 1 = match_ascending t a.
Proof. reflexivity. Qed.

End AscendingLoops.

(* ===================================================================== *)
(** ** Ascending mode never answers with an absence marker *)
(* ===================================================================== *)

(** C10.  In ascending mode the search settles on a position [r] without
    raising; if [r] is [0] or the element at [r] is an absence marker
    (wherever in the sequence it stands), [_match] returns the not-found
    sentinel, and whenever [_match] returns an index, it is [r], it lies
    in the sequence, and the element there is not an absence marker. *)
Theorem match_ascending_no_absent {cmp : ExcelCmp} (t : value)
    (a : list value) :
  exists r,
    located t a = Ret r /\ (r <= length a)%nat /\
    ((r = O \/ nth_error a (r - 1) = Some VNone) ->
     _match t a 1 = Ret (VErr NA_ERROR)) /\
    (forall n, _match t a 1 = Ret (VNum n) ->
       n = Z.of_nat r /\ (1 <= r)%nat /\
       exists v, nth_error a (r - 1) = Some v /\ v <> VNone) /\
    (exists v, _match t a 1 = Ret v).
Proof.
  destruct (located_total t a) as (r & Hloc & Hlen & Hcls).
  exists r. rewrite match_type_ascending, match_ascending_located, Hloc.
  split; [reflexivity|]. split; [assumption|]. cbn.
  destruct r as [|k].
  - split; [intros _; reflexivity|].
    split; [intros n Hn; discriminate|]. eexists; reflexivity.
  - destruct (Hcls k eq_refl) as (v & Hv & _).
    replace (S k - 1)%nat with k by lia.
    unfold getitem. rewrite Hv. cbn.
    destruct (is_None v) eqn:Ev.
    + split; [intros _; reflexivity|].
      split; [intros n Hn; discriminate|]. eexists; reflexivity.
    + split.
      { intros [H|H]; [discriminate|].
        injection H as ->. discriminate. }
      split; [|eexists; reflexivity].
      intros n Hn. injection Hn as <-.
      split; [reflexivity|]. split; [lia|].
      exists v. split; [reflexivity|]. intros ->. discriminate.
Qed.


(* ===================================================================== *)
(** ** Ascending mode on a sorted sequence *)
(* ===================================================================== *)

Lemma StronglySorted_nth_error {A : Type} (R : A -> A -> Prop) (l : list A) :
  StronglySorted R l ->
  forall i j x y, (i < j)%nat ->
    nth_error l i = Some x -> nth_error l j = Some y -> R x y.
Proof.
  induction 1 as [|a l Hs IH Hall]; intros i j x y Hij Hi Hj.
  - destruct i; discriminate.
  - destruct j as [|j]; [lia|]. cbn in Hj.
    destruct i as [|i]; cbn in Hi.
    + injection Hi as <-. rewrite Forall_forall in Hall.
      apply Hall. eapply nth_error_In. eassumption.
    + apply (IH i j); [lia | assumption | assumption].
Qed.

Section AscendingSorted.

Context {cmp : ExcelCmp} (laws : ExcelCmpLaws cmp).

(** Over a sorted run, being above the target is monotone. *)
Lemma above_target_monotone (t : value) (core : list value) :
  sorted_ascending core ->
  forall i j vi vj, (i <= j)%nat ->
    nth_error core i = Some vi -> nth_error core j = Some vj ->
    cmp_lt t vi = true -> cmp_lt t vj = true.
Proof.
  intros Hs i j vi vj Hij Hi Hj Hlt.
  destruct (Nat.eq_dec i j) as [->|Hne]; [congruence|].
  destruct (StronglySorted_nth_error _ _ Hs i j vi vj ltac:(lia) Hi Hj)
    as (Hnb & Hcross).
  destruct (Z.eq_dec (cmp_type vi) (cmp_type vj)) as [Hc|Hc].
  - eapply (lt_not_gt_trans _ laws); eassumption.
  - eapply (lt_trans _ laws); [eassumption | apply Hcross; assumption].
Qed.

Lemma window_nth_error (n m : nat) (core : list value) (i : nat) :
  (n <= i < n + length core)%nat ->
  nth_error (repeat VNone n ++ core ++ repeat VNone m) i
  = nth_error core (i - n).
Proof.
  intros Hi. rewrite nth_error_app2; rewrite repeat_length; [|lia].
  apply nth_error_app1. lia.
Qed.

Lemma window_In (n m : nat) (core : list value) (v : value) :
  In v (repeat VNone n ++ core ++ repeat VNone m) -> v <> VNone ->
  exists j, (j < length core)%nat /\ nth_error core j = Some v.
Proof.
  intros Hin Hv.
  apply in_app_or in Hin as [Hin | Hin];
    [apply repeat_spec in Hin; congruence|].
  apply in_app_or in Hin as [Hin | Hin];
    [|apply repeat_spec in Hin; congruence].
  apply In_nth_error in Hin as (j & Hj). exists j. split; [|assumption].
  apply nth_error_Some. congruence.
Qed.

(** C1.  For a sequence made of leading absence markers, a run [core]
    sorted ascending that holds no absence marker, and trailing absence
    markers, and for a target [t] that occurs in it, the search window of
    [_match] in ascending mode is exactly the run, and [_match] returns
    the position the binary search over that window ends on, which is the
    1-based position of the last occurrence of the largest element less
    than or equal to [t]. *)
Theorem match_ascending_sorted (n m : nat) (core : list value) (t : value) :
  Forall (fun v => v <> VNone) core ->
  sorted_ascending core ->
  In t core ->
  let a := (repeat VNone n ++ core ++ repeat VNone m)%list in
  exists r,
    scan_lo a 0 = n /\
    scan_hi a (length a) = (n + length core)%nat /\
    bisect_right a t n (n + length core) = Ret r /\
    _match t a 1 = Ret (VNum (Z.of_nat r)) /\
    last_largest_le t a r.
Proof.
  intros Hnone Hsorted Hin a.
  rewrite Forall_forall in Hnone.
  destruct (In_nth_error _ _ Hin) as (p & Hp).
  assert (Hplen : (p < length core)%nat) by (apply nth_error_Some; congruence).
  assert (Hlen : length a = (n + length core + m)%nat).
  { unfold a. rewrite !length_app, !repeat_length. lia. }
  (* the window *)
  assert (Hlo : scan_lo a 0 = n).
  { destruct core as [|v0 core'] eqn:Ec; [destruct p; discriminate|].
    apply (scan_lo_window n m _ v0); [reflexivity|].
    apply Hnone. left. reflexivity. }
  assert (Hhi : scan_hi a (length a) = (n + length core)%nat).
  { destruct (nth_error core (length core - 1)) as [vl|] eqn:El.
    - apply (scan_hi_window n m core vl); [assumption|].
      apply Hnone. eapply nth_error_In. eassumption.
    - apply nth_error_None in El. lia. }
  (* the binary search *)
  destruct (bisect_right_total a t n (n + length core) ltac:(lia))
    as (r & Hr & Hrlo & Hrhi).
  destruct (bisect_right_partition a t n (n + length core) r)
    as (Hleft & Hright); [|assumption|].
  { intros i j vi vj Hi Hij Hj Hvi Hvj.
    unfold a in Hvi, Hvj.
    rewrite window_nth_error in Hvi by lia.
    rewrite window_nth_error in Hvj by lia.
    apply (above_target_monotone t core Hsorted (i - n) (j - n));
      [lia | assumption | assumption]. }
  assert (Hat : forall i, (n <= i < n + length core)%nat ->
                          nth_error a i = nth_error core (i - n)).
  { intros i Hi. apply window_nth_error. assumption. }
  (* the target itself is not above the target *)
  assert (Hpr : (n + p < r)%nat).
  { destruct (Nat.lt_ge_cases (n + p) r) as [|Hge]; [assumption|].
    exfalso.
    assert (cmp_lt t t = true) as Habs.
    { apply (Hright (n + p)%nat); [lia|].
      rewrite Hat by lia. replace (n + p - n)%nat with p by lia. assumption. }
    rewrite (lt_irrefl _ laws) in Habs. discriminate. }
  assert (Hrle : (r <= n + length core)%nat) by lia.
  destruct (nth_error core (r - 1 - n)) as [e|] eqn:He;
    [|apply nth_error_None in He; lia].
  assert (Hae : nth_error a (r - 1) = Some e) by (rewrite Hat by lia; assumption).
  assert (Hene : e <> VNone) by (apply Hnone; eapply nth_error_In; eassumption).
  assert (Hte : cmp_lt t e = false) by (apply (Hleft (r - 1)%nat); [lia | assumption]).
  assert (Hrel : cmp_lt e t = false /\ cmp_type t = cmp_type e).
  { destruct (Nat.eq_dec p (r - 1 - n)) as [Heq|Hne].
    - assert (e = t) as -> by congruence.
      split; [apply (lt_irrefl _ laws) | reflexivity].
    - destruct (StronglySorted_nth_error _ _ Hsorted p (r - 1 - n) t e
                  ltac:(lia) Hp He) as (Hnb & Hcross).
      split; [assumption|].
      destruct (Z.eq_dec (cmp_type t) (cmp_type e)) as [|Hc]; [assumption|].
      rewrite (Hcross Hc) in Hte. discriminate. }
  destruct Hrel as (Het & Hclass).
  exists r. repeat split; try assumption.
  - (* the result of [_match] *)
    rewrite match_type_ascending. unfold match_ascending.
    fold a. rewrite Hlo, Hhi, Hr. cbn.
    destruct r as [|k]; [lia|].
    replace (S k - 1)%nat with k in Hae by lia.
    rewrite (walk_back_same_class t e a k Hae Hclass). cbn.
    unfold getitem. rewrite Hae. cbn.
    destruct e; try reflexivity. congruence.
  - (* the last occurrence of the largest element not above the target *)
    exists e. repeat split; try assumption; try lia.
    + intros v Hv Hvn Htv.
      destruct (window_In n m core v Hv Hvn) as (j & Hj & Hjv).
      destruct (Nat.lt_trichotomy j (r - 1 - n)) as [Hlt | [Heq | Hgt]].
      * apply (StronglySorted_nth_error _ _ Hsorted j (r - 1 - n) v e
                 Hlt Hjv He).
      * assert (v = e) as -> by congruence. apply (lt_irrefl _ laws).
      * exfalso.
        assert (cmp_lt t v = true) as Habs.
        { apply (Hright (n + j)%nat); [lia|].
          rewrite Hat by lia. replace (n + j - n)%nat with j by lia.
          assumption. }
        congruence.
    + intros j v Hj Hv.
      destruct (Nat.lt_ge_cases j (n + length core)) as [Hlt | Hge].
      * right. apply (Hright j); [lia | assumption].
      * left. unfold a in Hv.
        rewrite nth_error_app2 in Hv; rewrite repeat_length in *; [|lia].
        rewrite nth_error_app2 in Hv by lia.
        apply nth_error_In, repeat_spec in Hv. assumption.
Qed.

End AscendingSorted.

(* ===================================================================== *)
(** ** The comparator after the specification obeys the laws *)
(* ===================================================================== *)

Module SpecCmpFacts.

Ltac ascii_order :=
  repeat match goal with
  | H : Ascii.compare _ _ = Eq |- _ => apply Ascii.compare_eq_iff in H; subst
  | H : Ascii.compare _ _ = Lt |- _ =>
      unfold Ascii.compare in H; rewrite N.compare_lt_iff in H
  | H : Ascii.compare _ _ = Gt |- _ =>
      unfold Ascii.compare in H; rewrite N.compare_gt_iff in H
  end.

Lemma ascii_compare_refl (c : ascii) : Ascii.compare c c = Eq.
Proof. unfold Ascii.compare. apply N.compare_refl. Qed.

Lemma string_compare_refl (s : string) : String.compare s s = Eq.
Proof.
  induction s as [|c s IH]; cbn; [reflexivity|].
  rewrite ascii_compare_refl. assumption.
Qed.

Lemma string_lt_trans (x : string) : forall y z,
  String.compare x y = Lt -> String.compare y z = Lt ->
  String.compare x z = Lt.
Proof.
  induction x as [|c1 x IH]; intros [|c2 y] [|c3 z]; cbn; try congruence.
  destruct (Ascii.compare c1 c2) eqn:E12, (Ascii.compare c2 c3) eqn:E23,
           (Ascii.compare c1 c3) eqn:E13;
    intros H1 H2; try congruence; ascii_order;
    rewrite ?ascii_compare_refl in *; try congruence; try lia; eauto.
Qed.

Lemma string_lt_not_gt_trans (x : string) : forall y z,
  String.compare x y = Lt -> String.compare z y <> Lt ->
  String.compare x z = Lt.
Proof.
  induction x as [|c1 x IH]; intros [|c2 y] [|c3 z]; cbn; try congruence.
  destruct (Ascii.compare c1 c2) eqn:E12, (Ascii.compare c3 c2) eqn:E32,
           (Ascii.compare c1 c3) eqn:E13;
    intros H1 H2; try congruence; ascii_order;
    rewrite ?ascii_compare_refl in *; try congruence; try lia; eauto.
Qed.

Lemma ltb_compare (x y : string) :
  String.ltb x y = true <-> String.compare x y = Lt.
Proof.
  unfold String.ltb. destruct (String.compare x y); split; congruence.
Qed.

Lemma ltb_false_compare (x y : string) :
  String.ltb x y = false <-> String.compare x y <> Lt.
Proof.
  unfold String.ltb. destruct (String.compare x y); split; congruence.
Qed.

Ltac numeric :=
  repeat match goal with b : bool |- _ => destruct b end;
  cbn in *; rewrite ?Z.ltb_lt, ?Z.ltb_ge in *; try discriminate; try lia.

Lemma spec_cmp_laws : ExcelCmpLaws spec_cmp.
Proof.
  constructor.
  - intros [| n | s | b | e]; cbn; try reflexivity.
    + apply Z.ltb_irrefl.
    + apply ltb_false_compare. rewrite string_compare_refl. discriminate.
    + destruct b; reflexivity.
    + apply Z.ltb_irrefl.
  - intros [| n1 | s1 | b1 | e1] [| n2 | s2 | b2 | e2] [| n3 | s3 | b3 | e3];
      cbn; try discriminate; intros H1 H2; try solve [numeric].
    rewrite ltb_compare in *. eapply string_lt_trans; eassumption.
  - intros [| n1 | s1 | b1 | e1] [| n2 | s2 | b2 | e2] [| n3 | s3 | b3 | e3];
      cbn; try discriminate; intros Hc H1 H2; try solve [numeric].
    rewrite ltb_compare in *. rewrite ltb_false_compare in H2.
    eapply string_lt_not_gt_trans; eassumption.
Qed.

(** The wildcard markers behave as the specification lists them. *)
Lemma wildcard_examples :
  _match (VText "a*c") [VText "abc"] 0 = Ret (VNum 1) /\
  _match (VText "a*c") [VText "ac"] 0 = Ret (VNum 1) /\
  _match (VText "a*c") [VText "ab"] 0 = Ret (VErr NA_ERROR) /\
  _match (VText "a?c") [VText "abc"] 0 = Ret (VNum 1) /\
  _match (VText "a?c") [VText "ac"] 0 = Ret (VErr NA_ERROR) /\
  _match (VText "a?c") [VText "abbc"] 0 = Ret (VErr NA_ERROR).
Proof. repeat split; reflexivity. Qed.

End SpecCmpFacts.

(** The sequence [None, 1, 5, 5, 9, None, None] and the target [5]: the
    search answers 4, the second of the two fives. *)
Lemma match_ascending_sorted_witness :
  Forall (fun v => v <> VNone) [VNum 1; VNum 5; VNum 5; VNum 9] /\
  sorted_ascending [VNum 1; VNum 5; VNum 5; VNum 9] /\
  In (VNum 5) [VNum 1; VNum 5; VNum 5; VNum 9] /\
  exists r,
    scan_lo [VNone; VNum 1; VNum 5; VNum 5; VNum 9; VNone; VNone] 0 = 1%nat /\
    scan_hi [VNone; VNum 1; VNum 5; VNum 5; VNum 9; VNone; VNone] 7 = 5%nat /\
    bisect_right [VNone; VNum 1; VNum 5; VNum 5; VNum 9; VNone; VNone]
      (VNum 5) 1 5 = Ret r /\
    _match (VNum 5) [VNone; VNum 1; VNum 5; VNum 5; VNum 9; VNone; VNone] 1
    = Ret (VNum (Z.of_nat r)) /\
    last_largest_le (VNum 5)
      [VNone; VNum 1; VNum 5; VNum 5; VNum 9; VNone; VNone] r.
Proof.
  assert (Hnone : Forall (fun v => v <> VNone)
                         [VNum 1; VNum 5; VNum 5; VNum 9])
    by (repeat constructor; discriminate).
  assert (Hsorted : sorted_ascending [VNum 1; VNum 5; VNum 5; VNum 9]).
  { repeat (constructor;
            try (split; [reflexivity | intros H; exfalso; apply H; reflexivity])). }
  assert (Hin : In (VNum 5) [VNum 1; VNum 5; VNum 5; VNum 9])
    by (right; left; reflexivity).
  repeat split; try assumption.
  exact (match_ascending_sorted SpecCmpFacts.spec_cmp_laws 1 2
           [VNum 1; VNum 5; VNum 5; VNum 9] (VNum 5) Hnone Hsorted Hin).
Defined.

(** Below every element, the search settles on position 0; and for the
    target [None] and the sequence [1, None, 5] it settles on position 2,
    where an absence marker stands between two numbers.  Either way the
    answer is not-found. *)
Lemma match_ascending_no_absent_witness :
  _match (VNum 0) [VNum 1; VNum 2] 1 = Ret (VErr NA_ERROR) /\
  _match VNone [VNum 1; VNone; VNum 5] 1 = Ret (VErr NA_ERROR).
Proof.
  split.
  - destruct (match_ascending_no_absent (VNum 0) [VNum 1; VNum 2])
      as (r & Hloc & _ & Hna & _).
    apply Hna. vm_compute in Hloc. injection Hloc as <-.
    left. reflexivity.
  - destruct (match_ascending_no_absent VNone [VNum 1; VNone; VNum 5])
      as (r & Hloc & _ & Hna & _).
    apply Hna. vm_compute in Hloc. injection Hloc as <-.
    right. reflexivity.
Defined.

(* ===================================================================== *)
(** ** Descending mode *)
(* ===================================================================== *)

Section Descending.

Context {cmp : ExcelCmp}.

Lemma enumerate_cons (i : nat) (v : value) (a : list value) :
  enumerate i (v :: a) = (i, v) :: enumerate (S i) a.
Proof. reflexivity. Qed.

Lemma descending_from_skip (t : value) (iv : nat * value)
    (l : list (nat * value)) (d : value) :
  participates t iv = false ->
  descending_from t (iv :: l) d = descending_from t l d.
Proof.
  intros H. unfold descending_from, participants. cbn [filter].
  rewrite H. reflexivity.
Qed.

Lemma descending_from_take (t : value) (i : nat) (v : value)
    (l : list (nat * value)) (d : value) :
  participates t (i, v) = true ->
  descending_from t ((i, v) :: l) d
  = if cmp_lt v t then d
    else if cmp_eq v t then VNum (Z.of_nat i)
    else descending_from t l (VNum (Z.of_nat i)).
Proof.
  intros H. unfold descending_from, participants. cbn [filter].
  rewrite H. cbn [find before_first]. unfold descending_stop at 1 3.
  cbn [snd].
  destruct (cmp_lt v t) eqn:Elt; cbn [orb].
  - rewrite Elt. reflexivity.
  - destruct (cmp_eq v t) eqn:Eeq.
    + rewrite Elt. reflexivity.
    + reflexivity.
Qed.

Lemma match_scan_descending (t : value) (a : list value) :
  forall i d,
    match_scan (compare_descending t) t a i d
    = descending_from t (enumerate i a) d.
Proof.
  induction a as [|v a IH]; intros i d; [reflexivity|].
  rewrite enumerate_cons. cbn [match_scan].
  destruct (participates t (i, v)) eqn:Ep.
  - rewrite (descending_from_take _ _ _ _ _ Ep).
    unfold participates in Ep. cbn [snd] in Ep.
    apply andb_prop in Ep as (Herr & Hcls).
    apply negb_true_iff in Herr. rewrite Herr, Hcls.
    unfold compare_descending.
    destruct (cmp_lt v t); [reflexivity|].
    destruct (cmp_eq v t); [reflexivity | apply IH].
  - rewrite (descending_from_skip _ _ _ _ Ep).
    unfold participates in Ep. cbn [snd] in Ep.
    destruct (in_ERROR_CODES v); [apply IH|].
    cbn [negb andb] in Ep. rewrite Ep. apply IH.
Qed.

(** C2, as the code has it.  In descending mode only the elements that are
    not error sentinels and are in the target's comparison class take
    part; the scan ends at the first of them that is strictly less than
    the target or equal to it; an equal element is itself the answer,
    otherwise the answer is the last participating element before the end
    of the scan, and not-found where there is none. *)
Theorem match_descending_amended (t : value) (a : list value) :
  _match t a (-1) = Ret (descending_amended t a).
Proof.
  unfold _match, descending_amended. cbn [Z.eqb].
  rewrite match_scan_descending. reflexivity.
Qed.

(** Where no participating element is equal to the target, the scan is
    the one the claim describes. *)
Lemma match_scan_claimed (t : value) (a : list value) :
  Forall (fun v => cmp_eq v t = false) a ->
  forall i d,
    match_scan (compare_descending t) t a i d
    = last_index_or d
        (before_first (fun iv => cmp_lt (snd iv) t)
           (participants t (enumerate i a))).
Proof.
  induction 1 as [|v a Hv Hall IH]; intros i d; [reflexivity|].
  rewrite enumerate_cons. cbn [match_scan].
  unfold participants. cbn [filter]. fold (participants t (enumerate (S i) a)).
  destruct (participates t (i, v)) eqn:Ep;
    unfold participates in Ep; cbn [snd] in Ep.
  - apply andb_prop in Ep as (Herr & Hcls).
    apply negb_true_iff in Herr. rewrite Herr, Hcls.
    unfold compare_descending. cbn [before_first snd].
    destruct (cmp_lt v t); [reflexivity|].
    rewrite Hv. apply IH.
  - destruct (in_ERROR_CODES v); [apply IH|].
    cbn [negb andb] in Ep. rewrite Ep. apply IH.
Qed.

Lemma match_descending_without_equal (t : value) (a : list value) :
  Forall (fun v => cmp_eq v t = false) a ->
  _match t a (-1) = Ret (descending_claimed t a).
Proof.
  intros H. unfold _match, descending_claimed. cbn [Z.eqb].
  rewrite (match_scan_claimed t a H). reflexivity.
Qed.

End Descending.

(** C2, as claimed, fails where the target occurs more than once: in
    [5, 4, 4, 3] the element before the first one below 4 is at position
    3, and the scan stops at position 2. *)
Lemma match_descending_claim_fails :
  _match (VNum 4) [VNum 5; VNum 4; VNum 4; VNum 3] (-1) = Ret (VNum 2) /\
  descending_claimed (VNum 4) [VNum 5; VNum 4; VNum 4; VNum 3] = VNum 3 /\
  _match (VNum 4) [VNum 5; VNum 4; VNum 4; VNum 3] (-1)
  <> Ret (descending_claimed (VNum 4) [VNum 5; VNum 4; VNum 4; VNum 3]).
Proof.
  split; [reflexivity|]. split; [reflexivity|]. discriminate.
Qed.

(* ===================================================================== *)
(** ** The lookup functions *)
(* ===================================================================== *)

Section LookupFacts.

Context {cmp : ExcelCmp}.

Lemma match_ascending_returns (t : value) (a : list value) :
  exists v, _match t a 1 = Ret v.
Proof.
  rewrite match_type_ascending, match_ascending_located.
  destruct (located_total t a) as (r & -> & Hlen & Hcls). cbn.
  destruct r as [|k]; [eexists; reflexivity|].
  destruct (Hcls k eq_refl) as (v & Hv & _).
  unfold getitem. rewrite Hv. cbn.
  destruct (is_None v); eexists; reflexivity.
Qed.

Lemma comprehension_first (rows : list (list value)) (w : nat) :
  Forall (fun r => length r = w) rows -> (1 <= w)%nat ->
  comprehension (fun i => getitem i 0) rows = Ret (first_column rows).
Proof.
  intros Hall Hw. induction Hall as [|r rows Hr Hall IH]; [reflexivity|].
  cbn. rewrite IH. destruct r as [|x r]; [cbn in Hr; lia | reflexivity].
Qed.

Lemma getitemZ_last {A : Type} (l : list A) (d : A) :
  l <> [] -> getitemZ l (-1) = Ret (last l d).
Proof.
  intros Hne. unfold getitemZ. cbn [Z.ltb Z.compare].
  destruct l as [|x l]; [congruence|].
  assert (Hlen : -1 + Z.of_nat (length (x :: l)) = Z.of_nat (length l))
    by (cbn [length]; lia).
  rewrite Hlen.
  destruct (Z.ltb_spec (Z.of_nat (length l)) 0) as [|_]; [lia|].
  rewrite Nat2Z.id. unfold getitem.
  replace (nth_error (x :: l) (length l)) with (Some (last (x :: l) d));
    [reflexivity|].
  clear Hne Hlen. revert x. induction l as [|y l IH]; intros x; [reflexivity|].
  cbn [length nth_error]. rewrite <- IH. reflexivity.
Qed.

Lemma comprehension_last (rows : list (list value)) (w : nat) :
  Forall (fun r => length r = w) rows -> (1 <= w)%nat ->
  comprehension (fun i => getitemZ i (-1)) rows = Ret (last_column rows).
Proof.
  intros Hall Hw. induction Hall as [|r rows Hr Hall IH]; [reflexivity|].
  cbn [comprehension]. rewrite IH.
  rewrite (getitemZ_last r VNone) by (destruct r; cbn in Hr; [lia | discriminate]).
  reflexivity.
Qed.

(** C3.  On a rectangular table, [vlookup] answers the invalid-value error
    for a column index below 1 and the invalid-reference error for a
    column index beyond the table's width, whatever the target and
    whether the search is approximate or exact. *)
Theorem vlookup_index_checks (t : value) (table : list (list value))
    (w : nat) (k : Z) (approximate : bool) :
  rectangular table w ->
  (k < 1 -> vlookup t (Array table) k approximate = Ret (VErr VALUE_ERROR)) /\
  (Z.of_nat w < k ->
   vlookup t (Array table) k approximate = Ret (VErr REF_ERROR)).
Proof.
  intros (Hne & Hall). split; intros Hk; unfold vlookup;
    cbn [list_like negb rows_of bind].
  - destruct (Z.leb_spec k 0) as [_|]; [reflexivity | lia].
  - destruct (Z.leb_spec k 0) as [|_]; [lia|].
    destruct table as [|row0 table]; [congruence|].
    cbn [getitem nth_error bind].
    apply Forall_inv in Hall. rewrite Hall.
    destruct (Z.gtb_spec k (Z.of_nat w)) as [_|]; [reflexivity | lia].
Qed.

(** C4.  In the array form (no [result_range]) on a rectangular array,
    [lookup] searches the first column and answers from the last column
    when the array is at least as high as it is wide, and searches the
    first row and answers from the last row when it is wider than high;
    [lookup(5, [[1, a], [5, b], [9, c]])] is [b]. *)
Theorem lookup_array_form (t : value) (rows : list (list value)) (w : nat) :
  rectangular rows w -> (1 <= w)%nat ->
  ((w <= length rows)%nat ->
   lookup t (Array rows) None
   = (m <- _match t (first_column rows) 1 ;; project m (last_column rows))) /\
  ((length rows < w)%nat ->
   lookup t (Array rows) None
   = (m <- _match t (hd [] rows) 1 ;; project m (last rows []))) /\
  @lookup spec_cmp (VNum 5)
    (Array [[VNum 1; VText "a"]; [VNum 5; VText "b"]; [VNum 9; VText "c"]])
    None
  = Ret (VText "b").
Proof.
  intros (Hne & Hall) Hw.
  assert (Hrow0 : exists row0, getitem rows 0 = Ret row0 /\
                               hd [] rows = row0 /\ length row0 = w).
  { destruct rows as [|row0 rows]; [congruence|].
    exists row0. apply Forall_inv in Hall. repeat split. assumption. }
  destruct Hrow0 as (row0 & Hget & Hhd & Hlen0).
  split; [|split; [|reflexivity]]; intros Hshape; unfold lookup;
    cbn [list_like negb rows_of bind];
    rewrite Hget; cbn [bind]; rewrite Hlen0.
  - destruct (Nat.leb_spec w (length rows)) as [_|]; [|lia].
    rewrite (comprehension_first rows w Hall Hw). cbn [bind].
    destruct (_match t (first_column rows) 1) as [m|e]; [|reflexivity].
    cbn [bind]. rewrite (comprehension_last rows w Hall Hw). reflexivity.
  - destruct (Nat.leb_spec w (length rows)) as [|_]; [lia|].
    rewrite Hhd.
    destruct (_match t row0 1) as [m|e]; [|reflexivity].
    cbn [bind]. rewrite (getitemZ_last rows []) by assumption. reflexivity.
Qed.

(** C8.  With an explicit [result_range] that is not a single row or a
    single column (a scalar, or an array with several rows and a width
    other than one), [lookup] answers the value-unavailable error for
    every target and every lookup array. *)
Theorem lookup_result_range_shape (t : value) (lookup_array rr : arg) :
  array_or_scalar lookup_array ->
  (forall rows, rr = Array rows -> exists w, rectangular rows w) ->
  ~ single_row_or_column rr ->
  lookup t lookup_array (Some rr) = Ret (VErr NA_ERROR).
Proof.
  intros Hla Hrr Hshape.
  destruct lookup_array as [v | rows]; [reflexivity|].
  destruct Hla as (w & (Hne & Hall) & Hw).
  unfold lookup. cbn [list_like negb rows_of bind].
  destruct rows as [|row0 rows']; [congruence|].
  cbn [getitem nth_error bind].
  set (rows := row0 :: rows') in *.
  assert (Hfirst :
    exists mr, (if (length row0 <=? length rows)%nat
                then search <- comprehension (fun i => getitem i 0) rows ;;
                     match_idx <- _match t search 1 ;;
                     result <- comprehension (fun i => getitemZ i (-1)) rows ;;
                     Ret (match_idx, result)
                else match_idx <- _match t row0 1 ;;
                     result <- getitemZ rows (-1) ;;
                     Ret (match_idx, result)) = Ret mr).
  { destruct (length row0 <=? length rows)%nat.
    - rewrite (comprehension_first rows w Hall Hw). cbn [bind].
      destruct (match_ascending_returns t (first_column rows)) as (m & ->).
      cbn [bind]. rewrite (comprehension_last rows w Hall Hw).
      eexists. reflexivity.
    - destruct (match_ascending_returns t row0) as (m & ->).
      cbn [bind]. rewrite (getitemZ_last rows []) by assumption.
      eexists. reflexivity. }
  destruct Hfirst as (mr & ->). cbn [bind].
  destruct rr as [v | rrows]; [reflexivity|].
  destruct (Hrr rrows eq_refl) as (w' & Hne' & Hall').
  cbn in Hshape.
  destruct rrows as [|rr0 rrows']; [congruence|].
  unfold lookup_result_vector.
  cbn [list_like negb rows_of getitem nth_error bind].
  pose proof (Forall_inv Hall') as Hw0. cbn beta in Hw0. rewrite Hw0.
  destruct (Nat.ltb_spec w' (length (rr0 :: rrows'))) as [Hlt | Hge].
  - destruct (Nat.eqb_spec w' 1) as [-> | _]; [|reflexivity].
    exfalso. apply Hshape. right. assumption.
  - destruct (Nat.eqb_spec (length (rr0 :: rrows')) 1) as [H1 | _];
      [|reflexivity].
    exfalso. apply Hshape. left. assumption.
Qed.

(** C9, as the code has it.  For a table that is not an array, [vlookup]
    and [hlookup] answer the value-unavailable error, whatever the other
    arguments. *)
Theorem lookup_scalar_table (t v : value) (k : Z) (range_lookup : bool) :
  vlookup t (Scalar v) k range_lookup = Ret (VErr NA_ERROR) /\
  hlookup t (Scalar v) k range_lookup = Ret (VErr NA_ERROR).
Proof. split; reflexivity. Qed.

End LookupFacts.

(** C9, as claimed, fails: the answer for a scalar table is not the
    invalid-value error. *)
Lemma scalar_table_is_not_value_error :
  vlookup (VNum 1) (Scalar (VNum 7)) 1 false <> Ret (VErr VALUE_ERROR) /\
  hlookup (VNum 1) (Scalar (VNum 7)) 1 false <> Ret (VErr VALUE_ERROR).
Proof. split; discriminate. Qed.

Lemma vlookup_index_checks_witness :
  rectangular [[VNum 1; VText "a"]; [VNum 5; VText "b"]] 2 /\
  vlookup (VNum 5) (Array [[VNum 1; VText "a"]; [VNum 5; VText "b"]]) 0 false
  = Ret (VErr VALUE_ERROR) /\
  vlookup (VNum 5) (Array [[VNum 1; VText "a"]; [VNum 5; VText "b"]]) 3 false
  = Ret (VErr REF_ERROR).
Proof.
  assert (Hrect : rectangular [[VNum 1; VText "a"]; [VNum 5; VText "b"]] 2).
  { split; [discriminate | repeat constructor]. }
  split; [assumption|].
  destruct (vlookup_index_checks (VNum 5) _ 2 0 false Hrect) as (Hlow & _).
  destruct (vlookup_index_checks (VNum 5) _ 2 3 false Hrect) as (_ & Hhigh).
  split; [apply Hlow; lia | apply Hhigh; lia].
Defined.

Lemma lookup_array_form_witness :
  rectangular
    [[VNum 1; VText "a"]; [VNum 5; VText "b"]; [VNum 9; VText "c"]] 2 /\
  lookup (VNum 5)
    (Array [[VNum 1; VText "a"]; [VNum 5; VText "b"]; [VNum 9; VText "c"]])
    None
  = (m <- _match (VNum 5) [VNum 1; VNum 5; VNum 9] 1 ;;
     project m [VText "a"; VText "b"; VText "c"]).
Proof.
  assert (Hrect : rectangular
    [[VNum 1; VText "a"]; [VNum 5; VText "b"]; [VNum 9; VText "c"]] 2).
  { split; [discriminate | repeat constructor]. }
  split; [assumption|].
  destruct (lookup_array_form (VNum 5) _ 2 Hrect ltac:(lia)) as (Hcol & _).
  apply Hcol. cbn. lia.
Defined.

Lemma lookup_result_range_shape_witness :
  lookup (VNum 5) (Array [[VNum 1]; [VNum 5]])
    (Some (Array [[VNum 1; VNum 2]; [VNum 3; VNum 4]]))
  = Ret (VErr NA_ERROR).
Proof.
  apply lookup_result_range_shape.
  - exists 1%nat. split; [|lia]. split; [discriminate | repeat constructor].
  - intros rows Hrows. injection Hrows as <-.
    exists 2%nat. split; [discriminate | repeat constructor].
  - cbn. intros [H | H]; [discriminate|].
    apply Forall_inv in H. discriminate.
Defined.

(* ===================================================================== *)
(** ** Writing and reading coordinates *)
(* ===================================================================== *)

Lemma decimal_digits_small (n : nat) (acc : list ascii) :
  (n < 10)%nat -> decimal_digits n acc = chr (48 + n) :: acc.
Proof.
  intros H. funelim (decimal_digits n acc); [reflexivity | lia].
Qed.

Lemma decimal_digits_big (n : nat) (acc : list ascii) :
  (10 <= n)%nat ->
  decimal_digits n acc = decimal_digits (n / 10) (chr (48 + n mod 10) :: acc).
Proof.
  intros H. funelim (decimal_digits n acc); [lia | reflexivity].
Qed.

Lemma column_letters_zero (letters : list ascii) :
  column_letters 0 letters = letters.
Proof. reflexivity. Qed.

Lemma column_letters_borrow (n : nat) (letters : list ascii) :
  n <> O -> (n mod 26 = 0)%nat ->
  column_letters n letters
  = column_letters (n / 26 - 1) (chr (26 + 64) :: letters).
Proof.
  intros H0 Hm. funelim (column_letters n letters);
    [congruence | reflexivity | congruence].
Qed.

Lemma column_letters_digit (n : nat) (letters : list ascii) :
  n <> O -> (n mod 26 <> 0)%nat ->
  column_letters n letters
  = column_letters (n / 26) (chr (n mod 26 + 64) :: letters).
Proof.
  intros H0 Hm. funelim (column_letters n letters);
    [congruence | congruence | reflexivity].
Qed.

Lemma ord_chr (n : nat) : (n < 256)%nat -> ord (chr n) = n.
Proof. apply nat_ascii_embedding. Qed.

Lemma decimal_digits_acc (n : nat) : forall acc,
  decimal_digits n acc = (decimal_digits n [] ++ acc)%list.
Proof.
  induction n as [n IH] using lt_wf_ind. intros acc.
  destruct (lt_dec n 10) as [Hs | Hb].
  - rewrite !decimal_digits_small by assumption. reflexivity.
  - rewrite (decimal_digits_big n acc), (decimal_digits_big n []) by lia.
    assert (Hq : (n / 10 < n)%nat) by (apply Nat.div_lt; lia).
    rewrite (IH _ Hq (_ :: acc)), (IH _ Hq [_]).
    rewrite <- app_assoc. reflexivity.
Qed.

(** The digits of a number are digits, there is at least one, and they
    read back as the number. *)
Lemma decimal_digits_spec (n : nat) :
  Forall (fun c => is_digit c = true) (decimal_digits n []) /\
  decimal_digits n [] <> [] /\
  decimal_value (decimal_digits n []) = n.
Proof.
  induction n as [n IH] using lt_wf_ind.
  assert (Hdigit : forall k, (k < 10)%nat ->
            is_digit (chr (48 + k)) = true /\ (ord (chr (48 + k)) - 48 = k)%nat).
  { intros k Hk. unfold is_digit. rewrite ord_chr by lia.
    split; [|lia].
    apply andb_true_intro. split; apply Nat.leb_le; lia. }
  destruct (lt_dec n 10) as [Hs | Hb].
  - rewrite decimal_digits_small by assumption.
    destruct (Hdigit n Hs) as (Hd & Hv).
    repeat split; [repeat constructor; assumption | discriminate |].
    unfold decimal_value. cbn [fold_left]. rewrite Hv. lia.
  - rewrite decimal_digits_big, decimal_digits_acc by lia.
    assert (Hq : (n / 10 < n)%nat) by (apply Nat.div_lt; lia).
    destruct (IH _ Hq) as (Hall & Hne & Hval).
    assert (Hr : (n mod 10 < 10)%nat) by (apply Nat.mod_upper_bound; lia).
    destruct (Hdigit _ Hr) as (Hd & Hv).
    repeat split.
    + apply Forall_app. split; [assumption | repeat constructor; assumption].
    + intros Habs. apply app_eq_nil in Habs as (_ & Habs). discriminate.
    + unfold decimal_value in *. rewrite fold_left_app. cbn [fold_left].
      rewrite Hval, Hv. pose proof (Nat.div_mod_eq n 10). lia.
Qed.

Lemma column_letters_acc (n : nat) : forall acc,
  column_letters n acc = (column_letters n [] ++ acc)%list.
Proof.
  induction n as [n IH] using lt_wf_ind. intros acc.
  destruct (Nat.eq_dec n 0) as [-> | H0]; [reflexivity|].
  assert (Hq : (n / 26 < n)%nat) by (apply Nat.div_lt; lia).
  destruct (Nat.eq_dec (n mod 26) 0) as [Hm | Hm].
  - rewrite (column_letters_borrow n acc), (column_letters_borrow n [])
      by assumption.
    rewrite (IH (n / 26 - 1)%nat ltac:(lia) (_ :: acc)),
            (IH (n / 26 - 1)%nat ltac:(lia) [_]).
    rewrite <- app_assoc. reflexivity.
  - rewrite (column_letters_digit n acc), (column_letters_digit n [])
      by assumption.
    rewrite (IH _ Hq (_ :: acc)), (IH _ Hq [_]).
    rewrite <- app_assoc. reflexivity.
Qed.

(** The letters of a column are capital letters, there is at least one for
    a column from 1 on, and they read back as the column. *)
Lemma column_letters_spec (n : nat) :
  Forall (fun c => is_letter c = true) (column_letters n []) /\
  (n <> O -> column_letters n [] <> []) /\
  column_index (column_letters n []) = n.
Proof.
  induction n as [n IH] using lt_wf_ind.
  assert (Hletter : forall k, (1 <= k <= 26)%nat ->
            is_letter (chr (k + 64)) = true /\ (ord (chr (k + 64)) - 64 = k)%nat).
  { intros k Hk. unfold is_letter. rewrite ord_chr by lia.
    split; [|lia].
    apply andb_true_intro. split; apply Nat.leb_le; lia. }
  destruct (Nat.eq_dec n 0) as [-> | H0].
  { repeat split; [constructor | congruence]. }
  assert (Hq : (n / 26 < n)%nat) by (apply Nat.div_lt; lia).
  pose proof (Nat.div_mod_eq n 26) as Hdm.
  pose proof (Nat.mod_upper_bound n 26 ltac:(lia)) as Hub.
  destruct (Nat.eq_dec (n mod 26) 0) as [Hm | Hm].
  - rewrite column_letters_borrow, column_letters_acc by assumption.
    destruct (IH (n / 26 - 1)%nat ltac:(lia)) as (Hall & _ & Hval).
    destruct (Hletter 26%nat ltac:(lia)) as (Hl & Hv).
    repeat split.
    + apply Forall_app. split; [assumption | repeat constructor; assumption].
    + intros _ Habs. apply app_eq_nil in Habs as (_ & Habs). discriminate.
    + unfold column_index in *. rewrite fold_left_app. cbn [fold_left].
      rewrite Hval, Hv. lia.
  - rewrite column_letters_digit, column_letters_acc by assumption.
    destruct (IH _ Hq) as (Hall & _ & Hval).
    destruct (Hletter (n mod 26)%nat ltac:(lia)) as (Hl & Hv).
    repeat split.
    + apply Forall_app. split; [assumption | repeat constructor; assumption].
    + intros _ Habs. apply app_eq_nil in Habs as (_ & Habs). discriminate.
    + unfold column_index in *. rewrite fold_left_app. cbn [fold_left].
      rewrite Hval, Hv. lia.
Qed.

Lemma span_app (p : ascii -> bool) (taken rest : list ascii) :
  Forall (fun c => p c = true) taken ->
  (forall c r, rest = c :: r -> p c = false) ->
  span p (taken ++ rest) = (taken, rest).
Proof.
  intros Hall Hrest. induction Hall as [|c taken Hc Hall IH]; cbn.
  - destruct rest as [|c r]; [reflexivity|]. cbn.
    rewrite (Hrest c r eq_refl). reflexivity.
  - rewrite Hc, IH. reflexivity.
Qed.

Lemma is_letter_ord (c : ascii) :
  is_letter c = true <-> (65 <= ord c <= 90)%nat.
Proof.
  unfold is_letter. rewrite andb_true_iff, !Nat.leb_le. reflexivity.
Qed.

Lemma is_digit_ord (c : ascii) :
  is_digit c = true <-> (48 <= ord c <= 57)%nat.
Proof.
  unfold is_digit. rewrite andb_true_iff, !Nat.leb_le. reflexivity.
Qed.

Lemma eqb_ord (c d : ascii) : ord c <> ord d -> Ascii.eqb c d = false.
Proof.
  intros H. destruct (Ascii.eqb_spec c d) as [-> |]; [congruence | reflexivity].
Qed.

Lemma not_true_false (b : bool) : (b = true -> False) -> b = false.
Proof. destruct b; [intros H; exfalso; auto | reflexivity]. Qed.

(** A coordinate as [address] and [coordinate] write it reads back, up to
    the end of the text or a colon. *)
Lemma parse_a1_written (ac ar : bool) (col row : nat) (rest : list ascii) :
  col <> O ->
  (forall c r, rest = c :: r -> c = ":"%char) ->
  parse_a1 (dollar ac ++ column_letters col [] ++ dollar ar
            ++ decimal_digits row [] ++ rest)
  = Some (Z.of_nat col, Z.of_nat row, rest).
Proof.
  intros Hcol Hrest.
  destruct (column_letters_spec col) as (Hl & Hlne & Hlv).
  destruct (decimal_digits_spec row) as (Hd & Hdne & Hdv).
  specialize (Hlne Hcol).
  set (L := column_letters col []) in *.
  set (D := decimal_digits row []) in *.
  assert (Hrest_digit : forall c r, (D ++ rest)%list = c :: r ->
                                    is_digit c = true).
  { intros c r Hc. destruct D as [|d D']; [congruence|].
    cbn in Hc. injection Hc as <- _. apply (Forall_inv Hd). }
  assert (Hs1 : strip_dollar (dollar ac ++ L ++ dollar ar ++ D ++ rest)
                = (L ++ dollar ar ++ D ++ rest)%list).
  { destruct ac; cbn [dollar app]; [reflexivity|].
    destruct L as [|l L']; [congruence|]. cbn.
    rewrite eqb_ord; [reflexivity|].
    pose proof (proj1 (is_letter_ord l) (Forall_inv Hl)). cbn. lia. }
  assert (Hs2 : strip_dollar (dollar ar ++ D ++ rest) = (D ++ rest)%list).
  { destruct ar; cbn [dollar app]; [reflexivity|].
    destruct D as [|d D']; [congruence|]. cbn.
    rewrite eqb_ord; [reflexivity|].
    pose proof (proj1 (is_digit_ord d) (Forall_inv Hd)). cbn. lia. }
  unfold parse_a1. rewrite Hs1.
  rewrite (span_app is_letter L (dollar ar ++ D ++ rest) Hl).
  2:{ intros c r Hc. apply not_true_false. intros Hletter.
      apply is_letter_ord in Hletter.
      destruct ar; cbn [dollar app] in Hc.
      - injection Hc as <- _. cbn in Hletter. lia.
      - pose proof (proj1 (is_digit_ord c) (Hrest_digit c r Hc)). lia. }
  rewrite Hs2.
  rewrite (span_app is_digit D rest Hd).
  2:{ intros c r Hc. rewrite (Hrest c r Hc). reflexivity. }
  destruct L as [|l L']; [congruence|].
  destruct D as [|d D']; [congruence|].
  rewrite Hlv, Hdv. reflexivity.
Qed.

Lemma split_bang_none (s : list ascii) :
  Forall (fun c => Ascii.eqb c "!" = false) s -> split_bang s = None.
Proof.
  induction 1 as [|c s Hc Hall IH]; [reflexivity|].
  cbn. rewrite Hc, IH. reflexivity.
Qed.

(** No character of a written coordinate is an exclamation mark. *)
Lemma written_no_bang (ac ar : bool) (col row : nat) :
  Forall (fun c => Ascii.eqb c "!" = false)
    (dollar ac ++ column_letters col [] ++ dollar ar ++ decimal_digits row []).
Proof.
  destruct (column_letters_spec col) as (Hl & _ & _).
  destruct (decimal_digits_spec row) as (Hd & _ & _).
  assert (Hdollar : forall f, Forall (fun c => Ascii.eqb c "!" = false)
                                     (dollar f)).
  { intros [|]; repeat constructor. }
  repeat (apply Forall_app; split); try apply Hdollar.
  - eapply Forall_impl; [|exact Hl]. intros c Hc. cbn beta in Hc.
    apply eqb_ord. apply is_letter_ord in Hc. cbn. lia.
  - eapply Forall_impl; [|exact Hd]. intros c Hc. cbn beta in Hc.
    apply eqb_ord. apply is_digit_ord in Hc. cbn. lia.
Qed.

Lemma str_int_nonneg (n : Z) :
  0 <= n -> str_int n = decimal_digits (Z.to_nat n) [].
Proof.
  intros H. unfold str_int.
  destruct (Z.ltb_spec n 0); [lia | reflexivity].
Qed.

Lemma get_column_letter_in_range (col : Z) :
  1 <= col <= 18278 ->
  get_column_letter col = Ret (column_letters (Z.to_nat col) []).
Proof.
  intros H. unfold get_column_letter.
  destruct (Z.leb_spec 1 col); [|lia].
  destruct (Z.leb_spec col 18278); [reflexivity | lia].
Qed.

(** Reading back the text of a point. *)
Lemma create_written_point (ac ar : bool) (col row : Z) :
  1 <= col -> 0 <= row ->
  AddressRange_create
    (string_of_list_ascii
       (dollar ac ++ column_letters (Z.to_nat col) [] ++ dollar ar
        ++ str_int row))
  = Ret (Cell EmptyString col row).
Proof.
  intros Hcol Hrow. unfold AddressRange_create.
  rewrite list_ascii_of_string_of_list_ascii, str_int_nonneg by assumption.
  rewrite split_bang_none by apply written_no_bang.
  unfold parse_span.
  pose proof (parse_a1_written ac ar (Z.to_nat col) (Z.to_nat row) []
                ltac:(lia) ltac:(discriminate)) as Hp.
  rewrite !app_nil_r in Hp. rewrite Hp.
  rewrite !Z2Nat.id by lia. reflexivity.
Qed.

(** Reading back the text of a span of two in-range corners. *)
Lemma create_written_span {A : Type} (col row ecol erow : Z)
    (k : address_ref -> py A) :
  1 <= col <= 18278 -> 0 <= row -> 1 <= ecol <= 18278 -> 0 <= erow ->
  (tl <- coordinate col row ;;
   br <- coordinate ecol erow ;;
   a <- AddressRange_create (string_of_list_ascii (tl ++ ":"%char :: br)) ;;
   k a)
  = k (Range EmptyString col row ecol erow).
Proof.
  intros Hcol Hrow Hecol Herow. unfold coordinate.
  rewrite !get_column_letter_in_range by assumption. cbn [bind].
  unfold AddressRange_create.
  rewrite list_ascii_of_string_of_list_ascii, !str_int_nonneg by assumption.
  pose proof (written_no_bang false false (Z.to_nat col) (Z.to_nat row)) as H1.
  pose proof (written_no_bang false false (Z.to_nat ecol) (Z.to_nat erow)) as H2.
  cbn [dollar app] in H1, H2.
  rewrite split_bang_none.
  2:{ apply Forall_app. split; [assumption|].
      constructor; [reflexivity | assumption]. }
  unfold parse_span.
  pose proof (parse_a1_written false false (Z.to_nat col) (Z.to_nat row)
                (":"%char :: column_letters (Z.to_nat ecol) []
                 ++ decimal_digits (Z.to_nat erow) [])
                ltac:(lia)) as Hp1.
  cbn [dollar app] in Hp1. rewrite <- app_assoc. rewrite Hp1.
  2:{ intros c r Hc. injection Hc as <- _. reflexivity. }
  cbn [Ascii.eqb].
  pose proof (parse_a1_written false false (Z.to_nat ecol) (Z.to_nat erow) []
                ltac:(lia) ltac:(discriminate)) as Hp2.
  cbn [dollar app] in Hp2. rewrite !app_nil_r in Hp2.
  change (Ascii.eqb ":" ":") with true. cbn iota. rewrite Hp2.
  rewrite !Z2Nat.id by lia. reflexivity.
Qed.

(* ===================================================================== *)
(** ** [address], [indirect] and [offset] *)
(* ===================================================================== *)

Lemma string_append_assoc (a b c : string) :
  ((a ++ b) ++ c = a ++ (b ++ c))%string.
Proof.
  induction a as [|x a IH]; cbn; [reflexivity|]. rewrite IH. reflexivity.
Qed.

(** C7.  [address] writes [$A$1] for row 1, column 1 with both parts
    absolute, [A1] with both relative, and [R2C3] for row 2, column 3 in
    the R1C1 style; the relative parts of the R1C1 style stand in
    brackets; and a sheet text that is not empty goes in front, in quotes
    and followed by an exclamation mark. *)
Theorem address_formats :
  address 1 1 1 None "" = Ret "$A$1"%string /\
  address 1 1 4 None "" = Ret "A1"%string /\
  address 2 3 1 (Some 0) "" = Ret "R2C3"%string /\
  address 2 3 4 (Some 0) "" = Ret "R[2]C[3]"%string /\
  address 2 3 2 None "" = Ret "C$2"%string /\
  address 2 3 3 None "" = Ret "$C2"%string /\
  forall row col abs_num style sheet,
    sheet <> EmptyString ->
    address row col abs_num style sheet
    = (text <- address row col abs_num style "" ;;
       Ret ("'" ++ sheet ++ "'!" ++ text)%string).
Proof.
  repeat (split; [reflexivity|]).
  intros row col abs_num style sheet Hsheet. unfold address.
  destruct sheet as [|c sheet]; [congruence|].
  destruct (style_is_zero style).
  - cbn [bind]. rewrite !string_append_assoc. reflexivity.
  - destruct (get_column_letter col); [|reflexivity].
    cbn [bind]. rewrite !string_append_assoc. reflexivity.
Qed.

Lemma address_formats_witness :
  address 7 28 2 None "Data" = Ret "'Data'!AB$7"%string.
Proof.
  destruct address_formats as (_ & _ & _ & _ & _ & _ & Hsheet).
  rewrite Hsheet by discriminate. reflexivity.
Defined.

(** C5.  For every point on the grid and every [abs_num], the text that
    [address] writes in the A1 style, without a sheet, is read back by
    [indirect] as that point. *)
Theorem address_indirect_roundtrip (row col abs_num : Z) (style : option Z)
    (a1 : bool) :
  1 <= col <= MAX_COL -> 1 <= row <= MAX_ROW ->
  style_is_zero style = false ->
  (text <- address row col abs_num style "" ;; indirect text a1 "")
  = Ret (Ref (Cell "" col row)).
Proof.
  unfold MAX_COL, MAX_ROW. intros Hcol Hrow Hstyle.
  unfold address. rewrite Hstyle.
  rewrite get_column_letter_in_range by lia. cbn [bind append].
  unfold indirect.
  rewrite create_written_point by lia.
  cbn [addr_row addr_col_idx has_sheet addr_sheet negb with_sheet].
  unfold MAX_COL, MAX_ROW.
  destruct (Z.gtb_spec row 1048576); [lia|].
  destruct (Z.gtb_spec col 16384); [lia|].
  reflexivity.
Qed.

Lemma address_indirect_roundtrip_witness :
  (text <- address 1048576 16384 3 None "" ;; indirect text true "")
  = Ret (Ref (Cell "" 16384 1048576)).
Proof.
  apply address_indirect_roundtrip;
    unfold MAX_COL, MAX_ROW; try lia; reflexivity.
Defined.

Lemma with_sheet_unset (a : address_ref) (sheet : string) :
  addr_sheet a = EmptyString ->
  with_sheet a sheet
  = match a with
    | Cell _ c r => Cell sheet c r
    | Range _ c r ec er => Range sheet c r ec er
    end.
Proof.
  intros H. unfold with_sheet, has_sheet. rewrite H. reflexivity.
Qed.




(* ===================================================================== *)
(** ** More on the match engine *)
(* ===================================================================== *)

Section MatchEngineFacts.

Context {cmp : ExcelCmp}.

(** A linear scan whose closure leaves [result] alone or stores the index
    in it ends with the initial [result] or with an index it went over. *)
Lemma match_scan_range
    (compare : nat -> value -> value -> bool * value) (t : value) :
  (forall idx v res,
     snd (compare idx v res) = res \/
     snd (compare idx v res) = VNum (Z.of_nat idx)) ->
  forall a i d,
    match_scan compare t a i d = d \/
    exists j, (i <= j < i + length a)%nat /\
              match_scan compare t a i d = VNum (Z.of_nat j).
Proof.
  intros Hrec a. induction a as [|v a IH]; intros i d; [left; reflexivity|].
  cbn [match_scan length].
  assert (Hnext : forall d',
            (d' = d \/ d' = VNum (Z.of_nat i)) ->
            match_scan compare t a (S i) d' = d \/
            exists j, (i <= j < i + S (length a))%nat /\
                      match_scan compare t a (S i) d' = VNum (Z.of_nat j)).
  { intros d' Hd'. destruct (IH (S i) d') as [-> | (j & Hj & ->)].
    - destruct Hd' as [-> | ->]; [left; reflexivity|].
      right. exists i. split; [lia | reflexivity].
    - right. exists j. split; [lia | reflexivity]. }
  destruct (in_ERROR_CODES v); [apply Hnext; left; reflexivity|].
  destruct (cmp_type v =? cmp_type t); [|apply Hnext; left; reflexivity].
  specialize (Hrec i v d). destruct (compare i v d) as [stop d'].
  cbn [snd] in Hrec. destruct stop; [|apply Hnext; assumption].
  destruct Hrec as [-> | ->]; [left; reflexivity|].
  right. exists i. split; [lia | reflexivity].
Qed.

Lemma match_result_in_range (t : value) (a : list value) (match_type : Z) :
  exists v, _match t a match_type = Ret v /\
    (v = VErr NA_ERROR \/
     exists i, v = VNum (Z.of_nat i) /\ (1 <= i <= length a)%nat).
Proof.
  unfold _match. destruct (match_type =? 1).
  - rewrite match_ascending_located.
    destruct (located_total t a) as (r & -> & Hlen & Hcls). cbn [bind].
    destruct r as [|k]; [eexists; split; [reflexivity | left; reflexivity]|].
    destruct (Hcls k eq_refl) as (v & Hv & _).
    unfold getitem. rewrite Hv. cbn [bind].
    destruct (is_None v); eexists; (split; [reflexivity|]);
      [left; reflexivity | right; exists (S k); split; [reflexivity | lia]].
  - eexists. split; [reflexivity|].
    match goal with |- match_scan ?c _ _ _ _ = _ \/ _ =>
      destruct (match_scan_range c t) with (a := a) (i := 1%nat)
                                           (d := VErr NA_ERROR)
        as [-> | (j & Hj & ->)]
    end.
    + intros idx v res.
      destruct (match_type =? 0);
        [destruct (cmp_type t =? 1);
           [destruct (build_wildcard_re t)|]|];
        unfold compare_wildcard, compare_exact, compare_descending;
        repeat match goal with |- context [if ?b then _ else _] =>
                 destruct b end;
        cbn [snd]; auto.
    + left. reflexivity.
    + right. exists j. split; [reflexivity | lia].
Qed.

(** X1.  In each of its three modes [_match] returns without raising, and
    what it returns is the not-found error or a position between 1 and
    the length of the sequence. *)
Theorem match_result_range (t : value) (a : list value) (match_type : Z) :
  exists v, _match t a match_type = Ret v /\
    (v = VErr NA_ERROR \/
     exists i, v = VNum (Z.of_nat i) /\ (1 <= i <= length a)%nat).
Proof. apply match_result_in_range. Qed.

(** A scan that stops at the first element passing a test. *)
Lemma match_scan_first (p : value -> bool) (t : value) (a : list value) :
  let hit := fun v =>
    negb (in_ERROR_CODES v) && (cmp_type v =? cmp_type t) && p v in
  let compare := fun (idx : nat) (val result : value) =>
    if p val then (true, VNum (Z.of_nat idx)) else (false, result) in
  forall i d,
    (Forall (fun v => hit v = false) a /\ match_scan compare t a i d = d) \/
    (exists k v,
       nth_error a k = Some v /\ hit v = true /\
       (forall j w, (j < k)%nat -> nth_error a j = Some w -> hit w = false) /\
       match_scan compare t a i d = VNum (Z.of_nat (i + k))).
Proof.
  intros hit compare. induction a as [|v a IH]; intros i d.
  { left. split; [constructor | reflexivity]. }
  cbn [match_scan].
  assert (Hskip : hit v = false ->
    (Forall (fun v => hit v = false) (v :: a) /\
     match_scan compare t a (S i) d = d) \/
    (exists k w,
       nth_error (v :: a) k = Some w /\ hit w = true /\
       (forall j u, (j < k)%nat -> nth_error (v :: a) j = Some u ->
                    hit u = false) /\
       match_scan compare t a (S i) d = VNum (Z.of_nat (i + k)))).
  { intros Hv. destruct (IH (S i) d) as [(Hall & ->) | (k & w & Hk & Hw & Hb & ->)].
    - left. split; [constructor; assumption | reflexivity].
    - right. exists (S k), w. repeat split; try assumption.
      + intros [|j] u Hj Hu; cbn in Hu.
        * injection Hu as <-. assumption.
        * apply (Hb j); [lia | assumption].
      + f_equal. lia. }
  destruct (in_ERROR_CODES v) eqn:Ee.
  { apply Hskip. unfold hit. rewrite Ee. reflexivity. }
  destruct (cmp_type v =? cmp_type t) eqn:Ec.
  2:{ apply Hskip. unfold hit. rewrite Ee, Ec. reflexivity. }
  destruct (p v) eqn:Ep.
  2:{ assert (Hc : compare i v d = (false, d))
        by (unfold compare; rewrite Ep; reflexivity).
      rewrite Hc. apply Hskip. unfold hit. rewrite Ee, Ec, Ep. reflexivity. }
  assert (Hc : compare i v d = (true, VNum (Z.of_nat i)))
    by (unfold compare; rewrite Ep; reflexivity).
  rewrite Hc.
  right. exists O, v. repeat split.
  - unfold hit. rewrite Ee, Ec, Ep. reflexivity.
  - intros j w Hj. lia.
  - rewrite Nat.add_0_r. reflexivity.
Qed.

(** X2.  In exact mode [_match] answers the position of the first element
    that is no error sentinel, is in the target's comparison class and
    passes the test (equality, or the wildcard pattern of a text target);
    it answers not-found exactly when no element does. *)
Theorem match_exact_first_hit (t : value) (a : list value) :
  (Forall (fun v => exact_hit t v = false) a /\
   _match t a 0 = Ret (VErr NA_ERROR)) \/
  (exists k v,
     nth_error a k = Some v /\ exact_hit t v = true /\
     (forall j w, (j < k)%nat -> nth_error a j = Some w ->
                  exact_hit t w = false) /\
     _match t a 0 = Ret (VNum (Z.of_nat (S k)))).
Proof.
  assert (Hcmp : _match t a 0
    = Ret (match_scan
             (fun idx val result =>
                if exact_test t val then (true, VNum (Z.of_nat idx))
                else (false, result))
             t a 1 (VErr NA_ERROR))).
  { unfold _match, exact_test. cbn [Z.eqb].
    destruct (cmp_type t =? 1); [destruct (build_wildcard_re t)|];
      reflexivity. }
  rewrite Hcmp.
  destruct (match_scan_first (exact_test t) t a 1 (VErr NA_ERROR))
    as [(Hall & ->) | (k & v & Hk & Hv & Hb & ->)].
  - left. split; [exact Hall | reflexivity].
  - right. exists k, v. repeat split; assumption.
Qed.

(** X3.  In ascending mode, where the sequence is leading absence markers,
    a run of elements all above the target, and trailing absence markers,
    [_match] answers not-found. *)
Theorem match_ascending_below_all (t : value) (n m : nat)
    (core : list value) :
  Forall (fun v => v <> VNone /\ cmp_lt t v = true) core ->
  _match t (repeat VNone n ++ core ++ repeat VNone m) 1
  = Ret (VErr NA_ERROR).
Proof.
  intros Hcore. set (a := (repeat VNone n ++ core ++ repeat VNone m)%list).
  rewrite Forall_forall in Hcore.
  assert (Hlen : length a = (n + length core + m)%nat).
  { unfold a. rewrite !length_app, !repeat_length. lia. }
  assert (Hpre : forall i, (i < n)%nat -> nth_error a i = Some VNone).
  { intros i Hi. unfold a.
    rewrite nth_error_app1 by (rewrite repeat_length; lia).
    apply nth_error_repeat. assumption. }
  assert (Hpost : forall i, (n + length core <= i < length a)%nat ->
                            nth_error a i = Some VNone).
  { intros i Hi. unfold a.
    rewrite nth_error_app2; rewrite repeat_length; [|lia].
    rewrite nth_error_app2 by lia.
    apply nth_error_repeat. lia. }
  assert (Hmid : forall i v, (n <= i < n + length core)%nat ->
                   nth_error a i = Some v -> v <> VNone /\ cmp_lt t v = true).
  { intros i v Hi Hv. unfold a in Hv.
    rewrite window_nth_error in Hv by assumption.
    apply Hcore. eapply nth_error_In. eassumption. }
  (* every element before the result of the binary search is a marker *)
  assert (Hbis : exists r0, bisect_right a t (scan_lo a 0)
                              (scan_hi a (length a)) = Ret r0 /\
                            (r0 <= length a)%nat /\
                            forall i, (i < r0)%nat ->
                                      nth_error a i = Some VNone).
  { destruct (scan_lo_spec a 0) as (_ & Hlo_none & Hlo_stop & Hlo_len).
    destruct (scan_hi_spec a (length a)) as (Hhi_le & Hhi_none & Hhi_stop).
    destruct (bisect_right_total a t (scan_lo a 0) (scan_hi a (length a))
                Hhi_le) as (r0 & Hr0 & Hge & Hle).
    exists r0. split; [assumption|]. split; [lia|].
    assert (Hlo_n : (scan_lo a 0 < n + length core)%nat ->
                    (n <= scan_lo a 0)%nat).
    { intros Hlt. destruct (Nat.lt_ge_cases (scan_lo a 0) n) as [Hc|]; [|lia].
      exfalso. apply Hlo_stop. apply Hpre. assumption. }
    destruct (Nat.le_gt_cases (scan_hi a (length a)) (scan_lo a 0))
      as [Hempty | Hwin].
    - (* empty window: the search returns [lo] *)
      destruct (bisect_right_partition a t (scan_lo a 0)
                  (scan_hi a (length a)) r0) as (Hleft & _);
        [intros; lia | assumption |].
      assert (r0 = scan_lo a 0) as ->.
      { destruct (Nat.eq_dec r0 (scan_lo a 0)) as [|Hne]; [assumption|].
        exfalso.
        (* an element left of [r0] at [lo], not above the target *)
        destruct (nth_error a (scan_lo a 0)) as [v|] eqn:Ev.
        - specialize (Hleft (scan_lo a 0) v ltac:(lia) Ev).
          assert (Hin : (scan_lo a 0 < length a)%nat)
            by (apply nth_error_Some; congruence).
          destruct (Nat.lt_ge_cases (scan_lo a 0) (n + length core)).
          + destruct (Hmid (scan_lo a 0) v ltac:(lia) Ev). congruence.
          + apply Hlo_stop. rewrite <- Ev. symmetry. rewrite Ev.
            rewrite <- (Hpost (scan_lo a 0) ltac:(lia)). assumption.
        - apply nth_error_None in Ev. lia. }
      intros i Hi. apply Hlo_none. lia.
    - (* a window: it lies in the run, where everything is above *)
      assert (Hhi_n : (scan_hi a (length a) <= n + length core)%nat).
      { destruct (scan_hi a (length a)) as [|h] eqn:Eh; [lia|].
        destruct (Nat.le_gt_cases (S h) (n + length core)); [assumption|].
        exfalso. apply (Hhi_stop h eq_refl). apply Hpost. lia. }
      destruct (bisect_right_partition a t (scan_lo a 0)
                  (scan_hi a (length a)) r0) as (Hleft & _);
        [|assumption|].
      { intros i j vi vj Hi Hij Hj Hvi Hvj _.
        apply (Hmid j vj); [lia | assumption]. }
      assert (r0 = scan_lo a 0) as ->.
      { destruct (Nat.eq_dec r0 (scan_lo a 0)) as [|Hne]; [assumption|].
        exfalso.
        destruct (nth_error a (scan_lo a 0)) as [v|] eqn:Ev;
          [|apply nth_error_None in Ev; lia].
        specialize (Hleft (scan_lo a 0) v ltac:(lia) Ev).
        destruct (Hmid (scan_lo a 0) v ltac:(lia) Ev). congruence. }
      intros i Hi. apply Hlo_none. lia. }
  destruct Hbis as (r0 & Hr0 & Hr0len & Hnone).
  rewrite match_type_ascending. unfold match_ascending. rewrite Hr0.
  cbn [bind].
  destruct (walk_back_total t a r0 Hr0len) as (r & -> & Hle & _).
  cbn [bind]. destruct r as [|k]; [reflexivity|].
  unfold getitem. rewrite (Hnone k) by lia. reflexivity.
Qed.

End MatchEngineFacts.

(* ===================================================================== *)
(** ** Indexing inside the bounds *)
(* ===================================================================== *)

Lemma getitemZ_nonneg {A : Type} (l : list A) (i : Z) :
  0 <= i -> getitemZ l i = getitem l (Z.to_nat i).
Proof.
  intros Hi. unfold getitemZ.
  destruct (Z.ltb_spec i 0); [lia | reflexivity].
Qed.

Lemma getitem_Some {A : Type} (l : list A) (i : nat) (x : A) :
  nth_error l i = Some x -> getitem l i = Ret x.
Proof. intros H. unfold getitem. rewrite H. reflexivity. Qed.

Lemma getitem_in_bounds {A : Type} (l : list A) (i : nat) :
  (i < length l)%nat -> exists x, nth_error l i = Some x /\ getitem l i = Ret x.
Proof.
  intros Hi. destruct (nth_error l i) as [x|] eqn:E.
  - exists x. split; [reflexivity | apply getitem_Some; assumption].
  - apply nth_error_None in E. lia.
Qed.

Lemma getitem_out_of_bounds {A : Type} (l : list A) (i : nat) :
  (length l <= i)%nat -> getitem l i = Raise IndexError.
Proof.
  intros Hi. unfold getitem.
  rewrite (proj2 (nth_error_None l i) Hi). reflexivity.
Qed.

(** The cell in row [i] and column [k] (from 1) of an array whose rows are
    [w] wide. *)
Lemma array_data_in_bounds (table : list (list value)) (w i : nat) (k : Z) :
  Forall (fun r => length r = w) table ->
  (1 <= i <= length table)%nat -> 1 <= k <= Z.of_nat w ->
  exists r v,
    nth_error table (i - 1) = Some r /\
    nth_error r (Z.to_nat (k - 1)) = Some v /\
    array_data table (Z.of_nat i - 1) (k - 1) = Ret v.
Proof.
  intros Hall Hi Hk.
  destruct (getitem_in_bounds table (i - 1) ltac:(lia)) as (r & Hr & Hgr).
  assert (Hlen : length r = w).
  { rewrite Forall_forall in Hall. apply Hall.
    eapply nth_error_In. eassumption. }
  destruct (getitem_in_bounds r (Z.to_nat (k - 1)) ltac:(lia))
    as (v & Hv & Hgv).
  exists r, v. repeat split; try assumption.
  unfold array_data. rewrite getitemZ_nonneg by lia.
  replace (Z.to_nat (Z.of_nat i - 1)) with (i - 1)%nat by lia.
  rewrite Hgr. cbn [bind]. rewrite getitemZ_nonneg by lia. assumption.
Qed.

Lemma comprehension_as_column {A : Type} (l : list A) :
  comprehension (fun r => getitem r 0) (as_column l) = Ret l.
Proof.
  induction l as [|x l IH]; [reflexivity|].
  cbn. unfold as_column in IH. rewrite IH. reflexivity.
Qed.

(* ===================================================================== *)
(** ** More on the lookup functions *)
(* ===================================================================== *)

Section MoreLookupFacts.

Context {cmp : ExcelCmp}.

(** X4.  [match] finds the same position in a vector laid out as one row
    and laid out as one column: either way it searches the cells of the
    vector with [_match]. *)
Theorem match_orientation (t : value) (l : list value) (match_type : Z) :
  match_ t (Array [l]) match_type = _match t l match_type /\
  match_ t (Array (as_column l)) match_type = _match t l match_type.
Proof.
  split; unfold match_; cbn [rows_of bind].
  - reflexivity.
  - destruct l as [|x [|y l]]; try reflexivity.
    change (length (as_column (x :: y :: l)) =? 1)%nat with
      (S (length (as_column (y :: l))) =? 1)%nat.
    cbn [as_column map length Nat.eqb].
    change ([x] :: [y] :: map (fun x0 => [x0]) l)
      with (as_column (x :: y :: l)).
    rewrite comprehension_as_column. reflexivity.
Qed.

Lemma match_block (t : value) (table : list (list value)) (w : nat)
    (match_type : Z) :
  Forall (fun r => length r = w) table -> (1 <= w)%nat ->
  (2 <= length table)%nat ->
  match_ t (Array table) match_type
  = _match t (first_column table) match_type.
Proof.
  intros Hall Hw Hh. unfold match_. cbn [rows_of bind].
  destruct (Nat.eqb_spec (length table) 1); [lia|].
  rewrite (comprehension_first table w Hall Hw). reflexivity.
Qed.

(** X5.  On a rectangular table of two or more rows and a column index
    inside the table, [vlookup] is [index] at the row [match] finds:
    VLOOKUP(t, table, k) = INDEX(table, MATCH(t, table), k). *)
Theorem vlookup_index_match (t : value) (table : list (list value))
    (w : nat) (k : Z) (range_lookup : bool) :
  rectangular table w -> (2 <= length table)%nat -> 1 <= k <= Z.of_nat w ->
  (v <- vlookup t (Array table) k range_lookup ;; Ret (Scalar v))
  = (m <- match_ t (Array table) (match_type_of_bool range_lookup) ;;
     match m with
     | VNum i => index (Array table) (Some i) (Some k)
     | _ => Ret (Scalar m)
     end).
Proof.
  intros (Hne & Hall) Hh Hk.
  rewrite (match_block t table w _ Hall ltac:(lia) Hh).
  unfold vlookup. cbn [list_like negb rows_of bind].
  destruct (Z.leb_spec k 0); [lia|].
  destruct table as [|row0 rest] eqn:Et; [congruence|]. rewrite <- Et in *.
  assert (Hget0 : getitem table 0 = Ret row0) by (rewrite Et; reflexivity).
  assert (Hlen0 : length row0 = w).
  { rewrite Et in Hall. apply (Forall_inv Hall). }
  rewrite Hget0. cbn [bind]. rewrite Hlen0.
  destruct (Z.gtb_spec k (Z.of_nat w)); [lia|].
  rewrite (comprehension_first table w Hall ltac:(lia)). cbn [bind].
  destruct (match_result_in_range t (first_column table)
              (match_type_of_bool range_lookup))
    as (m & -> & [-> | (i & -> & Hi)]); cbn [bind]; [reflexivity|].
  unfold first_column in Hi. rewrite length_map in Hi.
  destruct (array_data_in_bounds table w i k Hall Hi Hk)
    as (r & v & Hr & Hv & Hdata).
  unfold index. cbn [list_like negb rows_of bind].
  rewrite Hget0. cbn [bind].
  destruct (getitem_in_bounds row0 0 ltac:(lia)) as (x0 & _ & ->).
  cbn [bind given number].
  destruct (Z.eqb_spec (Z.of_nat i) 0); [lia|].
  destruct (Z.eqb_spec k 0); [lia|]. cbn [negb andb].
  destruct (Z.ltb_spec (Z.of_nat i) 0); [lia|].
  destruct (Z.ltb_spec k 0); [lia|]. cbn [orb].
  rewrite Hdata. cbn [bind except_IndexError].
  unfold array_data in Hdata. rewrite Hdata. reflexivity.
Qed.

(** X6.  On a rectangular table with at least one column [vlookup] never
    raises; for a column index inside the table it answers not-found or
    the cell, in that column, of the row at the position [_match] finds
    in the first column. *)
Theorem vlookup_returns (t : value) (table : list (list value)) (w : nat)
    (k : Z) (range_lookup : bool) :
  rectangular table w -> (1 <= w)%nat ->
  exists v,
    vlookup t (Array table) k range_lookup = Ret v /\
    (1 <= k <= Z.of_nat w ->
     v = VErr NA_ERROR \/
     exists i r,
       _match t (first_column table) (match_type_of_bool range_lookup)
       = Ret (VNum (Z.of_nat (S i))) /\
       nth_error table i = Some r /\
       nth_error r (Z.to_nat (k - 1)) = Some v).
Proof.
  intros (Hne & Hall) Hw.
  unfold vlookup. cbn [list_like negb rows_of bind].
  destruct (Z.leb_spec k 0).
  { eexists. split; [reflexivity | lia]. }
  destruct table as [|row0 rest] eqn:Et; [congruence|]. rewrite <- Et in *.
  assert (Hget0 : getitem table 0 = Ret row0) by (rewrite Et; reflexivity).
  assert (Hlen0 : length row0 = w).
  { rewrite Et in Hall. apply (Forall_inv Hall). }
  rewrite Hget0. cbn [bind]. rewrite Hlen0.
  destruct (Z.gtb_spec k (Z.of_nat w)).
  { eexists. split; [reflexivity | lia]. }
  rewrite (comprehension_first table w Hall Hw). cbn [bind].
  destruct (match_result_in_range t (first_column table)
              (match_type_of_bool range_lookup))
    as (m & Hm & [-> | (i & -> & Hi)]); rewrite Hm; cbn [bind].
  { eexists. split; [reflexivity | left; reflexivity]. }
  unfold first_column in Hi. rewrite length_map in Hi.
  destruct (array_data_in_bounds table w i k Hall Hi ltac:(lia))
    as (r & v & Hr & Hv & Hdata).
  unfold array_data in Hdata. rewrite Hdata.
  exists v. split; [reflexivity|]. intros _. right.
  exists (i - 1)%nat, r. repeat split; try assumption.
  do 3 f_equal. lia.
Qed.

(** X7.  [hlookup] answers the invalid-value error for a row index below 1
    and the invalid-reference error for a row index beyond the number of
    rows, for every array, the empty one included; on the empty array
    [vlookup] raises [IndexError] for a column index from 1 on. *)
Theorem hlookup_index_checks (t : value) (table : list (list value))
    (k : Z) (range_lookup : bool) :
  (k < 1 ->
   hlookup t (Array table) k range_lookup = Ret (VErr VALUE_ERROR)) /\
  (Z.of_nat (length table) < k ->
   hlookup t (Array table) k range_lookup = Ret (VErr REF_ERROR)) /\
  (1 <= k -> vlookup t (Array []) k range_lookup = Raise IndexError).
Proof.
  unfold hlookup, vlookup. cbn [list_like negb rows_of bind].
  repeat split; intros Hk.
  - destruct (Z.leb_spec k 0); [reflexivity | lia].
  - destruct (Z.leb_spec k 0); [lia|].
    destruct (Z.gtb_spec k (Z.of_nat (length table))); [reflexivity | lia].
  - destruct (Z.leb_spec k 0); [lia | reflexivity].
Qed.

End MoreLookupFacts.

(* ===================================================================== *)
(** ** Columns of a rectangular array *)
(* ===================================================================== *)

Lemma zip_cons_nth_error {A : Type} (r : list A) : forall cols i,
  nth_error (zip_cons r cols) i
  = match nth_error r i, nth_error cols i with
    | Some x, Some c => Some (x :: c)
    | _, _ => None
    end.
Proof.
  induction r as [|x r IH]; intros [|c cols] [|i]; cbn; try reflexivity.
  - destruct (nth_error r i); reflexivity.
  - apply IH.
Qed.

(** The columns of an array whose rows are [w] wide: column [i] holds cell
    [i] of every row, and there are [w] columns. *)
Lemma zip_star_nth_error {A : Type} (d : A) (rows : list (list A)) (w : nat) :
  rows <> [] -> Forall (fun r => length r = w) rows ->
  forall i,
    nth_error (zip_star rows) i
    = if (i <? w)%nat then Some (map (fun r => nth i r d) rows) else None.
Proof.
  intros Hne Hall. induction Hall as [|r rest Hr Hall IH]; [congruence|].
  intros i. cbn [zip_star]. destruct rest as [|r2 rest].
  - rewrite nth_error_map. destruct (Nat.ltb_spec i w) as [Hi | Hi].
    + rewrite (nth_error_nth' r d) by lia. reflexivity.
    + rewrite (proj2 (nth_error_None r i)) by lia. reflexivity.
  - rewrite zip_cons_nth_error, IH by discriminate.
    destruct (Nat.ltb_spec i w) as [Hi | Hi].
    + rewrite (nth_error_nth' r d) by lia. reflexivity.
    + rewrite (proj2 (nth_error_None r i)) by lia. reflexivity.
Qed.

Lemma zip_star_length {A : Type} (rows : list (list A)) (w : nat) :
  rows <> [] -> Forall (fun r => length r = w) rows ->
  length (zip_star rows) = w.
Proof.
  intros Hne Hall.
  destruct (Nat.lt_trichotomy (length (zip_star rows)) w) as [H | [H | H]];
    [|assumption|].
  - destruct rows as [|r rest]; [congruence|].
    exfalso.
    assert (nth_error (zip_star (r :: rest)) (length (zip_star (r :: rest)))
            = None) as Hnone by (apply nth_error_None; lia).
    destruct r as [|x r]; [apply Forall_inv in Hall; cbn in Hall; lia|].
    rewrite (zip_star_nth_error x _ w Hne Hall) in Hnone.
    destruct (Nat.ltb_spec (length (zip_star ((x :: r) :: rest))) w);
      [discriminate | lia].
  - exfalso.
    destruct (nth_error (zip_star rows) w) as [c|] eqn:E;
      [|apply nth_error_None in E; lia].
    destruct rows as [|r rest]; [congruence|].
    destruct r as [|x r].
    + apply Forall_inv in Hall. cbn in Hall. subst w.
      destruct rest; cbn in H; lia.
    + rewrite (zip_star_nth_error x _ w Hne Hall) in E.
      rewrite Nat.ltb_irrefl in E. discriminate.
Qed.

Lemma zip_star_rows {A : Type} (d : A) (rows : list (list A)) (w : nat) :
  rows <> [] -> Forall (fun r => length r = w) rows ->
  Forall (fun c => length c = length rows) (zip_star rows).
Proof.
  intros Hne Hall. apply Forall_forall. intros c Hc.
  apply In_nth_error in Hc as (i & Hi).
  rewrite (zip_star_nth_error d rows w Hne Hall) in Hi.
  destruct (i <? w)%nat; [|discriminate].
  cbv beta iota in Hi. injection Hi as <-. apply length_map.
Qed.

Lemma zip_star_first_column (row0 : list value) (rest : list (list value))
    (w : nat) :
  Forall (fun r => length r = w) (row0 :: rest) ->
  first_column (zip_star (row0 :: rest)) = row0.
Proof.
  intros Hall. apply nth_error_ext. intros i.
  unfold first_column. rewrite nth_error_map.
  assert (Hne : row0 :: rest <> []) by discriminate.
  rewrite (zip_star_nth_error VNone _ w Hne Hall).
  pose proof (Forall_inv Hall) as Hlen. cbn beta in Hlen.
  destruct (Nat.ltb_spec i w) as [Hi | Hi]; cbn.
  - rewrite (nth_error_nth' row0 VNone) by lia. reflexivity.
  - symmetry. apply nth_error_None. lia.
Qed.

Section TransposedLookup.

Context {cmp : ExcelCmp}.

(** X8.  [hlookup] is [vlookup] on the table turned on its side: on a
    rectangular table with at least one column both give the same answer
    for every target, index and search mode. *)
Theorem hlookup_transpose (t : value) (table : list (list value)) (w : nat)
    (k : Z) (range_lookup : bool) :
  rectangular table w -> (1 <= w)%nat ->
  hlookup t (Array table) k range_lookup
  = vlookup t (Array (zip_star table)) k range_lookup.
Proof.
  intros (Hne & Hall) Hw.
  destruct table as [|row0 rest] eqn:Et; [congruence|]. rewrite <- Et in *.
  assert (Hlen0 : length row0 = w).
  { rewrite Et in Hall. apply (Forall_inv Hall). }
  assert (Hh : (1 <= length table)%nat) by (rewrite Et; cbn; lia).
  pose proof (zip_star_length table w Hne Hall) as HTlen.
  pose proof (zip_star_rows VNone table w Hne Hall) as HTrows.
  pose proof (zip_star_nth_error VNone table w Hne Hall) as HTnth.
  assert (HTfirst : first_column (zip_star table) = row0).
  { rewrite Et. apply (zip_star_first_column row0 rest w).
    rewrite <- Et. assumption. }
  unfold hlookup, vlookup. cbn [list_like negb rows_of bind].
  destruct (Z.leb_spec k 0); [reflexivity|].
  destruct (getitem_in_bounds (zip_star table) 0 ltac:(lia))
    as (T0 & HT0 & ->). cbn [bind].
  assert (HT0len : length T0 = length table).
  { rewrite Forall_forall in HTrows. apply HTrows.
    eapply nth_error_In. eassumption. }
  rewrite HT0len.
  destruct (Z.gtb_spec k (Z.of_nat (length table))); [reflexivity|].
  assert (Hget0 : getitem table 0 = Ret row0) by (rewrite Et; reflexivity).
  rewrite Hget0. cbn [bind].
  rewrite (comprehension_first (zip_star table) (length table) HTrows Hh).
  cbn [bind]. rewrite HTfirst.
  destruct (match_result_in_range t row0 (match_type_of_bool range_lookup))
    as (m & -> & [-> | (i & -> & Hi)]); cbn [bind]; [reflexivity|].
  (* the cell in row [k], column [i] *)
  destruct (getitem_in_bounds table (Z.to_nat (k - 1)) ltac:(lia))
    as (rk & Hrk & Hgrk).
  assert (Hrklen : length rk = w).
  { rewrite Forall_forall in Hall. apply Hall.
    eapply nth_error_In. eassumption. }
  assert (Hi' : Z.to_nat (Z.of_nat i - 1) = (i - 1)%nat) by lia.
  rewrite !getitemZ_nonneg by lia.
  rewrite Hi', Hgrk. cbn [bind].
  rewrite (getitem_Some (zip_star table) (i - 1)
             (map (fun r => nth (i - 1) r VNone) table)).
  2:{ rewrite HTnth. destruct (Nat.ltb_spec (i - 1) w); [reflexivity | lia]. }
  cbn [bind]. rewrite !getitemZ_nonneg by lia. rewrite Hi'.
  rewrite (getitem_Some rk (i - 1) (nth (i - 1) rk VNone))
    by (apply nth_error_nth'; lia).
  rewrite (getitem_Some _ (Z.to_nat (k - 1)) (nth (i - 1) rk VNone));
    [reflexivity|].
  rewrite nth_error_map, Hrk. reflexivity.
Qed.

(** X9.  With an explicit result vector [lookup] answers with the cell of
    that vector at the position [_match] finds in the search vector, and
    it makes no difference whether the result vector is laid out as one
    row or as one column. *)
Theorem lookup_result_vector_orientation (t : value)
    (rows : list (list value)) (w : nat) (rr : list value) :
  rectangular rows w -> (1 <= w)%nat -> rr <> [] ->
  lookup t (Array rows) (Some (Array [rr]))
  = (m <- _match t (search_vector rows) 1 ;; project m rr) /\
  lookup t (Array rows) (Some (Array (as_column rr)))
  = (m <- _match t (search_vector rows) 1 ;; project m rr).
Proof.
  intros (Hne & Hall) Hw Hrr.
  destruct rows as [|row0 rest] eqn:Et; [congruence|]. rewrite <- Et in *.
  assert (Hget0 : getitem rows 0 = Ret row0) by (rewrite Et; reflexivity).
  assert (Hlen0 : length row0 = w).
  { rewrite Et in Hall. apply (Forall_inv Hall). }
  assert (Hhd : hd [] rows = row0) by (rewrite Et; reflexivity).
  assert (Hfirst : forall rrange,
    lookup_result_vector (last_column rows) (Some (Array rrange))
      = Ret (inr rr) ->
    lookup_result_vector (last rows []) (Some (Array rrange))
      = Ret (inr rr) ->
    lookup t (Array rows) (Some (Array rrange))
    = (m <- _match t (search_vector rows) 1 ;; project m rr)).
  { intros rrange Hsel1 Hsel2.
    unfold lookup, search_vector. cbn [list_like negb rows_of bind].
    rewrite Hget0, Hhd. cbn [bind]. rewrite Hlen0.
    destruct (w <=? length rows)%nat.
    - rewrite (comprehension_first rows w Hall Hw). cbn [bind].
      destruct (_match t (first_column rows) 1) as [m|e]; [|reflexivity].
      cbn [bind]. rewrite (comprehension_last rows w Hall Hw).
      cbn [bind fst snd]. rewrite Hsel1. reflexivity.
    - destruct (_match t row0 1) as [m|e]; [|reflexivity].
      cbn [bind]. rewrite (getitemZ_last rows []) by assumption.
      cbn [bind fst snd]. rewrite Hsel2. reflexivity. }
  split; apply Hfirst.
  - unfold lookup_result_vector. cbn [list_like negb rows_of bind getitem
      nth_error length Nat.eqb].
    destruct rr as [|x rr']; [congruence|]. reflexivity.
  - unfold lookup_result_vector. cbn [list_like negb rows_of bind getitem
      nth_error length Nat.eqb].
    destruct rr as [|x rr']; [congruence|]. reflexivity.
  - unfold lookup_result_vector. cbn [list_like negb rows_of bind].
    destruct rr as [|x [|y rr']]; [congruence | reflexivity |].
    change (as_column (x :: y :: rr')) with ([x] :: as_column (y :: rr')).
    cbn [getitem nth_error bind length].
    change ([x] :: as_column (y :: rr')) with (as_column (x :: y :: rr')).
    rewrite comprehension_as_column.
    unfold as_column. rewrite length_map. reflexivity.
  - unfold lookup_result_vector. cbn [list_like negb rows_of bind].
    destruct rr as [|x [|y rr']]; [congruence | reflexivity |].
    change (as_column (x :: y :: rr')) with ([x] :: as_column (y :: rr')).
    cbn [getitem nth_error bind length].
    change ([x] :: as_column (y :: rr')) with (as_column (x :: y :: rr')).
    rewrite comprehension_as_column.
    unfold as_column. rewrite length_map. reflexivity.
Qed.

End TransposedLookup.

(* ===================================================================== *)
(** ** [choose], [rows] and [columns] *)
(* ===================================================================== *)

(** X10.  [choose] never raises: for an index from 1 to the number of
    arguments it answers the argument at that position, and for every
    other index the invalid-value error. *)
Theorem choose_in_range (index : Z) (args : list value) :
  (1 <= index <= Z.of_nat (length args) ->
   exists v, nth_error args (Z.to_nat (index - 1)) = Some v /\
             choose index args = Ret v) /\
  (index < 1 \/ Z.of_nat (length args) < index ->
   choose index args = Ret (VErr VALUE_ERROR)).
Proof.
  unfold choose. split; intros H.
  - destruct (Z.ltb_spec index 1); [lia|].
    destruct (Z.ltb_spec (Z.of_nat (length args)) index); [lia|].
    destruct args as [|x args]; [cbn in H; lia|]. cbn [orb].
    rewrite getitemZ_nonneg by lia.
    destruct (getitem_in_bounds (x :: args) (Z.to_nat (index - 1))
                ltac:(lia)) as (v & Hv & ->).
    exists v. split; [assumption | reflexivity].
  - destruct (Z.ltb_spec index 1); [reflexivity|].
    destruct (Z.ltb_spec (Z.of_nat (length args)) index); [reflexivity|].
    lia.
Qed.

Lemma concat_rectangular {A : Type} (vs : list (list A)) (w : nat) :
  Forall (fun r => length r = w) vs ->
  length (concat vs) = (length vs * w)%nat.
Proof.
  induction 1 as [|r vs Hr Hall IH]; [reflexivity|].
  cbn. rewrite length_app, IH, Hr. reflexivity.
Qed.

(** X11.  On a rectangular array [rows] is the number of rows, [columns]
    the width of the rows, and their product the number of cells; on a
    scalar both are 1. *)
Theorem rows_columns_count (vs : list (list value)) (w : nat) (v : value) :
  rectangular vs w ->
  rows (Array vs) = Ret (Z.of_nat (length vs)) /\
  columns (Array vs) = Ret (Z.of_nat w) /\
  Z.of_nat (length vs) * Z.of_nat w = Z.of_nat (length (concat vs)) /\
  rows (Scalar v) = Ret 1 /\ columns (Scalar v) = Ret 1.
Proof.
  intros (Hne & Hall). repeat split.
  - unfold columns. cbn [list_like rows_of bind].
    destruct vs as [|v0 vs]; [congruence|]. cbn [getitem nth_error bind].
    rewrite (Forall_inv Hall). reflexivity.
  - rewrite (concat_rectangular vs w Hall). lia.
Qed.

(* ===================================================================== *)
(** ** [index] *)
(* ===================================================================== *)

Lemma comprehension_ret {A B : Type} (f : A -> py B) (g : A -> B)
    (l : list A) :
  (forall x, In x l -> f x = Ret (g x)) ->
  comprehension f l = Ret (map g l).
Proof.
  induction l as [|x l IH]; intros H; [reflexivity|].
  cbn [comprehension map]. rewrite (H x (or_introl eq_refl)). cbn [bind].
  rewrite IH by (intros y Hy; apply H; right; assumption). reflexivity.
Qed.

Lemma comprehension_raise {A B : Type} (f : A -> py B) (e : exn)
    (x : A) (l : list A) :
  f x = Raise e -> comprehension f (x :: l) = Raise e.
Proof. intros H. cbn [comprehension]. rewrite H. reflexivity. Qed.

Lemma map_nth_seq {A B : Type} (F : A -> B) (d : A) (l : list A) :
  map (fun i => F (nth i l d)) (seq 0 (length l)) = map F l.
Proof.
  apply nth_error_ext. intros i.
  rewrite !nth_error_map, nth_error_seq.
  destruct (Nat.ltb_spec i (length l)) as [Hi | Hi]; cbn.
  - rewrite (nth_error_nth' l d Hi). reflexivity.
  - rewrite (proj2 (nth_error_None l i) Hi). reflexivity.
Qed.

Lemma array_data_row (a : list (list value)) (r : list value) (i : nat)
    (c : Z) :
  nth_error a i = Some r -> 0 <= c ->
  array_data a (Z.of_nat i) c = getitem r (Z.to_nat c).
Proof.
  intros Hr Hc. unfold array_data.
  rewrite getitemZ_nonneg, Nat2Z.id by lia.
  rewrite (getitem_Some a i r Hr). cbn [bind].
  apply getitemZ_nonneg. assumption.
Qed.

Lemma array_data_no_row (a : list (list value)) (i c : Z) :
  Z.of_nat (length a) <= i -> array_data a i c = Raise IndexError.
Proof.
  intros Hi. unfold array_data. rewrite getitemZ_nonneg by lia.
  rewrite getitem_out_of_bounds by lia. reflexivity.
Qed.

(** What [index] does up to its [try] block, on an array that has a first
    cell. *)
Lemma index_first_cell (a0 : list value) (rest : list (list value))
    (x : value) (a0' : list value) (row_num col_num : option Z) :
  a0 = x :: a0' ->
  index (Array (a0 :: rest)) row_num col_num
  = except_IndexError
      (let a := a0 :: rest in
       if given row_num && given col_num then
         if (number row_num <? 0) || (number col_num <? 0)
         then Ret (Scalar (VErr VALUE_ERROR))
         else
           v <- array_data a (number row_num - 1) (number col_num - 1) ;;
           Ret (Scalar v)
       else if given row_num then
         if number row_num <? 0 then Ret (Scalar (VErr VALUE_ERROR))
         else if (length a0 =? 1)%nat then
           v <- array_data a (number row_num - 1) 0 ;; Ret (Scalar v)
         else if (length a =? 1)%nat then
           v <- array_data a 0 (number row_num - 1) ;; Ret (Scalar v)
         else
           r <- comprehension
                  (fun col => array_data a (number row_num - 1) (Z.of_nat col))
                  (seq 0 (length a0)) ;;
           Ret (Array [r])
       else if given col_num then
         if number col_num <? 0 then Ret (Scalar (VErr VALUE_ERROR))
         else if (length a =? 1)%nat then
           v <- array_data a 0 (number col_num - 1) ;; Ret (Scalar v)
         else if (length a0 =? 1)%nat then
           v <- array_data a (number col_num - 1) 0 ;; Ret (Scalar v)
         else
           c <- comprehension
                  (fun row =>
                     v <- array_data a (Z.of_nat row) (number col_num - 1) ;;
                     Ret [v])
                  (seq 0 (length a)) ;;
           Ret (Array c)
       else Ret (Array a)).
Proof. intros ->. reflexivity. Qed.

(** X12.  On a rectangular array with at least one column, and for a row
    and a column number that are both given and not zero, [index] never
    raises: it answers the invalid-value error if one of them is
    negative, the cell at that row and column if both are inside the
    array, and the invalid-reference error if one is beyond it. *)
Theorem index_cell (a : list (list value)) (w : nat) (r c : Z) :
  rectangular a w -> (1 <= w)%nat -> r <> 0 -> c <> 0 ->
  (r < 0 \/ c < 0 ->
   index (Array a) (Some r) (Some c) = Ret (Scalar (VErr VALUE_ERROR))) /\
  (1 <= r <= Z.of_nat (length a) -> 1 <= c <= Z.of_nat w ->
   exists row v,
     nth_error a (Z.to_nat (r - 1)) = Some row /\
     nth_error row (Z.to_nat (c - 1)) = Some v /\
     index (Array a) (Some r) (Some c) = Ret (Scalar v)) /\
  (0 < r -> 0 < c -> Z.of_nat (length a) < r \/ Z.of_nat w < c ->
   index (Array a) (Some r) (Some c) = Ret (Scalar (VErr REF_ERROR))).
Proof.
  intros (Hne & Hall) Hw Hr Hc.
  destruct a as [|a0 rest] eqn:Ea; [congruence|].
  assert (Hlen0 : length a0 = w) by apply (Forall_inv Hall).
  destruct a0 as [|x a0'] eqn:Ea0; [cbn in Hlen0; lia|].
  rewrite <- Ea0 in *. rewrite <- Ea in *.
  assert (Hidx : index (Array a) (Some r) (Some c)
    = except_IndexError
        (if (r <? 0) || (c <? 0) then Ret (Scalar (VErr VALUE_ERROR))
         else v <- array_data a (r - 1) (c - 1) ;; Ret (Scalar v))).
  { rewrite Ea. rewrite (index_first_cell a0 rest x a0' _ _ Ea0).
    cbn [given number].
    destruct (Z.eqb_spec r 0); [congruence|].
    destruct (Z.eqb_spec c 0); [congruence|]. reflexivity. }
  rewrite Hidx. repeat split.
  - intros Hneg.
    destruct (Z.ltb_spec r 0); [reflexivity|].
    destruct (Z.ltb_spec c 0); [reflexivity | lia].
  - intros Hrin Hcin.
    destruct (Z.ltb_spec r 0); [lia|]. destruct (Z.ltb_spec c 0); [lia|].
    cbn [orb].
    destruct (array_data_in_bounds a w (Z.to_nat r) c Hall ltac:(lia) Hcin)
      as (row & v & Hrow & Hv & Hdata).
    rewrite Z2Nat.id in Hdata by lia. rewrite Hdata.
    exists row, v. repeat split; try assumption.
    replace (Z.to_nat (r - 1)) with (Z.to_nat r - 1)%nat by lia. assumption.
  - intros Hrpos Hcpos Hout.
    destruct (Z.ltb_spec r 0); [lia|]. destruct (Z.ltb_spec c 0); [lia|].
    cbn [orb].
    destruct (Z_lt_le_dec (Z.of_nat (length a)) r) as [Hbig | Hin].
    + rewrite array_data_no_row by lia. reflexivity.
    + destruct (getitem_in_bounds a (Z.to_nat (r - 1)) ltac:(lia))
        as (row & Hrow & _).
      assert (Hrowlen : length row = w).
      { rewrite Forall_forall in Hall. apply Hall.
        eapply nth_error_In. eassumption. }
      replace (r - 1) with (Z.of_nat (Z.to_nat (r - 1))) at 1 by lia.
      rewrite (array_data_row a row _ (c - 1) Hrow) by lia.
      rewrite getitem_out_of_bounds by lia. reflexivity.
Qed.

(** X13.  On a rectangular array of two or more rows and two or more
    columns, [index] with only a row number answers that whole row as a
    one-row array, and with only a column number that whole column as a
    one-column array; a number beyond the array gives the
    invalid-reference error.  A number that is zero counts as not
    given. *)
Theorem index_whole_row_or_column (a : list (list value)) (w : nat) (n : Z) :
  rectangular a w -> (2 <= w)%nat -> (2 <= length a)%nat ->
  (1 <= n <= Z.of_nat (length a) ->
   exists row,
     nth_error a (Z.to_nat (n - 1)) = Some row /\
     index (Array a) (Some n) None = Ret (Array [row]) /\
     index (Array a) (Some n) (Some 0) = Ret (Array [row])) /\
  (Z.of_nat (length a) < n ->
   index (Array a) (Some n) None = Ret (Scalar (VErr REF_ERROR))) /\
  (1 <= n <= Z.of_nat w ->
   index (Array a) None (Some n)
   = Ret (Array (as_column
                   (map (fun row => nth (Z.to_nat (n - 1)) row VNone) a))) /\
   index (Array a) (Some 0) (Some n)
   = Ret (Array (as_column
                   (map (fun row => nth (Z.to_nat (n - 1)) row VNone) a)))) /\
  (Z.of_nat w < n ->
   index (Array a) None (Some n) = Ret (Scalar (VErr REF_ERROR))).
Proof.
  intros (Hne & Hall) Hw Hh.
  destruct a as [|a0 rest] eqn:Ea; [congruence|].
  assert (Hlen0 : length a0 = w) by apply (Forall_inv Hall).
  destruct a0 as [|x a0'] eqn:Ea0; [cbn in Hlen0; lia|].
  rewrite <- Ea0 in *. rewrite <- Ea in *.
  assert (Hrow : forall cn, given cn = false -> 0 < n ->
    index (Array a) (Some n) cn
    = except_IndexError
        (r <- comprehension
                (fun col => array_data a (n - 1) (Z.of_nat col))
                (seq 0 w) ;;
         Ret (Array [r]))).
  { intros cn Hcn Hn. rewrite Ea.
    rewrite (index_first_cell a0 rest x a0' _ _ Ea0). rewrite <- Ea.
    cbv zeta. cbn [given number]. rewrite Hcn.
    destruct (Z.eqb_spec n 0); [lia|]. cbn [negb andb].
    destruct (Z.ltb_spec n 0); [lia|]. rewrite Hlen0.
    destruct (Nat.eqb_spec w 1); [lia|].
    destruct (Nat.eqb_spec (length a) 1); [lia|]. reflexivity. }
  assert (Hcol : forall rn, given rn = false -> 0 < n ->
    index (Array a) rn (Some n)
    = except_IndexError
        (c <- comprehension
                (fun row => v <- array_data a (Z.of_nat row) (n - 1) ;;
                            Ret [v])
                (seq 0 (length a)) ;;
         Ret (Array c))).
  { intros rn Hrn Hn. rewrite Ea.
    rewrite (index_first_cell a0 rest x a0' _ _ Ea0). rewrite <- Ea.
    cbv zeta. cbn [given number]. rewrite Hrn.
    destruct (Z.eqb_spec n 0); [lia|]. cbn [negb andb].
    destruct (Z.ltb_spec n 0); [lia|]. rewrite Hlen0.
    destruct (Nat.eqb_spec w 1); [lia|].
    destruct (Nat.eqb_spec (length a) 1); [lia|]. reflexivity. }
  split; [|split; [|split]].
  - (* a whole row *)
    intros Hn.
    destruct (getitem_in_bounds a (Z.to_nat (n - 1)) ltac:(lia))
      as (row & Hrown & _).
    assert (Hrowlen : length row = w).
    { rewrite Forall_forall in Hall. apply Hall.
      eapply nth_error_In. eassumption. }
    assert (Hcomp : comprehension
                      (fun col => array_data a (n - 1) (Z.of_nat col))
                      (seq 0 w) = Ret row).
    { rewrite (comprehension_ret _ (fun col => nth col row VNone)).
      - rewrite <- Hrowlen. rewrite (map_nth_seq (fun v => v) VNone row).
        rewrite map_id. reflexivity.
      - intros col Hcol'. apply in_seq in Hcol'.
        replace (n - 1) with (Z.of_nat (Z.to_nat (n - 1))) by lia.
        rewrite (array_data_row a row _ _ Hrown) by lia.
        rewrite Nat2Z.id. apply getitem_Some. apply nth_error_nth'. lia. }
    exists row. split; [assumption|].
    split; rewrite Hrow by (reflexivity || lia); rewrite Hcomp; reflexivity.
  - (* a row beyond the array *)
    intros Hn. rewrite Hrow by (reflexivity || lia).
    destruct w as [|w']; [lia|]. cbn [seq].
    rewrite (comprehension_raise _ IndexError); [reflexivity|].
    apply array_data_no_row. lia.
  - (* a whole column *)
    intros Hn.
    assert (Hcomp : comprehension
                      (fun row => v <- array_data a (Z.of_nat row) (n - 1) ;;
                                  Ret [v])
                      (seq 0 (length a))
                    = Ret (as_column
                             (map (fun row => nth (Z.to_nat (n - 1)) row VNone)
                                  a))).
    { rewrite (comprehension_ret _
                 (fun i => [nth (Z.to_nat (n - 1)) (nth i a []) VNone])).
      - rewrite (map_nth_seq
                   (fun row => [nth (Z.to_nat (n - 1)) row VNone]) [] a).
        unfold as_column. rewrite map_map. reflexivity.
      - intros i Hi. apply in_seq in Hi.
        pose proof (nth_error_nth' a [] (proj2 Hi)) as Hrowi.
        cbn [Nat.add] in Hrowi.
        rewrite (array_data_row a _ i (n - 1) Hrowi) by lia.
        assert (Hrowlen : length (nth i a []) = w).
        { rewrite Forall_forall in Hall. apply Hall.
          eapply nth_error_In. eassumption. }
        rewrite (getitem_Some _ _ (nth (Z.to_nat (n - 1)) (nth i a []) VNone))
          by (apply nth_error_nth'; lia).
        reflexivity. }
    split; rewrite Hcol by (reflexivity || lia); rewrite Hcomp; reflexivity.
  - (* a column beyond the array *)
    intros Hn. rewrite Hcol by (reflexivity || lia).
    rewrite Ea at 1. cbn [length seq].
    rewrite (comprehension_raise _ IndexError); [reflexivity|].
    assert (Hfirst : nth_error a 0 = Some a0) by (rewrite Ea; reflexivity).
    rewrite (array_data_row a a0 0 (n - 1) Hfirst) by lia.
    rewrite getitem_out_of_bounds by lia. reflexivity.
Qed.

Lemma array_data_as_column (l : list value) (i : Z) :
  0 <= i -> array_data (as_column l) i 0 = getitem l (Z.to_nat i).
Proof.
  intros Hi. unfold array_data. rewrite getitemZ_nonneg by assumption.
  unfold getitem, as_column. rewrite nth_error_map.
  destruct (nth_error l (Z.to_nat i)); reflexivity.
Qed.

Lemma array_data_one_row (l : list value) (c : Z) :
  0 <= c -> array_data [l] 0 c = getitem l (Z.to_nat c).
Proof.
  intros Hc. apply (array_data_row [l] l 0 c eq_refl Hc).
Qed.

(** On a vector, as one row or as one column, a single number given as
    row number or as column number reads the cell at that position. *)
Lemma index_vector_get (l : list value) (k : Z) :
  l <> [] -> 0 < k ->
  let read := except_IndexError
                (v <- getitem l (Z.to_nat (k - 1)) ;; Ret (Scalar v)) in
  index (Array [l]) (Some k) None = read /\
  index (Array [l]) None (Some k) = read /\
  index (Array (as_column l)) (Some k) None = read /\
  index (Array (as_column l)) None (Some k) = read.
Proof.
  intros Hne Hk read. subst read.
  destruct l as [|x l'] eqn:El; [congruence|]. rewrite <- El in *.
  assert (Hcol : as_column l = [x] :: as_column l') by (rewrite El; reflexivity).
  assert (Hlen : length (as_column l) = length l)
    by (unfold as_column; apply length_map).
  assert (Hz : (k =? 0) = false) by (apply Z.eqb_neq; lia).
  assert (Hn : (k <? 0) = false) by (apply Z.ltb_ge; lia).
  repeat split.
  - rewrite (index_first_cell l [] x l' _ _ El). cbv zeta.
    cbn [given number negb andb]. rewrite Hz, Hn. cbn [negb andb length].
    destruct (Nat.eqb_spec (length l) 1) as [H1 | H1].
    + assert (l = [x]) as Hl.
      { rewrite El in *. destruct l'; [reflexivity | cbn in H1; lia]. }
      rewrite Hl. change [[x]] with (as_column [x]).
      rewrite array_data_as_column by lia. reflexivity.
    + cbn [Nat.eqb]. rewrite array_data_one_row by lia. reflexivity.
  - rewrite (index_first_cell l [] x l' _ _ El). cbv zeta.
    cbn [given number negb andb]. rewrite Hz, Hn.
    cbn [negb andb length Nat.eqb].
    rewrite array_data_one_row by lia. reflexivity.
  - rewrite Hcol. rewrite (index_first_cell [x] _ x [] _ _ eq_refl).
    rewrite <- Hcol. cbv zeta.
    cbn [given number negb andb]. rewrite Hz, Hn.
    cbn [negb andb length Nat.eqb].
    rewrite array_data_as_column by lia. reflexivity.
  - rewrite Hcol. rewrite (index_first_cell [x] _ x [] _ _ eq_refl).
    rewrite <- Hcol. cbv zeta.
    cbn [given number negb andb]. rewrite Hz, Hn. cbn [negb andb].
    rewrite Hlen.
    destruct (Nat.eqb_spec (length l) 1) as [H1 | H1].
    + assert (l = [x]) as Hl.
      { rewrite El in *. destruct l'; [reflexivity | cbn in H1; lia]. }
      rewrite Hl. change (as_column [x]) with [[x]].
      rewrite array_data_one_row by lia. reflexivity.
    + cbn [length Nat.eqb].
      rewrite array_data_as_column by lia. reflexivity.
Qed.

(** X14.  On a vector [index] takes a single number as a position in the
    vector, whether the vector is one row or one column and whether the
    number is given as row number or as column number: inside the vector
    it answers the cell at that position, beyond it the invalid-reference
    error. *)
Theorem index_vector (l : list value) (k : Z) :
  (1 <= k <= Z.of_nat (length l) ->
   exists v,
     nth_error l (Z.to_nat (k - 1)) = Some v /\
     index (Array [l]) (Some k) None = Ret (Scalar v) /\
     index (Array [l]) None (Some k) = Ret (Scalar v) /\
     index (Array (as_column l)) (Some k) None = Ret (Scalar v) /\
     index (Array (as_column l)) None (Some k) = Ret (Scalar v)) /\
  (l <> [] -> Z.of_nat (length l) < k ->
   index (Array [l]) (Some k) None = Ret (Scalar (VErr REF_ERROR)) /\
   index (Array [l]) None (Some k) = Ret (Scalar (VErr REF_ERROR)) /\
   index (Array (as_column l)) (Some k) None
   = Ret (Scalar (VErr REF_ERROR)) /\
   index (Array (as_column l)) None (Some k)
   = Ret (Scalar (VErr REF_ERROR))).
Proof.
  split.
  - intros Hk.
    assert (Hne : l <> []) by (destruct l; [cbn in Hk; lia | discriminate]).
    destruct (index_vector_get l k Hne ltac:(lia)) as (H1 & H2 & H3 & H4).
    destruct (getitem_in_bounds l (Z.to_nat (k - 1)) ltac:(lia))
      as (v & Hv & Hget).
    rewrite Hget in H1, H2, H3, H4. exists v. repeat split; assumption.
  - intros Hne Hk.
    destruct (index_vector_get l k Hne ltac:(lia)) as (H1 & H2 & H3 & H4).
    rewrite getitem_out_of_bounds in H1, H2, H3, H4 by lia.
    repeat split; assumption.
Qed.

(** X15.  [index] hands an error sentinel through and answers the
    invalid-value error for any other scalar; on an array it reads the
    first cell before its [try] block, so an array without rows or with
    an empty first row raises [IndexError]; and with neither number given
    (or both zero) it answers the array itself. *)
Theorem index_edges (e : error_code) (v : value) (rest : list (list value))
    (x : value) (a0 : list value) (row_num col_num : option Z) :
  index (Scalar (VErr e)) row_num col_num = Ret (Scalar (VErr e)) /\
  (in_ERROR_CODES v = false ->
   index (Scalar v) row_num col_num = Ret (Scalar (VErr VALUE_ERROR))) /\
  index (Array []) row_num col_num = Raise IndexError /\
  index (Array ([] :: rest)) row_num col_num = Raise IndexError /\
  (given row_num = false -> given col_num = false ->
   index (Array ((x :: a0) :: rest)) row_num col_num
   = Ret (Array ((x :: a0) :: rest))).
Proof.
  repeat split; try reflexivity.
  - intros Hv. unfold index. cbn [list_like negb]. rewrite Hv. reflexivity.
  - intros Hr Hc. rewrite (index_first_cell _ rest x a0 _ _ eq_refl).
    cbv zeta. rewrite Hr, Hc. reflexivity.
Qed.

(* ===================================================================== *)
(** ** [row], [column] and more on [offset] *)
(* ===================================================================== *)

Lemma zrange_length (lo hi : Z) : length (zrange lo hi) = Z.to_nat (hi - lo).
Proof. unfold zrange. rewrite length_map, length_seq. reflexivity. Qed.

Lemma zrange_nth_error (lo hi : Z) (k : nat) :
  (k < Z.to_nat (hi - lo))%nat ->
  nth_error (zrange lo hi) k = Some (lo + Z.of_nat k).
Proof.
  intros Hk. unfold zrange. rewrite nth_error_map, nth_error_seq.
  destruct (Nat.ltb_spec k (Z.to_nat (hi - lo))); [reflexivity | lia].
Qed.

(** X16.  For a span with set end column and end row, [column] answers one
    row that lists the columns of the span from left to right, as many as
    the span is wide, and [row] answers one one-cell row per row of the
    span, from top to bottom; for a point they answer its column and its
    row. *)
Theorem column_row_of_span (s : string) (c r ec er : Z) :
  ec <> 0 -> er <> 0 -> c <= ec -> r <= er ->
  (exists cols,
     column (Range s c r ec er) = Numbers [cols] /\
     Z.of_nat (length cols) = addr_width (Range s c r ec er) /\
     forall k, (k < length cols)%nat ->
               nth_error cols k = Some (c + Z.of_nat k)) /\
  (exists rws,
     row (Range s c r ec er) = Numbers (as_column rws) /\
     Z.of_nat (length rws) = addr_height (Range s c r ec er) /\
     forall k, (k < length rws)%nat ->
               nth_error rws k = Some (r + Z.of_nat k)) /\
  column (Cell s c r) = Number c /\ row (Cell s c r) = Number r.
Proof.
  intros Hec Her Hc Hr. unfold column, row. cbn [addr_width addr_height].
  destruct (Z.eqb_spec ec 0); [congruence|].
  destruct (Z.eqb_spec er 0); [congruence|].
  split; [|split; [|split; reflexivity]].
  - exists (zrange c (ec + 1)). split; [reflexivity|].
    rewrite zrange_length. split; [lia|].
    intros k Hk. apply zrange_nth_error. assumption.
  - exists (zrange r (er + 1)). split; [reflexivity|].
    rewrite zrange_length. split; [lia|].
    intros k Hk. apply zrange_nth_error. assumption.
Qed.

(** The result of [offset] when both corners are on the grid. *)
Lemma offset_on_grid (base : address_ref) (row_inc col_inc : Z)
    (height width : option Z) (h w nr nc er ec : Z) :
  h = effective height (addr_height base) ->
  w = effective width (addr_width base) ->
  nr = addr_row base + row_inc -> nc = addr_col_idx base + col_inc ->
  er = nr + h - 1 -> ec = nc + w - 1 ->
  1 <= h -> 1 <= w -> on_grid nc nr -> on_grid ec er ->
  offset base row_inc col_inc height width
  = Ret (Ref (if (h =? 1) && (w =? 1)
              then Cell (addr_sheet base) nc nr
              else Range (addr_sheet base) nc nr ec er)).
Proof.
  intros -> -> -> -> -> -> Hh Hw Htl Hbr.
  unfold on_grid, MAX_COL, MAX_ROW in *. unfold offset.
  fold (effective height (addr_height base)).
  fold (effective width (addr_width base)).
  set (h := effective height (addr_height base)) in *.
  set (w := effective width (addr_width base)) in *.
  unfold MAX_COL, MAX_ROW.
  destruct (Z.leb_spec (addr_row base + row_inc) 0); [lia|].
  destruct (Z.gtb_spec (addr_row base + row_inc + h - 1) 1048576); [lia|].
  destruct (Z.leb_spec (addr_col_idx base + col_inc) 0); [lia|].
  destruct (Z.gtb_spec (addr_col_idx base + col_inc + w - 1) 16384); [lia|].
  cbn [orb].
  destruct (Z.eqb_spec h w) as [Hhw|Hhw], (Z.eqb_spec w 1) as [Hw1|Hw1],
           (Z.eqb_spec h 1) as [Hh1|Hh1];
    cbn [andb]; try reflexivity; try lia.
  all: rewrite create_written_span by lia;
       rewrite with_sheet_unset by reflexivity; reflexivity.
Qed.

(** X17.  On points, [offset] by nothing is the identity, and two steps
    that stay on the grid add up: moving by [(dr, dc)] and then by
    [(dr2, dc2)] is moving by [(dr + dr2, dc + dc2)]. *)
Theorem offset_point_steps (s : string) (c r dr dc dr2 dc2 : Z) :
  (on_grid c r ->
   offset (Cell s c r) 0 0 (Some 1) (Some 1) = Ret (Ref (Cell s c r)) /\
   offset (Cell s c r) 0 0 None None = Ret (Ref (Cell s c r))) /\
  (on_grid (c + dc) (r + dr) ->
   offset (Cell s c r) dr dc None None
   = Ret (Ref (Cell s (c + dc) (r + dr))) /\
   (p <- offset (Cell s c r) dr dc None None ;;
    match p with
    | Ref a => offset a dr2 dc2 None None
    | RefError e => Ret (RefError e)
    end)
   = offset (Cell s c r) (dr + dr2) (dc + dc2) None None).
Proof.
  assert (Hpoint : forall c' r' dr' dc' height width,
            effective height 1 = 1 -> effective width 1 = 1 ->
            on_grid (c' + dc') (r' + dr') ->
            offset (Cell s c' r') dr' dc' height width
            = Ret (Ref (Cell s (c' + dc') (r' + dr')))).
  { intros c' r' dr' dc' height width Hh Hw Hg.
    rewrite (offset_on_grid (Cell s c' r') dr' dc' height width
               1 1 (r' + dr') (c' + dc') (r' + dr') (c' + dc'));
      cbn [addr_height addr_width addr_row addr_col_idx addr_sheet];
      try (symmetry; assumption); try reflexivity; try lia; assumption. }
  split.
  - intros Hg.
    assert (Hg' : on_grid (c + 0) (r + 0)) by (rewrite !Z.add_0_r; assumption).
    split.
    + rewrite (Hpoint c r 0 0 (Some 1) (Some 1) eq_refl eq_refl Hg').
      rewrite !Z.add_0_r. reflexivity.
    + rewrite (Hpoint c r 0 0 None None eq_refl eq_refl Hg').
      rewrite !Z.add_0_r. reflexivity.
  - intros Hg.
    rewrite (Hpoint c r dr dc None None eq_refl eq_refl Hg).
    split; [reflexivity|]. cbn [bind].
    unfold offset. cbn [addr_row addr_col_idx addr_height addr_width
                        addr_sheet].
    rewrite <- !Z.add_assoc. reflexivity.
Qed.

(** X18.  Without a height and a width [offset] moves a span as it is:
    a span of more than one cell, moved by [(dr, dc)] to a place on the
    grid, keeps its size and its sheet, and moving the result back by
    [(-dr, -dc)] gives the span again. *)
Theorem offset_span_shift (s : string) (c r ec er dr dc : Z) :
  on_grid c r -> on_grid ec er -> c <= ec -> r <= er -> c < ec \/ r < er ->
  on_grid (c + dc) (r + dr) -> on_grid (ec + dc) (er + dr) ->
  offset (Range s c r ec er) dr dc None None
  = Ret (Ref (Range s (c + dc) (r + dr) (ec + dc) (er + dr))) /\
  offset (Range s (c + dc) (r + dr) (ec + dc) (er + dr)) (- dr) (- dc)
    None None
  = Ret (Ref (Range s c r ec er)).
Proof.
  intros Hg1 Hg2 Hc Hr Hbig Hg3 Hg4.
  assert (Hspan : forall c1 r1 c2 r2 dr' dc',
            c1 <= c2 -> r1 <= r2 -> c1 < c2 \/ r1 < r2 ->
            on_grid (c1 + dc') (r1 + dr') -> on_grid (c2 + dc') (r2 + dr') ->
            offset (Range s c1 r1 c2 r2) dr' dc' None None
            = Ret (Ref (Range s (c1 + dc') (r1 + dr') (c2 + dc') (r2 + dr')))).
  { intros c1 r1 c2 r2 dr' dc' Hc' Hr' Hbig' Ha Hb.
    rewrite (offset_on_grid (Range s c1 r1 c2 r2) dr' dc' None None
               (r2 - r1 + 1) (c2 - c1 + 1) (r1 + dr') (c1 + dc')
               (r2 + dr') (c2 + dc'));
      cbn [effective addr_height addr_width addr_row addr_col_idx addr_sheet];
      try reflexivity; try lia; try assumption.
    destruct (Z.eqb_spec (r2 - r1 + 1) 1), (Z.eqb_spec (c2 - c1 + 1) 1);
      cbn [andb]; try reflexivity. lia. }
  split.
  - apply Hspan; assumption.
  - rewrite (Hspan (c + dc) (r + dr) (ec + dc) (er + dr) (- dr) (- dc));
      try lia.
    + do 2 f_equal. f_equal; lia.
    + replace (c + dc + - dc) with c by lia.
      replace (r + dr + - dr) with r by lia. assumption.
    + replace (ec + dc + - dc) with ec by lia.
      replace (er + dr + - dr) with er by lia. assumption.
Qed.

(* ===================================================================== *)
(** ** [_xlws_filter] *)
(* ===================================================================== *)

(** A comprehension with a condition, on positions [s, s + 1, ...]: where
    the condition reads the flags and the body reads the items, it keeps
    the flagged items. *)
Lemma comprehension_if_keep {B : Type} (cond : nat -> py bool)
    (f : nat -> py B) (items : list B) : forall (flags : list bool) (s : nat),
  length flags = length items ->
  (forall i b, nth_error flags i = Some b -> cond (s + i)%nat = Ret b) ->
  (forall i x, nth_error items i = Some x -> f (s + i)%nat = Ret x) ->
  comprehension_if cond f (seq s (length items)) = Ret (keep flags items).
Proof.
  induction items as [|x items IH]; intros [|b flags] s Hlen Hcond Hf;
    try discriminate; [reflexivity|].
  cbn [length seq comprehension_if keep].
  pose proof (Hcond O b eq_refl) as Hc0. rewrite Nat.add_0_r in Hc0.
  pose proof (Hf O x eq_refl) as Hf0. rewrite Nat.add_0_r in Hf0.
  rewrite Hc0. cbn [bind].
  assert (Hrest : comprehension_if cond f (seq (S s) (length items))
                  = Ret (keep flags items)).
  { apply IH.
    - cbn in Hlen. lia.
    - intros i b' Hi. replace (S s + i)%nat with (s + S i)%nat by lia.
      apply Hcond. assumption.
    - intros i x' Hi. replace (S s + i)%nat with (s + S i)%nat by lia.
      apply Hf. assumption. }
  destruct b; [rewrite Hf0; cbn [bind]|]; rewrite Hrest; reflexivity.
Qed.

Lemma keep_map {A B : Type} (g : A -> B) (flags : list bool) (l : list A) :
  keep flags (map g l) = map g (keep flags l).
Proof.
  revert l. induction flags as [|b flags IH]; intros [|x l]; cbn;
    try reflexivity.
  destruct b; cbn; rewrite IH; reflexivity.
Qed.

Lemma keep_In {A : Type} (flags : list bool) (l : list A) (x : A) :
  In x (keep flags l) -> In x l.
Proof.
  revert l. induction flags as [|b flags IH]; intros [|y l]; cbn;
    try tauto.
  destruct b; cbn; intros H.
  - destruct H as [-> | H]; [left; reflexivity | right; apply IH; assumption].
  - right. apply IH. assumption.
Qed.

Lemma keep_nil_iff {A : Type} (flags : list bool) (l : list A) :
  length flags = length l ->
  (keep flags l = [] <-> existsb (fun b => b) flags = false).
Proof.
  revert l. induction flags as [|b flags IH]; intros [|x l] Hlen;
    try discriminate; cbn; [tauto|].
  destruct b; cbn.
  - split; discriminate.
  - apply IH. cbn in Hlen. lia.
Qed.

(** Cell [j] of every column of a rectangular array is row [j]. *)
Lemma zip_star_row {A : Type} (d : A) (vs : list (list A)) (w j : nat) :
  vs <> [] -> Forall (fun r => length r = w) vs -> (j < length vs)%nat ->
  map (fun col => nth j col d) (zip_star vs) = nth j vs [].
Proof.
  intros Hne Hall Hj. apply nth_error_ext. intros i.
  rewrite nth_error_map, (zip_star_nth_error d vs w Hne Hall).
  assert (Hrow : length (nth j vs []) = w).
  { rewrite Forall_forall in Hall. apply Hall. apply nth_In. assumption. }
  destruct (Nat.ltb_spec i w) as [Hi | Hi]; cbn.
  - rewrite (nth_error_nth' (nth j vs []) d) by lia. f_equal.
    rewrite (nth_indep _ d (nth i [] d)) by (rewrite length_map; lia).
    rewrite (map_nth (fun r => nth i r d) vs []). reflexivity.
  - symmetry. apply nth_error_None. lia.
Qed.

(** Picking columns of a rectangular array and putting the picked columns
    back into rows picks the same cells of every row. *)
Lemma zip_star_keep {A : Type} (d : A) (flags : list bool)
    (vs : list (list A)) (w : nat) :
  vs <> [] -> Forall (fun r => length r = w) vs -> length flags = w ->
  keep flags (zip_star vs) <> [] ->
  zip_star (keep flags (zip_star vs)) = map (keep flags) vs.
Proof.
  intros Hne Hall Hflags Hpicked.
  assert (Hcols : Forall (fun c => length c = length vs)
                         (keep flags (zip_star vs))).
  { apply Forall_forall. intros c Hc. apply keep_In in Hc.
    pose proof (zip_star_rows d vs w Hne Hall) as Hrows.
    rewrite Forall_forall in Hrows. apply Hrows. assumption. }
  apply nth_error_ext. intros j.
  rewrite (zip_star_nth_error d _ (length vs) Hpicked Hcols).
  rewrite nth_error_map.
  destruct (Nat.ltb_spec j (length vs)) as [Hj | Hj].
  - rewrite (nth_error_nth' vs [] Hj). cbn [option_map]. f_equal.
    rewrite <- keep_map. rewrite (zip_star_row d vs w j Hne Hall Hj).
    reflexivity.
  - rewrite (proj2 (nth_error_None vs j) Hj). reflexivity.
Qed.

(** X19.  With a column of flags, one per row, [_xlws_filter] answers the
    rows of [values] whose flag is true in Python's sense, in their
    order, and [if_empty] where no flag is. *)
Theorem filter_rows (vs inc : list (list value)) (if_empty : arg) :
  length vs = length inc -> (2 <= length inc)%nat ->
  Forall (fun r => length r = 1%nat) inc ->
  _xlws_filter (Array vs) (Array inc) if_empty
  = Ret (match keep (map (fun r => truthy (hd VNone r)) inc) vs with
         | [] => if_empty
         | picked => Array picked
         end).
Proof.
  intros Hlen Hh Hinc. unfold _xlws_filter. cbn [rows_of bind].
  destruct (getitem_in_bounds vs 0 ltac:(lia)) as (v0 & _ & ->).
  destruct (getitem_in_bounds inc 0 ltac:(lia)) as (i0 & Hi0 & ->).
  cbn [bind].
  assert (Hi0len : length i0 = 1%nat).
  { rewrite Forall_forall in Hinc. apply Hinc.
    eapply nth_error_In. eassumption. }
  destruct (Nat.ltb_spec 1 (length inc)); [|lia].
  rewrite andb_false_r. rewrite Hi0len, Hlen, Nat.eqb_refl.
  cbn [Nat.ltb Nat.leb negb andb].
  rewrite <- Hlen.
  rewrite (comprehension_if_keep _ _ vs
             (map (fun r => truthy (hd VNone r)) inc) 0).
  - cbn [bind]. destruct (keep _ vs); reflexivity.
  - rewrite length_map. lia.
  - intros i b Hb. cbn [Nat.add]. rewrite nth_error_map in Hb.
    destruct (nth_error inc i) as [r|] eqn:Er; [|discriminate].
    cbn in Hb. injection Hb as <-.
    rewrite (getitem_Some inc i r Er). cbn [bind].
    assert (Hr : length r = 1%nat).
    { rewrite Forall_forall in Hinc. apply Hinc.
      eapply nth_error_In. eassumption. }
    destruct r as [|f [|? ?]]; try discriminate. reflexivity.
  - intros i x Hx. cbn [Nat.add]. apply getitem_Some. assumption.
Qed.

(** X20.  With a row of flags, one per column, [_xlws_filter] on a
    rectangular array answers every row cut down to the cells whose flag
    is true, and [if_empty] where no flag is. *)
Theorem filter_columns (vs : list (list value)) (w : nat) (i0 : list value)
    (if_empty : arg) :
  rectangular vs w -> (1 <= w)%nat -> length i0 = w ->
  _xlws_filter (Array vs) (Array [i0]) if_empty
  = Ret (if existsb truthy i0
         then Array (map (keep (map truthy i0)) vs)
         else if_empty).
Proof.
  intros (Hne & Hall) Hw Hi0. unfold _xlws_filter. cbn [rows_of bind].
  destruct vs as [|v0 rest] eqn:Ev; [congruence|]. rewrite <- Ev in *.
  assert (Hget0 : getitem vs 0 = Ret v0) by (rewrite Ev; reflexivity).
  assert (Hlen0 : length v0 = w).
  { rewrite Ev in Hall. apply (Forall_inv Hall). }
  rewrite Hget0. cbn [bind getitem nth_error length].
  rewrite Hlen0, Hi0, Nat.eqb_refl. cbn [Nat.ltb Nat.leb negb andb].
  pose proof (zip_star_length vs w Hne Hall) as HTlen.
  rewrite (comprehension_if_keep _ _ (zip_star vs) (map truthy i0) 0).
  2:{ rewrite length_map. lia. }
  2:{ intros i b Hb. cbn [Nat.add]. rewrite nth_error_map in Hb.
      unfold getitem. destruct (nth_error i0 i); [|discriminate].
      cbn in Hb. injection Hb as <-. reflexivity. }
  2:{ intros i x Hx. cbn [Nat.add]. apply getitem_Some. assumption. }
  cbn [bind].
  assert (Hex : existsb truthy i0 = existsb (fun b => b) (map truthy i0)).
  { clear. induction i0 as [|x l IH]; cbn; [reflexivity|].
    rewrite IH. reflexivity. }
  pose proof (keep_nil_iff (map truthy i0) (zip_star vs)
                ltac:(rewrite length_map; lia)) as Hnil.
  rewrite Hex. destruct (existsb (fun b => b) (map truthy i0)).
  - assert (Hpicked : keep (map truthy i0) (zip_star vs) <> []).
    { intros Habs. apply Hnil in Habs. discriminate. }
    rewrite (zip_star_keep VNone _ vs w Hne Hall) by
      (rewrite ?length_map; assumption).
    rewrite Ev at 1. reflexivity.
  - rewrite (proj2 Hnil eq_refl). reflexivity.
Qed.

(** X21.  Where the flags are an array that is neither one row as wide as
    [values] nor one column as high, [_xlws_filter] answers the
    invalid-value error.  Where the flags are a single cell, a scalar or
    a vector is handed back if the flag is true and [if_empty] is the
    answer otherwise, while a block of several rows and columns always
    gives [if_empty]. *)
Theorem filter_shapes (v0 i0 : list value) (vs inc : list (list value))
    (flag x : value) (l : list value) (if_empty : arg) :
  (~ (length v0 = length i0 /\ inc = []) ->
   ~ (length (v0 :: vs) = length (i0 :: inc) /\ (length i0 <= 1)%nat) ->
   _xlws_filter (Array (v0 :: vs)) (Array (i0 :: inc)) if_empty
   = Ret (Scalar (VErr VALUE_ERROR))) /\
  (vs <> [] -> length v0 <> 1%nat ->
   _xlws_filter (Array (v0 :: vs)) (Scalar flag) if_empty = Ret if_empty) /\
  _xlws_filter (Scalar x) (Scalar flag) if_empty
  = Ret (if truthy flag then Scalar x else if_empty) /\
  _xlws_filter (Array [l]) (Scalar flag) if_empty
  = Ret (if truthy flag then Array [l] else if_empty) /\
  (l <> [] ->
   _xlws_filter (Array (as_column l)) (Scalar flag) if_empty
   = Ret (if truthy flag then Array (as_column l) else if_empty)).
Proof.
  split; [|split; [|split; [|split]]].
  - intros H1 H2. unfold _xlws_filter.
    cbn [rows_of bind getitem nth_error].
    destruct (Nat.eqb_spec (length v0) (length i0)) as [Hw | Hw];
      destruct (Nat.ltb_spec 1 (length (i0 :: inc))) as [Hi | Hi];
      cbn [negb andb].
    + destruct (Nat.eqb_spec (length (v0 :: vs)) (length (i0 :: inc)))
        as [Hh | Hh]; destruct (Nat.ltb_spec 1 (length i0));
        cbn [negb andb bind]; try reflexivity.
      exfalso. apply H2. split; [assumption | lia].
    + exfalso. apply H1. split; [assumption|].
      destruct inc; [reflexivity | cbn in Hi; lia].
    + destruct (Nat.eqb_spec (length (v0 :: vs)) (length (i0 :: inc)))
        as [Hh | Hh]; destruct (Nat.ltb_spec 1 (length i0));
        cbn [negb andb bind]; try reflexivity.
      exfalso. apply H2. split; [assumption | lia].
    + destruct (Nat.eqb_spec (length (v0 :: vs)) (length (i0 :: inc)))
        as [Hh | Hh]; destruct (Nat.ltb_spec 1 (length i0));
        cbn [negb andb bind]; try reflexivity.
      exfalso. apply H2. split; [assumption | lia].
  - intros Hvs Hv0. unfold _xlws_filter.
    destruct vs as [|v1 vs]; [congruence|].
    cbn [length Nat.eqb getitem nth_error bind].
    destruct (Nat.eqb_spec (length v0) 1); [congruence | reflexivity].
  - reflexivity.
  - reflexivity.
  - intros Hl. unfold _xlws_filter.
    destruct l as [|y [|z l']]; [congruence | reflexivity |].
    change (as_column (y :: z :: l')) with ([y] :: as_column (z :: l')).
    cbn [length Nat.eqb getitem nth_error bind]. reflexivity.
Qed.

(* ===================================================================== *)
(** ** Ascending mode for a target between the elements *)
(* ===================================================================== *)

Section AscendingFloor.

Context {cmp : ExcelCmp} (laws : ExcelCmpLaws cmp).

(** X22.  In ascending mode, on leading absence markers, a sorted run of
    elements of the target's comparison class and trailing absence
    markers, where some element of the run is not above the target,
    [_match] answers the position of the last element that is not above
    the target: the target need not occur in the sequence. *)
Theorem match_ascending_floor (n m : nat) (core : list value) (t : value) :
  Forall (fun v => v <> VNone /\ cmp_type v = cmp_type t) core ->
  sorted_ascending core ->
  (exists v, In v core /\ cmp_lt t v = false) ->
  let a := (repeat VNone n ++ core ++ repeat VNone m)%list in
  exists r e,
    _match t a 1 = Ret (VNum (Z.of_nat r)) /\
    (n < r <= n + length core)%nat /\
    nth_error a (r - 1) = Some e /\ cmp_lt t e = false /\
    (forall j v, (n <= j < r)%nat -> nth_error a j = Some v ->
                 cmp_lt t v = false) /\
    (forall j v, (r <= j)%nat -> nth_error a j = Some v ->
                 v = VNone \/ cmp_lt t v = true).
Proof.
  intros Hcore Hsorted (v0 & Hin0 & Hv0) a.
  rewrite Forall_forall in Hcore.
  destruct (In_nth_error _ _ Hin0) as (p & Hp).
  assert (Hplen : (p < length core)%nat) by (apply nth_error_Some; congruence).
  assert (Hlen : length a = (n + length core + m)%nat).
  { unfold a. rewrite !length_app, !repeat_length. lia. }
  assert (Hlo : scan_lo a 0 = n).
  { destruct core as [|c0 core'] eqn:Ec; [destruct p; discriminate|].
    apply (scan_lo_window n m _ c0); [reflexivity|].
    apply Hcore. left. reflexivity. }
  assert (Hhi : scan_hi a (length a) = (n + length core)%nat).
  { destruct (nth_error core (length core - 1)) as [vl|] eqn:El.
    - apply (scan_hi_window n m core vl); [assumption|].
      apply Hcore. eapply nth_error_In. eassumption.
    - apply nth_error_None in El. lia. }
  assert (Hat : forall i, (n <= i < n + length core)%nat ->
                          nth_error a i = nth_error core (i - n)).
  { intros i Hi. apply window_nth_error. assumption. }
  destruct (bisect_right_total a t n (n + length core) ltac:(lia))
    as (r & Hr & Hrlo & Hrhi).
  destruct (bisect_right_partition a t n (n + length core) r)
    as (Hleft & Hright); [|assumption|].
  { intros i j vi vj Hi Hij Hj Hvi Hvj.
    rewrite Hat in Hvi, Hvj by lia.
    apply (above_target_monotone laws t core Hsorted (i - n) (j - n));
      [lia | assumption | assumption]. }
  assert (Hpr : (n + p < r)%nat).
  { destruct (Nat.lt_ge_cases (n + p) r) as [|Hge]; [assumption|].
    exfalso.
    assert (cmp_lt t v0 = true) as Habs.
    { apply (Hright (n + p)%nat); [lia|].
      rewrite Hat by lia. replace (n + p - n)%nat with p by lia. assumption. }
    congruence. }
  destruct (nth_error core (r - 1 - n)) as [e|] eqn:He;
    [|apply nth_error_None in He; lia].
  assert (Hae : nth_error a (r - 1) = Some e) by (rewrite Hat by lia; assumption).
  destruct (Hcore e (nth_error_In _ _ He)) as (Hene & Hclass).
  exists r, e. repeat split; try lia; try assumption.
  - rewrite match_type_ascending. unfold match_ascending.
    fold a. rewrite Hlo, Hhi, Hr. cbn [bind].
    destruct r as [|k]; [lia|].
    replace (S k - 1)%nat with k in Hae by lia.
    rewrite (walk_back_same_class t e a k Hae (eq_sym Hclass)). cbn [bind].
    unfold getitem. rewrite Hae. cbn [bind].
    destruct e; try reflexivity. congruence.
  - apply (Hleft (r - 1)%nat); [lia | assumption].
  - intros j v Hj Hv.
    destruct (Nat.lt_ge_cases j (n + length core)) as [Hlt | Hge].
    + right. apply (Hright j); [lia | assumption].
    + left. unfold a in Hv.
      rewrite nth_error_app2 in Hv; rewrite repeat_length in *; [|lia].
      rewrite nth_error_app2 in Hv by lia.
      apply nth_error_In, repeat_spec in Hv. assumption.
Qed.

End AscendingFloor.

(* ===================================================================== *)
(** ** Descending mode on a sorted sequence *)
(* ===================================================================== *)

Section DescendingSorted.

Context {cmp : ExcelCmp} (laws : ExcelCmpLaws cmp).

(** Below an element that is below the target, everything is. *)
Lemma below_target_carries (t v w : value) :
  cmp_type t = cmp_type w ->
  cmp_lt v t = true -> cmp_lt v w = false -> cmp_lt w t = true.
Proof.
  intros Hc Hvt Hvw. destruct (cmp_lt w t) eqn:E; [reflexivity|].
  rewrite (lt_not_gt_trans _ laws v t w Hc Hvt E) in Hvw. discriminate.
Qed.

Lemma match_scan_descending_sorted (t : value) (a : list value) :
  Forall (fun v => takes_part t v = true) a ->
  StronglySorted (fun x y => cmp_lt x y = false) a ->
  forall i d,
    (match_scan (compare_descending t) t a i d = d /\
     forall v, In v a -> cmp_lt v t = true) \/
    (exists k e,
       match_scan (compare_descending t) t a i d = VNum (Z.of_nat (i + k)) /\
       nth_error a k = Some e /\ cmp_lt e t = false /\
       (cmp_eq e t = true \/
        forall j w, (k < j)%nat -> nth_error a j = Some w ->
                    cmp_lt w t = true)).
Proof.
  intros Hpart Hsorted. induction Hsorted as [|v a Hs IH Hv];
    intros i d.
  { left. split; [reflexivity | intros v []]. }
  pose proof (Forall_inv Hpart) as Hpv. cbn beta in Hpv.
  pose proof (Forall_inv_tail Hpart) as Hpa. specialize (IH Hpa).
  unfold takes_part in Hpv. apply andb_prop in Hpv as (Herr & Hcls).
  apply negb_true_iff in Herr.
  cbn [match_scan]. rewrite Herr, Hcls.
  assert (Hcmp : compare_descending t i v d
                 = if cmp_lt v t then (true, d)
                   else (cmp_eq v t, VNum (Z.of_nat i))) by reflexivity.
  rewrite Hcmp. clear Hcmp.
  rewrite Forall_forall in Hv, Hpa.
  destruct (cmp_lt v t) eqn:Elt.
  - (* the first element is below the target: so is every element *)
    left. split; [reflexivity|].
    intros w [<- | Hw]; [assumption|].
    apply (below_target_carries t v w); [|assumption | apply Hv; assumption].
    specialize (Hpa w Hw). unfold takes_part in Hpa.
    apply andb_prop in Hpa as (_ & Hc). apply Z.eqb_eq in Hc. congruence.
  - destruct (cmp_eq v t) eqn:Eeq.
    + right. exists O, v. rewrite Nat.add_0_r.
      repeat split; try assumption. left. assumption.
    + destruct (IH (S i) (VNum (Z.of_nat i)))
        as [(Hres & Hall) | (k & e & Hres & Hk & He & Hafter)].
      * right. exists O, v. rewrite Nat.add_0_r.
        repeat split; try assumption. right.
        intros [|j] w Hj Hw; [lia|]. cbn in Hw.
        apply Hall. eapply nth_error_In. eassumption.
      * right. exists (S k), e. rewrite Hres.
        split; [f_equal; f_equal; lia|].
        split; [assumption|]. split; [assumption|].
        destruct Hafter as [Heq | Hafter]; [left; assumption|].
        right. intros [|j] w Hj Hw; [lia|]. cbn in Hw.
        apply (Hafter j); [lia | assumption].
Qed.

(** X23.  In descending mode, on a sequence of elements of the target's
    comparison class in which no element is below a later one, [_match]
    answers not-found if the first element is below the target (or there
    is none), and otherwise the position of an element that is not below
    the target and is the smallest such: no element that is not below
    the target is below it. *)
Theorem match_descending_sorted (t : value) (a : list value) :
  Forall (fun v => takes_part t v = true) a ->
  StronglySorted (fun x y => cmp_lt x y = false) a ->
  (forall v w, cmp_eq v t = true -> cmp_lt w v = cmp_lt w t) ->
  ((forall v, hd_error a = Some v -> cmp_lt v t = true) ->
   _match t a (-1) = Ret (VErr NA_ERROR)) /\
  (forall v, hd_error a = Some v -> cmp_lt v t = false ->
   exists k e,
     _match t a (-1) = Ret (VNum (Z.of_nat (S k))) /\
     nth_error a k = Some e /\ cmp_lt e t = false /\
     forall w, In w a -> cmp_lt w t = false -> cmp_lt w e = false).
Proof.
  intros Hpart Hsorted Heqlaw.
  assert (Hm : _match t a (-1)
               = Ret (match_scan (compare_descending t) t a 1
                        (VErr NA_ERROR))) by reflexivity.
  rewrite Hm.
  destruct (match_scan_descending_sorted t a Hpart Hsorted 1 (VErr NA_ERROR))
    as [(Hres & Hall) | (k & e & Hres & Hk & He & Hafter)].
  - split; [intros _; rewrite Hres; reflexivity|].
    intros v Hv Hvt. exfalso.
    destruct a as [|v' a']; [discriminate|]. injection Hv as ->.
    rewrite (Hall v (or_introl eq_refl)) in Hvt. discriminate.
  - split.
    + intros Hhd. exfalso.
      destruct a as [|v a']; [destruct k; discriminate|].
      specialize (Hhd v eq_refl).
      (* the first element is below the target, so the element found is *)
      destruct k as [|k'].
      * cbn in Hk. injection Hk as <-. congruence.
      * assert (Hin : In e a') by (eapply nth_error_In; exact Hk).
        pose proof (StronglySorted_inv Hsorted) as (_ & Hv).
        rewrite Forall_forall in Hv.
        rewrite Forall_forall in Hpart.
        pose proof (Hpart e (or_intror Hin)) as Hpe.
        unfold takes_part in Hpe. apply andb_prop in Hpe as (_ & Hc).
        apply Z.eqb_eq in Hc.
        rewrite (below_target_carries t v e (eq_sym Hc) Hhd (Hv e Hin)) in He.
        discriminate.
    + intros v Hv Hvt. exists k, e. rewrite Hres.
      split; [reflexivity|]. split; [assumption|]. split; [assumption|].
      intros w Hw Hwt. apply In_nth_error in Hw as (j & Hj).
      destruct (Nat.lt_trichotomy j k) as [Hlt | [-> | Hgt]].
      * apply (StronglySorted_nth_error _ _ Hsorted j k w e Hlt Hj Hk).
      * assert (w = e) as -> by congruence. apply (lt_irrefl _ laws).
      * destruct Hafter as [Heq | Hafter].
        -- rewrite (Heqlaw e w Heq). assumption.
        -- rewrite (Hafter j w Hgt Hj) in Hwt. discriminate.
Qed.

End DescendingSorted.

(* ===================================================================== *)
(** ** The theorems above at concrete inputs *)
(* ===================================================================== *)

Lemma match_exact_first_hit_witness :
  exists k v,
    nth_error [VNum 1; VNum 5; VNum 5] k = Some v /\
    exact_hit (VNum 5) v = true /\
    _match (VNum 5) [VNum 1; VNum 5; VNum 5] 0
    = Ret (VNum (Z.of_nat (S k))).
Proof.
  destruct (match_exact_first_hit (VNum 5) [VNum 1; VNum 5; VNum 5])
    as [(Hall & _) | (k & v & Hk & Hv & _ & Hm)].
  - exfalso. apply Forall_inv_tail, Forall_inv in Hall.
    vm_compute in Hall. discriminate.
  - exists k, v. repeat split; assumption.
Defined.

Lemma match_ascending_below_all_witness :
  _match (VNum 0) [VNone; VNum 1; VNum 2; VNone] 1 = Ret (VErr NA_ERROR).
Proof.
  apply (match_ascending_below_all (VNum 0) 1 1 [VNum 1; VNum 2]).
  repeat constructor; discriminate.
Defined.

Lemma vlookup_index_match_witness :
  (v <- vlookup (VNum 5)
         (Array [[VNum 1; VText "a"]; [VNum 5; VText "b"];
                 [VNum 9; VText "c"]]) 2 true ;;
   Ret (Scalar v))
  = (m <- match_ (VNum 5)
            (Array [[VNum 1; VText "a"]; [VNum 5; VText "b"];
                    [VNum 9; VText "c"]]) 1 ;;
     match m with
     | VNum i =>
         index (Array [[VNum 1; VText "a"]; [VNum 5; VText "b"];
                       [VNum 9; VText "c"]]) (Some i) (Some 2)
     | _ => Ret (Scalar m)
     end).
Proof.
  apply (vlookup_index_match (VNum 5) _ 2 2 true).
  - split; [discriminate | repeat constructor].
  - cbn. lia.
  - lia.
Defined.

Lemma vlookup_returns_witness :
  exists v,
    vlookup (VNum 6)
      (Array [[VNum 1; VText "a"]; [VNum 5; VText "b"]; [VNum 9; VText "c"]])
      2 true = Ret v.
Proof.
  destruct (vlookup_returns (VNum 6)
              [[VNum 1; VText "a"]; [VNum 5; VText "b"]; [VNum 9; VText "c"]]
              2 2 true) as (v & Hv & _).
  - split; [discriminate | repeat constructor].
  - lia.
  - exists v. assumption.
Defined.

Lemma hlookup_index_checks_witness :
  hlookup (VNum 1) (Array [[VNum 1; VNum 2]]) 0 false
  = Ret (VErr VALUE_ERROR) /\
  hlookup (VNum 1) (Array [[VNum 1; VNum 2]]) 2 false
  = Ret (VErr REF_ERROR) /\
  vlookup (VNum 1) (Array []) 1 false = Raise IndexError.
Proof.
  split; [|split].
  - apply (hlookup_index_checks (VNum 1) [[VNum 1; VNum 2]] 0 false). lia.
  - apply (hlookup_index_checks (VNum 1) [[VNum 1; VNum 2]] 2 false).
    cbn. lia.
  - apply (hlookup_index_checks (VNum 1) [] 1 false). lia.
Defined.

Lemma hlookup_transpose_witness :
  hlookup (VNum 5)
    (Array [[VNum 1; VNum 5; VNum 9]; [VText "a"; VText "b"; VText "c"]])
    2 true
  = vlookup (VNum 5)
      (Array (zip_star
                [[VNum 1; VNum 5; VNum 9]; [VText "a"; VText "b"; VText "c"]]))
      2 true.
Proof.
  apply (hlookup_transpose (VNum 5) _ 3 2 true).
  - split; [discriminate | repeat constructor].
  - lia.
Defined.

Lemma lookup_result_vector_orientation_witness :
  lookup (VNum 5) (Array [[VNum 1]; [VNum 5]; [VNum 9]])
    (Some (Array [[VText "a"; VText "b"; VText "c"]]))
  = lookup (VNum 5) (Array [[VNum 1]; [VNum 5]; [VNum 9]])
      (Some (Array (as_column [VText "a"; VText "b"; VText "c"]))).
Proof.
  destruct (lookup_result_vector_orientation (VNum 5)
              [[VNum 1]; [VNum 5]; [VNum 9]] 1
              [VText "a"; VText "b"; VText "c"]) as (Hrow & Hcol).
  - split; [discriminate | repeat constructor].
  - lia.
  - discriminate.
  - rewrite Hrow, Hcol. reflexivity.
Defined.

Lemma choose_in_range_witness :
  (exists v, nth_error [VText "a"; VText "b"] (Z.to_nat (2 - 1)) = Some v /\
             choose 2 [VText "a"; VText "b"] = Ret v) /\
  choose 3 [VText "a"; VText "b"] = Ret (VErr VALUE_ERROR).
Proof.
  split.
  - apply (choose_in_range 2 [VText "a"; VText "b"]). cbn. lia.
  - apply (choose_in_range 3 [VText "a"; VText "b"]). right. cbn. lia.
Defined.

Lemma rows_columns_count_witness :
  rows (Array [[VNum 1; VNum 2; VNum 3]; [VNum 4; VNum 5; VNum 6]]) = Ret 2 /\
  columns (Array [[VNum 1; VNum 2; VNum 3]; [VNum 4; VNum 5; VNum 6]])
  = Ret 3.
Proof.
  destruct (rows_columns_count
              [[VNum 1; VNum 2; VNum 3]; [VNum 4; VNum 5; VNum 6]] 3 VNone)
    as (Hr & Hc & _).
  - split; [discriminate | repeat constructor].
  - split; assumption.
Defined.

Lemma index_cell_witness :
  index (Array [[VNum 1; VNum 2]; [VNum 3; VNum 4]]) (Some (-1)) (Some 1)
  = Ret (Scalar (VErr VALUE_ERROR)) /\
  (exists row v,
     nth_error [[VNum 1; VNum 2]; [VNum 3; VNum 4]] (Z.to_nat (2 - 1))
     = Some row /\
     nth_error row (Z.to_nat (1 - 1)) = Some v /\
     index (Array [[VNum 1; VNum 2]; [VNum 3; VNum 4]]) (Some 2) (Some 1)
     = Ret (Scalar v)) /\
  index (Array [[VNum 1; VNum 2]; [VNum 3; VNum 4]]) (Some 3) (Some 1)
  = Ret (Scalar (VErr REF_ERROR)).
Proof.
  assert (Hrect : rectangular [[VNum 1; VNum 2]; [VNum 3; VNum 4]] 2)
    by (split; [discriminate | repeat constructor]).
  split; [|split].
  - apply (index_cell _ 2 (-1) 1 Hrect); lia.
  - apply (index_cell _ 2 2 1 Hrect); cbn; lia.
  - apply (index_cell _ 2 3 1 Hrect); cbn; lia.
Defined.

Lemma index_whole_row_or_column_witness :
  (exists row,
     nth_error [[VNum 1; VNum 2; VNum 3]; [VNum 4; VNum 5; VNum 6]]
       (Z.to_nat (2 - 1)) = Some row /\
     index (Array [[VNum 1; VNum 2; VNum 3]; [VNum 4; VNum 5; VNum 6]])
       (Some 2) None = Ret (Array [row]) /\
     index (Array [[VNum 1; VNum 2; VNum 3]; [VNum 4; VNum 5; VNum 6]])
       (Some 2) (Some 0) = Ret (Array [row])) /\
  index (Array [[VNum 1; VNum 2; VNum 3]; [VNum 4; VNum 5; VNum 6]])
    None (Some 4) = Ret (Scalar (VErr REF_ERROR)).
Proof.
  assert (Hrect : rectangular
            [[VNum 1; VNum 2; VNum 3]; [VNum 4; VNum 5; VNum 6]] 3)
    by (split; [discriminate | repeat constructor]).
  split.
  - apply (index_whole_row_or_column _ 3 2 Hrect); cbn; lia.
  - apply (index_whole_row_or_column _ 3 4 Hrect); cbn; lia.
Defined.

Lemma index_vector_witness :
  (exists v,
     nth_error [VNum 7; VNum 8; VNum 9] (Z.to_nat (2 - 1)) = Some v /\
     index (Array [[VNum 7; VNum 8; VNum 9]]) (Some 2) None
     = Ret (Scalar v) /\
     index (Array [[VNum 7; VNum 8; VNum 9]]) None (Some 2)
     = Ret (Scalar v) /\
     index (Array (as_column [VNum 7; VNum 8; VNum 9])) (Some 2) None
     = Ret (Scalar v) /\
     index (Array (as_column [VNum 7; VNum 8; VNum 9])) None (Some 2)
     = Ret (Scalar v)) /\
  index (Array (as_column [VNum 7; VNum 8; VNum 9])) (Some 4) None
  = Ret (Scalar (VErr REF_ERROR)).
Proof.
  split.
  - apply (index_vector [VNum 7; VNum 8; VNum 9] 2). cbn. lia.
  - apply (index_vector [VNum 7; VNum 8; VNum 9] 4);
      [discriminate | cbn; lia].
Defined.

Lemma index_edges_witness :
  index (Scalar (VNum 3)) (Some 1) None = Ret (Scalar (VErr VALUE_ERROR)) /\
  index (Array [[VNum 1; VNum 2]]) (Some 0) None
  = Ret (Array [[VNum 1; VNum 2]]).
Proof.
  split.
  - apply (index_edges NA_ERROR (VNum 3) [] VNone [] (Some 1) None).
    reflexivity.
  - apply (index_edges NA_ERROR VNone [] (VNum 1) [VNum 2] (Some 0) None);
      reflexivity.
Defined.

Lemma column_row_of_span_witness :
  (exists cols,
     column (Range "S" 2 3 4 7) = Numbers [cols] /\
     Z.of_nat (length cols) = addr_width (Range "S" 2 3 4 7) /\
     forall k, (k < length cols)%nat ->
               nth_error cols k = Some (2 + Z.of_nat k)) /\
  (exists rws,
     row (Range "S" 2 3 4 7) = Numbers (as_column rws) /\
     Z.of_nat (length rws) = addr_height (Range "S" 2 3 4 7) /\
     forall k, (k < length rws)%nat ->
               nth_error rws k = Some (3 + Z.of_nat k)).
Proof.
  destruct (column_row_of_span "S" 2 3 4 7) as (Hc & Hr & _); try lia.
  split; assumption.
Defined.

Lemma offset_point_steps_witness :
  offset (Cell "S" 3 4) 0 0 None None = Ret (Ref (Cell "S" 3 4)) /\
  (p <- offset (Cell "S" 3 4) 2 1 None None ;;
   match p with
   | Ref a => offset a 5 (-3) None None
   | RefError e => Ret (RefError e)
   end)
  = offset (Cell "S" 3 4) (2 + 5) (1 + -3) None None.
Proof.
  split.
  - apply (offset_point_steps "S" 3 4 0 0 0 0).
    unfold on_grid, MAX_COL, MAX_ROW. lia.
  - apply (offset_point_steps "S" 3 4 2 1 5 (-3)).
    unfold on_grid, MAX_COL, MAX_ROW. lia.
Defined.

Lemma offset_span_shift_witness :
  offset (Range "S" 2 3 4 7) 10 1 None None
  = Ret (Ref (Range "S" (2 + 1) (3 + 10) (4 + 1) (7 + 10))) /\
  offset (Range "S" (2 + 1) (3 + 10) (4 + 1) (7 + 10)) (- 10) (- 1) None None
  = Ret (Ref (Range "S" 2 3 4 7)).
Proof.
  apply (offset_span_shift "S" 2 3 4 7 10 1);
    unfold on_grid, MAX_COL, MAX_ROW; lia.
Defined.

Lemma filter_rows_witness :
  _xlws_filter
    (Array [[VNum 1; VText "a"]; [VNum 2; VText "b"]; [VNum 3; VText "c"]])
    (Array [[VBool true]; [VNum 0]; [VNum 7]]) (Scalar (VErr VALUE_ERROR))
  = Ret (Array [[VNum 1; VText "a"]; [VNum 3; VText "c"]]).
Proof.
  rewrite filter_rows; [reflexivity | reflexivity | cbn; lia |].
  repeat constructor.
Defined.

Lemma filter_columns_witness :
  _xlws_filter
    (Array [[VNum 1; VNum 2; VNum 3]; [VNum 4; VNum 5; VNum 6]])
    (Array [[VBool true; VBool false; VBool true]])
    (Scalar (VErr VALUE_ERROR))
  = Ret (Array [[VNum 1; VNum 3]; [VNum 4; VNum 6]]).
Proof.
  rewrite (filter_columns _ 3); [reflexivity | | lia | reflexivity].
  split; [discriminate | repeat constructor].
Defined.

Lemma filter_shapes_witness :
  _xlws_filter (Array [[VNum 1; VNum 2]; [VNum 3; VNum 4]])
    (Array [[VBool true; VBool true; VBool true]]) (Scalar VNone)
  = Ret (Scalar (VErr VALUE_ERROR)) /\
  _xlws_filter (Array [[VNum 1; VNum 2]; [VNum 3; VNum 4]])
    (Scalar (VBool true)) (Scalar VNone)
  = Ret (Scalar VNone).
Proof.
  split.
  - destruct (filter_shapes [VNum 1; VNum 2]
                [VBool true; VBool true; VBool true] [[VNum 3; VNum 4]] []
                VNone VNone [] (Scalar VNone)) as (Hshape & _).
    apply Hshape; cbn; intros (H & _); discriminate.
  - destruct (filter_shapes [VNum 1; VNum 2] [] [[VNum 3; VNum 4]] []
                (VBool true) VNone [] (Scalar VNone)) as (_ & Hblock & _).
    apply Hblock; [discriminate | cbn; lia].
Defined.

Lemma match_ascending_floor_witness :
  exists r e,
    _match (VNum 6) [VNone; VNum 1; VNum 5; VNum 9; VNone] 1
    = Ret (VNum (Z.of_nat r)) /\
    nth_error [VNone; VNum 1; VNum 5; VNum 9; VNone] (r - 1) = Some e /\
    cmp_lt (VNum 6) e = false.
Proof.
  destruct (match_ascending_floor SpecCmpFacts.spec_cmp_laws 1 1
              [VNum 1; VNum 5; VNum 9] (VNum 6))
    as (r & e & Hm & _ & He & Hle & _).
  - repeat constructor; discriminate.
  - repeat (constructor;
            try (split; [reflexivity | intros H; exfalso; apply H; reflexivity])).
  - exists (VNum 1). split; [left; reflexivity | reflexivity].
  - exists r, e. repeat split; assumption.
Defined.

Lemma match_descending_sorted_witness :
  exists k e,
    _match (VNum 5) [VNum 9; VNum 7; VNum 7; VNum 4; VNum 2] (-1)
    = Ret (VNum (Z.of_nat (S k))) /\
    nth_error [VNum 9; VNum 7; VNum 7; VNum 4; VNum 2] k = Some e /\
    cmp_lt e (VNum 5) = false.
Proof.
  destruct (match_descending_sorted SpecCmpFacts.spec_cmp_laws (VNum 5)
              [VNum 9; VNum 7; VNum 7; VNum 4; VNum 2]) as (_ & Hfound).
  - repeat constructor.
  - repeat constructor.
  - intros [| n | s | b | e] w Heq; try discriminate.
    + cbn in Heq. apply Z.eqb_eq in Heq. subst n. reflexivity.
    + destruct b; discriminate.
  - destruct (Hfound (VNum 9) eq_refl eq_refl) as (k & e & Hm & Hk & He & _).
    exists k, e. repeat split; assumption.
Defined.
